(** * A shallow embedding of the wolvesville content script

    The script observes a web page through DOM queries, rebuilds the operating
    player's [PlayerInfo] on every cycle and issues synthetic clicks and chat
    messages.  The development follows the source: JavaScript strings and the
    handful of regular expressions the script uses, the DOM as a tree of
    element nodes, the waiting primitive [waitForCondition], the role policy
    ([inGameDay], [inGameNight], [shooterAction]) as programs of a small effect
    type that are run in virtual time, and the main loop.
    The post-game handler [playAgain], the controller that starts and stops
    the loop, the background script that turns a click message into debugger
    commands, and the session timer of the popup follow.

    Strings are sequences of 8-bit characters; every character the script
    tests (digits, white space, ASCII keywords) lies in that range. *)

From Stdlib Require Import String Ascii List Bool ZArith NArith Lia Arith DecimalString.
From Equations Require Import Equations.
Import ListNotations.

Local Open Scope string_scope.
Local Open Scope Z_scope.
Local Open Scope list_scope.

Set Implicit Arguments.
Set Warnings "-register-all".

(* ===================================================================== *)
(** ** JavaScript strings *)
(* ===================================================================== *)

Module Js.

(** [s.startsWith(p)] *)
Fixpoint startsWith (s p : string) : bool :=
  match p, s with
  | EmptyString, _ => true
  | String _ _, EmptyString => false
  | String a p', String b s' => Ascii.eqb a b && startsWith s' p'
  end.

(** [s.includes(key)]: [key] occurs at some position of [s]. *)
Fixpoint includes (s key : string) : bool :=
  startsWith s key ||
  match s with
  | EmptyString => false
  | String _ s' => includes s' key
  end.

(** Truthiness of a string value: only the empty string is falsy. *)
Definition truthy (s : string) : bool :=
  match s with EmptyString => false | String _ _ => true end.

Definition code (c : ascii) : N := N_of_ascii c.

(** [\d] *)
Definition isDigit (c : ascii) : bool :=
  ((48 <=? code c) && (code c <=? 57))%N.

(** [\s], for the characters below 256: TAB, LF, VT, FF, CR, SP, NBSP. *)
Definition isSpace (c : ascii) : bool :=
  (((9 <=? code c) && (code c <=? 13)) || (code c =? 32) || (code c =? 160))%N.

(** [\w]: letters, digits and the underscore. *)
Definition isWord (c : ascii) : bool :=
  (isDigit c
   || ((65 <=? code c) && (code c <=? 90))
   || ((97 <=? code c) && (code c <=? 122))
   || (code c =? 95))%N.

(** Line terminators, which [.] does not match. *)
Definition isLineTerminator (c : ascii) : bool :=
  ((code c =? 10) || (code c =? 13))%N.

Fixpoint dropWhile (f : ascii -> bool) (s : string) : string :=
  match s with
  | EmptyString => EmptyString
  | String c s' => if f c then dropWhile f s' else s
  end.

Fixpoint takeWhile (f : ascii -> bool) (s : string) : string :=
  match s with
  | EmptyString => EmptyString
  | String c s' => if f c then String c (takeWhile f s') else EmptyString
  end.

Fixpoint rev_append (s acc : string) : string :=
  match s with
  | EmptyString => acc
  | String c s' => rev_append s' (String c acc)
  end.

Definition rev (s : string) : string := rev_append s EmptyString.

Definition trimStart (s : string) : string := dropWhile isSpace s.
Definition trimEnd (s : string) : string := rev (dropWhile isSpace (rev s)).

(** [s.trim()] *)
Definition trim (s : string) : string := trimEnd (trimStart s).

(** [s.slice(s.lastIndexOf('/') + 1)], which is also the last element of
    [s.split('/')]: the part after the last slash, all of [s] when it has
    none. *)
Fixpoint afterLastSlash (s : string) : string :=
  match s with
  | EmptyString => EmptyString
  | String c s' =>
      if includes s' "/" then afterLastSlash s'
      else if Ascii.eqb c "/" then s' else s
  end.

(** [s.match(/\d+/)?.[0]]: the first maximal run of digits. *)
Fixpoint firstDigits (s : string) : option string :=
  match s with
  | EmptyString => None
  | String c s' => if isDigit c then Some (takeWhile isDigit s) else firstDigits s'
  end.

(** [/^\d+\s/.test(s)] *)
Definition digitsThenSpace (s : string) : bool :=
  truthy (takeWhile isDigit s) &&
  match dropWhile isDigit s with
  | EmptyString => false
  | String c _ => isSpace c
  end.

(** The maximal runs of word characters of [s], left to right.  [cur] holds
    the run being read, reversed. *)
Fixpoint wordRuns (cur : string) (s : string) : list string :=
  match s with
  | EmptyString => match cur with EmptyString => [] | _ => [rev cur] end
  | String c s' =>
      if isWord c then wordRuns (String c cur) s'
      else match cur with
           | EmptyString => wordRuns EmptyString s'
           | _ => rev cur :: wordRuns EmptyString s'
           end
  end.

Definition allDigits (s : string) : bool :=
  match dropWhile isDigit s with EmptyString => true | _ => false end.

(** [s.match(/\b\d{1,2}\b/g) || []].  A match is one or two digits with a
    word boundary on each side; digits are word characters, so the matches
    are the maximal word runs that consist of one or two digits. *)
Definition digitTokens (s : string) : list string :=
  filter (fun w => allDigits w && (Nat.leb (String.length w) 2)) (wordRuns EmptyString s).

(** [s.match(/^([\S\s]*?)\s*\d{1,2}s$/)?.[1]].  The lazy group takes the
    shortest prefix that leaves a rest of the form white space, one or two
    digits, [s]; the rest is therefore the longest such suffix, read here
    from the end of the string. *)
Definition timerPrefix (s : string) : option string :=
  match rev s with
  | String c0 (String d1 r) =>
      if Ascii.eqb c0 "s" && isDigit d1 then
        let r' := match r with
                  | String d2 r2 => if isDigit d2 then r2 else r
                  | EmptyString => r
                  end in
        Some (rev (dropWhile isSpace r'))
      else None
  | _ => None
  end.

(** [/.*KEY.*\.png/.test(s)]: [key], then characters other than line
    terminators, then [.png].  [pngAhead] scans the part after the key. *)
Fixpoint pngAhead (s : string) : bool :=
  startsWith s ".png" ||
  match s with
  | EmptyString => false
  | String c s' => negb (isLineTerminator c) && pngAhead s'
  end.

Fixpoint dropN (n : nat) (s : string) : string :=
  match n, s with
  | O, _ => s
  | S _, EmptyString => EmptyString
  | S n', String _ s' => dropN n' s'
  end.

Fixpoint testKeyPng (key s : string) : bool :=
  (startsWith s key && pngAhead (dropN (String.length key) s)) ||
  match s with
  | EmptyString => false
  | String _ s' => testKeyPng key s'
  end.

(** [\b]: a word boundary lies between two positions of which exactly one
    holds a word character; the ends of the string hold none. *)
Definition boundary (prev next : option ascii) : bool :=
  xorb (match prev with Some c => isWord c | None => false end)
       (match next with Some c => isWord c | None => false end).

Definition head (s : string) : option ascii :=
  match s with EmptyString => None | String c _ => Some c end.

Definition last (s : string) : option ascii := head (rev s).

(** An occurrence of [text] in [s] with a word boundary before and after
    it.  [prev] is the character before the position read, if any. *)
Fixpoint occursWordBounded (text : string) (prev : option ascii) (s : string) : bool :=
  (startsWith s text
   && boundary prev (head (text ++ dropN (String.length text) s)%string)
   && boundary (match last text with Some c => Some c | None => prev end)
               (head (dropN (String.length text) s))) ||
  match s with
  | EmptyString => false
  | String c s' => occursWordBounded text (Some c) s'
  end.

(** Every character of [s] satisfies [f]. *)
Fixpoint all (f : ascii -> bool) (s : string) : bool :=
  match s with
  | EmptyString => true
  | String c s' => f c && all f s'
  end.

(** The syntax characters of a regular expression; every other character
    stands for itself in a pattern. *)
Definition isSyntaxCharacter (c : ascii) : bool :=
  existsb (Ascii.eqb c) (list_ascii_of_string "^$\.*+?()[]{}|").

Definition isLiteralText (text : string) : bool :=
  all (fun c => negb (isSyntaxCharacter c)) text.

(** [new RegExp('\\b' + text + '\\b').test(s)] for a [text] without syntax
    characters (the script passes ['5s']): the pattern is then [text]
    itself between two word boundaries.  A [text] with syntax characters is
    a pattern of another meaning, or none at all, and is kept out by the
    argument [literal]. *)
Definition testWordBounded (text : string) (literal : isLiteralText text = true) (s : string)
  : bool :=
  occursWordBounded text None s.
Arguments testWordBounded text literal s : clear implicits.

(** [key] occurs in [s]. *)
Definition Substring (key s : string) : Prop :=
  exists pre post, s = (pre ++ key ++ post)%string.

(** [c] is one of the characters of [s]. *)
Fixpoint occurs (c : ascii) (s : string) : Prop :=
  match s with
  | EmptyString => False
  | String c' s' => c = c' \/ occurs c s'
  end.

End Js.

(* ===================================================================== *)
(** ** Roles *)
(* ===================================================================== *)

(** The normalized role tags: the strings ['Wolf'], ['Junior Werewolf'],
    ['Split Wolf'], ['Priest'], ['Shooter'], ['Other'] and ['Unknown']. *)
Inductive Role : Type :=
| Wolf | JuniorWerewolf | SplitWolf | Priest | Shooter | Other | Unknown.

Definition Role_eqb (a b : Role) : bool :=
  match a, b with
  | Wolf, Wolf | JuniorWerewolf, JuniorWerewolf | SplitWolf, SplitWolf
  | Priest, Priest | Shooter, Shooter | Other, Other | Unknown, Unknown => true
  | _, _ => false
  end.

(** [WOLF_ROLES.has(r)], where [r] may be [null]. *)
Definition WOLF_ROLES (r : option Role) : bool :=
  match r with
  | Some Wolf | Some JuniorWerewolf | Some SplitWolf => true
  | _ => false
  end.

(** The literal [roleMap] of [getPlayerRole]; [Object.keys] lists string keys
    in insertion order. *)
Definition roleMap : list (string * Role) :=
  [ ("juniorwerewolf", JuniorWerewolf);
    ("junior_werewolf", JuniorWerewolf);
    ("split_wolf", SplitWolf);
    ("splitwolf", SplitWolf);
    ("wolf", Wolf);
    ("priest", Priest);
    ("vigilante", Shooter);
    ("gunner", Shooter) ].

(** The [for ... of Object.keys(roleMap)] loop with its [break]. *)
Fixpoint scanRoleMap (m : list (string * Role)) (filename : string) (role : Role) : Role :=
  match m with
  | [] => role
  | (key, r) :: m' =>
      if Js.includes filename key then r else scanRoleMap m' filename role
  end.

(** [getPlayerRole(roleImageFilename)]; [None] is a missing argument
    ([undefined] or [null]). *)
Definition getPlayerRole (roleImageFilename : option string) : Role :=
  match roleImageFilename with
  | None => Unknown
  | Some f => if negb (Js.truthy f) then Unknown else scanRoleMap roleMap f Other
  end.

(* ===================================================================== *)
(** ** The DOM *)
(* ===================================================================== *)

(** The layout facts the script reads: [offsetParent !== null],
    [offsetWidth], [offsetHeight], the computed [visibility] and [display],
    the number of client rectangles and the bounding rectangle. *)
Record Layout : Type := mkLayout {
  offsetParent : bool;
  offsetWidth : Z;
  offsetHeight : Z;
  visibility : string;
  display : string;
  clientRects : nat;
  rectWidth : Z;
  rectHeight : Z
}.

(** An element's own data.  [uid] is the identity of the JavaScript object:
    two references are the same element ([===], [Array.includes]) when
    their [uid]s agree. *)
Record Attrs : Type := mkAttrs {
  uid : nat;
  tag : string;
  style : string;            (* the style attribute *)
  tabindex : option string;  (* the tabindex attribute *)
  disabled : bool;           (* el.disabled is truthy *)
  disabledAttr : bool;       (* the disabled attribute is present *)
  src : string;              (* img.src *)
  layout : Layout
}.

Inductive Node : Type :=
| Text (data : string)
| Elem (a : Attrs) (children : list Node).

(** [node.textContent] *)
Fixpoint textContent (n : Node) : string :=
  match n with
  | Text s => s
  | Elem _ ks => String.concat "" (map textContent ks)
  end.

(** A reference to an element: its data, its children and the chain of its
    ancestors, nearest first, up to [document.body]. *)
Record Element : Type := mkElement {
  attrs : Attrs;
  kids : list Node;
  ancestors : list (Attrs * list Node)
}.

Definition elemText (e : Element) : string := textContent (Elem (attrs e) (kids e)).

(** The elements of a subtree in document order, the root first. *)
Fixpoint subtree (ctx : list (Attrs * list Node)) (n : Node) : list Element :=
  match n with
  | Text _ => []
  | Elem a ks => mkElement a ks ctx :: flat_map (subtree ((a, ks) :: ctx)) ks
  end.

(** [e.querySelectorAll(sel)]: the proper descendants of [e] that match. *)
Definition querySelectorAll (sel : Attrs -> bool) (e : Element) : list Element :=
  filter (fun x => sel (attrs x))
         (flat_map (subtree ((attrs e, kids e) :: ancestors e)) (kids e)).

(** [e.closest(sel)]: [e] itself or its nearest matching ancestor. *)
Fixpoint closestIn (sel : Attrs -> bool) (chain : list (Attrs * list Node)) : option Element :=
  match chain with
  | [] => None
  | (a, ks) :: up => if sel a then Some (mkElement a ks up) else closestIn sel up
  end.

Definition closest (sel : Attrs -> bool) (e : Element) : option Element :=
  closestIn sel ((attrs e, kids e) :: ancestors e).

(** The number of [parentElement] steps from [e] to the top; [document.body]
    has one parent, the root element. *)
Definition depth (e : Element) : nat := S (length (ancestors e)).

(** A snapshot of the page.  [innerText] is the rendered text of the body,
    which the browser computes from styles and cannot be read off the tree. *)
Record Dom : Type := mkDom {
  body : Node;
  innerText : string
}.

(** The elements that document-wide queries range over: the body and its
    descendants (the head holds none of the elements the script looks for). *)
Definition documentAll (d : Dom) : list Element := subtree [] (body d).

Definition documentQuery (sel : Attrs -> bool) (d : Dom) : list Element :=
  filter (fun x => sel (attrs x)) (documentAll d).

(** Elements are live objects: a reference kept across a suspension reads
    the element's current state.  A reference to an element that has left
    the page reads the state it was captured in. *)
Definition deref (d : Dom) (e : Element) : Element :=
  match find (fun x => Nat.eqb (uid (attrs x)) (uid (attrs e))) (documentAll d) with
  | Some x => x
  | None => e
  end.

(** *** Selectors *)

Definition selTag (t : string) (a : Attrs) : bool := String.eqb (tag a) t.
Definition selAny (a : Attrs) : bool := true.
(** [[tabindex="0"]] *)
Definition selTab0 (a : Attrs) : bool :=
  match tabindex a with Some v => String.eqb v "0" | None => false end.
(** [[tabindex="0"]:not([disabled])] *)
Definition selTab0Enabled (a : Attrs) : bool := selTab0 a && negb (disabledAttr a).
(** [[style*="flex-direction: column"]] *)
Definition selColumn (a : Attrs) : bool := Js.includes (style a) "flex-direction: column".

(** [isVisible(element)] *)
Definition isVisible (e : Element) : bool :=
  let l := layout (attrs e) in
  offsetParent l
  && (offsetWidth l >? 0)
  && (offsetHeight l >? 0)
  && negb (String.eqb (visibility l) "hidden")
  && negb (String.eqb (display l) "none")
  && Nat.ltb 0 (clientRects l).

(** [findTextInDocument(text)] *)
Definition findTextInDocument (d : Dom) (text : string) : bool :=
  Js.includes (textContent (body d)) text.

(** [findImageInDocument(imageNamePart)] *)
Definition findImageInDocument (d : Dom) (imageNamePart : string) : bool :=
  existsb (fun img => Js.includes (src (attrs img)) imageNamePart)
          (documentQuery (selTag "img") d).

(** [findImageInElement(element, /.*KEY.*\.png/)] *)
Definition findImageInElement (d : Dom) (element : Element) (key : string) : bool :=
  existsb (fun img => Js.testKeyPng key (src (attrs img)))
          (querySelectorAll (selTag "img") (deref d element)).

(** [gameIsOver()] *)
Definition gameIsOver (d : Dom) : bool :=
  findTextInDocument d "Continue"
  || findTextInDocument d "Play again"
  || findTextInDocument d "Victory"
  || findTextInDocument d "Defeat"
  || findTextInDocument d "Draw".

(** [getLabelBeforeTime()] *)
Fixpoint firstTimerLabel (texts : list string) : option string :=
  match texts with
  | [] => None
  | text :: rest =>
      match (if Js.truthy text then Js.timerPrefix text else None) with
      | Some g => Some (Js.trim g)
      | None => firstTimerLabel rest
      end
  end.

Definition getLabelBeforeTime (d : Dom) : option string :=
  firstTimerLabel (map elemText (documentQuery (selTag "div") d)).

(** [isDay()] *)
Definition isDay (d : Dom) : bool :=
  match getLabelBeforeTime d with
  | Some label => String.eqb label "Discussion" || String.eqb label "Voting"
  | None => false
  end.

(** [isNight()] *)
Definition isNight (d : Dom) : bool :=
  match getLabelBeforeTime d with
  | Some label => String.eqb label ""
  | None => false
  end.

(* ===================================================================== *)
(** ** The page state extractor (the first half of [inGame]) *)
(* ===================================================================== *)

(** [playerInfo].  Seat numbers are the strings the digit regex returned;
    [None] is [null]. *)
Record PlayerInfo : Type := mkPlayerInfo {
  name : string;
  number : option string;
  role : Role;
  coupleNumber1 : option string;
  coupleRole1 : option Role;
  coupleNumber2 : option string;
  coupleRole2 : option Role
}.

Definition imgsOf (e : Element) : list Element := querySelectorAll (selTag "img") e.

(** [allPlayerElements] *)
Definition allPlayerElements (d : Dom) : list Element :=
  filter (fun el => Js.digitsThenSpace (Js.trim (elemText el))) (documentQuery selColumn d).

(** [loverElements] *)
Definition loverElements (d : Dom) : list Element :=
  filter (fun el => existsb (fun img => Js.includes (src (attrs img)) "cupid_select_lovers_sticker_small")
                            (imgsOf el))
         (allPlayerElements d).

Definition notMe (myName : string) (el : Element) : bool := negb (Js.includes (elemText el) myName).
Definition isMe (myName : string) (el : Element) : bool := Js.includes (elemText el) myName.

(** [while (coupleElements.length < 2) coupleElements.push(null)] *)
Definition padToTwo (l : list Element) : list (option Element) :=
  match l with
  | [] => [None; None]
  | [a] => [Some a; None]
  | _ => map Some l
  end.

(** [coupleElements] *)
Definition coupleElements (d : Dom) (myName : string) : list (option Element) :=
  padToTwo (filter (notMe myName) (loverElements d)).

(** [getPlayerImageFilenames(elements)] *)
Definition getPlayerImageFilenames (elements : list Element) : list (list string) :=
  map (fun el => map (fun img => Js.afterLastSlash (src (attrs img))) (imgsOf el)) elements.

Definition coupleImageSets (d : Dom) (myName : string) : list (list string) :=
  getPlayerImageFilenames (filter (notMe myName) (loverElements d)).

Definition myImageSets (d : Dom) (myName : string) : list (list string) :=
  getPlayerImageFilenames (filter (isMe myName) (loverElements d)).

Definition isDecoration (f : string) : bool :=
  Js.includes f "vote_day" || Js.includes f "hand-skin" || Js.includes f "cupid".

(** The [while] loop of [extractRoleImage], on the set read from its end:
    [i] steps down while [set[i]] is a decoration; [set[-1]] is [undefined],
    which ends the loop and is returned. *)
Fixpoint skipDecorations (reversed : list string) : option string :=
  match reversed with
  | [] => None
  | f :: before => if isDecoration f then skipDecorations before else Some f
  end.

(** [extractRoleImage(imageSets)] *)
Definition extractRoleImage (imageSets : list (list string)) : list (option string) :=
  map (fun set => skipDecorations (List.rev set)) imageSets.

(** [arr[i]] for an array of possibly-undefined entries. *)
Definition at_ {A} (l : list (option A)) (i : nat) : option A :=
  match nth_error l i with Some x => x | None => None end.

(** [getPlayerNumber(el)] *)
Definition getPlayerNumber (el : option Element) : option string :=
  match el with
  | Some e => match Js.firstDigits (elemText e) with
              | Some m => if Js.truthy m then Some m else None
              | None => None
              end
  | None => None
  end.

(** [getRoleFromImage(img)] *)
Definition getRoleFromImage (img : option string) : option Role :=
  match img with
  | Some f => if Js.truthy f then Some (getPlayerRole (Some f)) else None
  | None => None
  end.

(** [myPlayerElement] *)
Definition myPlayerElement (d : Dom) (myName : string) : option Element :=
  find (isMe myName) (allPlayerElements d).

(** The [playerInfo] object literal of [inGame]. *)
Definition playerInfoOf (d : Dom) (myName : string) : PlayerInfo :=
  let myRoleImages := extractRoleImage (myImageSets d myName) in
  let coupleRoleImages := extractRoleImage (coupleImageSets d myName) in
  let ce := coupleElements d myName in
  {| name := myName;
     number := getPlayerNumber (myPlayerElement d myName);
     role := getPlayerRole (at_ myRoleImages 0);
     coupleNumber1 := getPlayerNumber (at_ ce 0);
     coupleRole1 := getRoleFromImage (at_ coupleRoleImages 0);
     coupleNumber2 := getPlayerNumber (at_ ce 1);
     coupleRole2 := getRoleFromImage (at_ coupleRoleImages 1) |}.

(* ===================================================================== *)
(** ** Waiting: [waitForCondition] *)
(* ===================================================================== *)

(** The [cancelConditions] argument: [null], one text, or an array. *)
Inductive CancelConditions : Type :=
| CancelNone
| CancelText (text : string)
| CancelTexts (texts : list string).

Inductive Verdict (R : Type) : Type :=
| Resolve (result : option R)   (* resolve(result), or resolve(null) *)
| Rearm.                        (* setTimeout(check, interval) *)
Arguments Resolve {R} result.
Arguments Rearm {R}.

Section WaitForCondition.

Variable R : Type.
(** The predicate; [None] stands for a falsy result, [Some r] for the
    truthy value [r]. *)
Variable conditionFn : Dom -> option R.
Variable timeout : Z.
Variable cancelConditions : CancelConditions.

(** [cancelTexts]: a falsy argument gives no text, a string one text. *)
Definition cancelTexts : list string :=
  match cancelConditions with
  | CancelNone => []
  | CancelText text => if Js.truthy text then [text] else []
  | CancelTexts texts => texts
  end.

(** [foundCancelText] is the entry [find] returns; the wait is cancelled
    when that entry is truthy. *)
Definition cancelled (d : Dom) : bool :=
  match cancelTexts with
  | [] => false
  | _ => match find (fun text => Js.includes (innerText d) text) cancelTexts with
         | Some foundCancelText => Js.truthy foundCancelText
         | None => false
         end
  end.

(** One run of [check], at time [now] on the page [d]. *)
Definition check (startTime now : Z) (d : Dom) : Verdict R :=
  match conditionFn d with
  | Some result => Resolve (Some result)
  | None =>
      if cancelled d then Resolve None
      else if now - startTime >=? timeout then Resolve None
      else Rearm
  end.

(** The earlier revision of the function takes one text or [null]. *)
Definition check_v1 (cancelText : option string) (startTime now : Z) (d : Dom) : Verdict R :=
  match conditionFn d with
  | Some result => Resolve (Some result)
  | None =>
      if (match cancelText with
          | Some text => Js.truthy text && Js.includes (innerText d) text
          | None => false
          end) then Resolve None
      else if now - startTime >=? timeout then Resolve None
      else Rearm
  end.

(** The runs of [check] happen at the times and on the pages of a
    schedule: run [k] reads the clock [fst (ticks k)] and the page
    [snd (ticks k)].  [polls fuel k] runs [check] from run [k] on and returns
    the index of the run that resolves together with the resolved value. *)
Variable ticks : nat -> Z * Dom.
Variable startTime : Z.

Definition checkAt (k : nat) : Verdict R :=
  check startTime (fst (ticks k)) (snd (ticks k)).

Fixpoint polls (fuel : nat) (k : nat) : option (nat * option R) :=
  match fuel with
  | O => None
  | S fuel' =>
      match checkAt k with
      | Resolve result => Some (k, result)
      | Rearm => polls fuel' (S k)
      end
  end.

(** [waitForCondition(conditionFn, timeout, interval, cancelConditions)] *)
Definition waitForCondition (fuel : nat) : option (nat * option R) := polls fuel 0.

End WaitForCondition.

(** A schedule honours the interval when each run of [check] comes no
    earlier than [interval] after the one before, which is what [setTimeout]
    promises (a negative delay counts as none), and the first comes no
    earlier than the reading of [startTime]. *)
Definition timely (ticks : nat -> Z * Dom) (startTime interval : Z) : Prop :=
  startTime <= fst (ticks O) /\
  forall k, fst (ticks k) + Z.max 0 interval <= fst (ticks (S k)).

(** Time passes: the clock readings of the schedule grow beyond any bound. *)
Definition unbounded (ticks : nat -> Z * Dom) : Prop :=
  forall T : Z, exists k, T <= fst (ticks k).

(* ===================================================================== *)
(** ** Programs *)
(* ===================================================================== *)

Inductive Action : Type :=
| PerformClick (target : nat) (button : string) (* the performClick message *)
| SetValue (target : nat) (value : option string) (* the native value setter *)
| DispatchEvent (target : nat) (type : string)
| Reload                                          (* location.reload() *)
| Log (msg : string)
| LogCount (msg : string) (n : Z).

(** Asynchronous code.  Between two suspensions the page is one snapshot
    ([Read]); [Sleep] and [WaitFor] suspend; [Fork] is a call of an
    asynchronous function, or a [setTimeout], that the caller does not
    await. *)
Inductive Prog : Type :=
| Done
| Throw (msg : string)
| Emit (a : Action) (k : Prog)
| Read (k : Dom -> Prog)
| Now (k : Z -> Prog)
| Sleep (ms : Z) (k : Prog)
| WaitFor (R : Type) (conditionFn : Dom -> option R) (timeout interval : Z)
          (cancel : CancelConditions) (k : option R -> Prog)
| Fork (child : Prog) (k : Prog).

(** [await p; q] *)
Fixpoint andThen (p q : Prog) : Prog :=
  match p with
  | Done => q
  | Throw m => Throw m
  | Emit a k => Emit a (andThen k q)
  | Read k => Read (fun d => andThen (k d) q)
  | Now k => Now (fun t => andThen (k t) q)
  | Sleep ms k => Sleep ms (andThen k q)
  | WaitFor c t i x k => WaitFor c t i x (fun r => andThen (k r) q)
  | Fork c k => Fork c (andThen k q)
  end.

(** [try { await p } catch (e) { h }] *)
Fixpoint tryCatch (p : Prog) (h : string -> Prog) : Prog :=
  match p with
  | Done => Done
  | Throw m => h m
  | Emit a k => Emit a (tryCatch k h)
  | Read k => Read (fun d => tryCatch (k d) h)
  | Now k => Now (fun t => tryCatch (k t) h)
  | Sleep ms k => Sleep ms (tryCatch k h)
  | WaitFor c t i x k => WaitFor c t i x (fun r => tryCatch (k r) h)
  | Fork c k => Fork c (tryCatch k h)
  end.

(** *** Execution in virtual time *)

(** The page as a function of time. *)
Definition World : Type := Z -> Dom.

Inductive Outcome : Type :=
| Fulfilled (at_time : Z)
| Rejected (at_time : Z) (msg : string)
| Pending.

Record Run : Type := mkRun {
  events : list (Z * Action);
  outcome : Outcome
}.

(** Two threads share nothing but the page, so the trace of a fork is the
    merge by time of both traces; at equal times the child, whose timers
    were set first, comes first. *)
Fixpoint merge (child parent : list (Z * Action)) : list (Z * Action) :=
  let fix into (parent : list (Z * Action)) : list (Z * Action) :=
    match child, parent with
    | [], _ => parent
    | _, [] => child
    | c :: child', p :: parent' =>
        if fst c <=? fst p then c :: merge child' parent
        else p :: into parent'
    end in
  into parent.

(** A timer fires exactly when due; [setTimeout] treats a negative delay
    as none. *)
Definition virtualTicks (w : World) (start interval : Z) : nat -> Z * Dom :=
  fun k => let t := start + Z.of_nat k * Z.max 0 interval in (t, w t).

(** Runs of [check] that can happen before the timeout has elapsed. *)
Definition pollBudget (timeout interval : Z) : nat :=
  S (S (Z.to_nat (timeout / Z.max 1 interval))).

Definition awaitCondition {R} (w : World) (conditionFn : Dom -> option R)
           (timeout interval : Z) (cancel : CancelConditions) (now : Z)
  : option (Z * option R) :=
  match waitForCondition conditionFn timeout cancel (virtualTicks w now interval) now
                         (pollBudget timeout interval) with
  | Some (k, r) => Some (fst (virtualTicks w now interval k), r)
  | None => None
  end.

Fixpoint eval (w : World) (now : Z) (p : Prog) : Run :=
  match p with
  | Done => mkRun [] (Fulfilled now)
  | Throw m => mkRun [] (Rejected now m)
  | Emit a k => let r := eval w now k in mkRun ((now, a) :: events r) (outcome r)
  | Read k => eval w now (k (w now))
  | Now k => eval w now (k now)
  | Sleep ms k => eval w (now + Z.max 0 ms) k
  | WaitFor c t i x k =>
      match awaitCondition w c t i x now with
      | Some (t', r) => eval w t' (k r)
      | None => mkRun [] Pending
      end
  | Fork c k =>
      let rc := eval w now c in
      let rk := eval w now k in
      mkRun (merge (events rc) (events rk)) (outcome rk)
  end.

(** The actions of a run, without their times. *)
Definition trace (w : World) (now : Z) (p : Prog) : list Action :=
  map snd (events (eval w now p)).

(* ===================================================================== *)
(** ** The action dispatcher *)
(* ===================================================================== *)

(** The helpers below run without suspension on one snapshot and return the
    actions they issue, in order.  The revision of the script with the
    [GameState] cascade is the one modelled. *)

Fixpoint emitAll (acts : list Action) (k : Prog) : Prog :=
  match acts with
  | [] => k
  | a :: acts' => Emit a (emitAll acts' k)
  end.

(** [click(element)]: nothing is sent for an element without dimensions.
    The red dot of [showClickAt] is a debugging aid and is left out. *)
Definition click (element : Element) : list Action :=
  let l := layout (attrs element) in
  if (rectWidth l =? 0) || (rectHeight l =? 0)
  then [Log "Click skipped: Element has no dimensions or is not on screen."]
  else [Log "Request click"; PerformClick (uid (attrs element)) "left"].

Definition hasImage (test : string -> bool) (el : Element) : bool :=
  existsb (fun img => test (src (attrs img))) (imgsOf el).

(** [clickElementByImage(/.*KEY.*\.png/)] *)
Definition clickElementByImage (d : Dom) (key : string) : list Action :=
  match find (fun el => hasImage (Js.testKeyPng key) el && negb (disabled (attrs el)))
             (documentQuery selTab0 d) with
  | Some clickableElement => click clickableElement
  | None => []
  end.

(** [clickElementByImageInElement(container, /.*KEY.*\.png/)] *)
Definition clickElementByImageInElement (d : Dom) (container : Element) (key : string)
  : list Action :=
  match find (fun img => Js.testKeyPng key (src (attrs img))) (imgsOf (deref d container)) with
  | Some imgElement =>
      match closest selTab0 imgElement with
      | Some clickableParent =>
          if negb (disabled (attrs clickableParent)) then click clickableParent else []
      | None => []
      end
  | None => []
  end.

(** The loop that keeps the first candidate of greatest depth, starting
    from [candidates[0]] with [maxDepth = 0]. *)
Fixpoint deepest (candidates : list Element) (best : Element) (maxDepth : nat) : Element :=
  match candidates with
  | [] => best
  | el :: rest =>
      if Nat.ltb maxDepth (depth el) then deepest rest el (depth el)
      else deepest rest best maxDepth
  end.

(** [clickInnermostElementByImage(imageNamePart)] *)
Definition clickInnermostElementByImage (d : Dom) (imageNamePart : string) : list Action :=
  match filter (fun el => hasImage (fun s => Js.includes s imageNamePart) el
                          && negb (disabled (attrs el)))
               (documentQuery selTab0 d) with
  | [] => []
  | first :: rest => click (deepest (first :: rest) first 0)
  end.

(** The depth of a descendant below [container]: the [parentElement] steps
    before the container is reached. *)
Definition depthBelow (container el : Element) : nat :=
  (length (ancestors el) - length (ancestors container) - 1)%nat.

(** The loop of [clickOutermostElement]; [minDepth] starts at [Infinity],
    here [None]. *)
Fixpoint outermost (container : Element) (candidates : list Element)
         (best : Element) (minDepth : option nat) : Element :=
  match candidates with
  | [] => best
  | el :: rest =>
      let dp := depthBelow container el in
      if (match minDepth with Some m => Nat.ltb dp m | None => true end)
      then outermost container rest el (Some dp)
      else outermost container rest best minDepth
  end.

(** [clickOutermostElement(container)] *)
Definition clickOutermostElement (d : Dom) (container : Element) : list Action :=
  let c := deref d container in
  match filter (fun el => negb (disabled (attrs el))) (querySelectorAll selTab0 c) with
  | [] => []
  | first :: rest => click (outermost c (first :: rest) first None)
  end.

(** [s.replace(pattern, '')] for a string pattern: the first occurrence is
    removed. *)
Fixpoint removeFirst (s pattern : string) : string :=
  if Js.startsWith s pattern then Js.dropN (String.length pattern) s
  else match s with
       | EmptyString => EmptyString
       | String c s' => String c (removeFirst s' pattern)
       end.

(** The [forEach] of [getMessages]: the spans that hold a colon, kept when
    their nearest [div] has the least area seen so far. *)
Fixpoint smallestContainers (spans : list Element) (minWidth : option Z)
         (messageElements : list (Element * string)) : list (Element * string) :=
  match spans with
  | [] => messageElements
  | span :: rest =>
      if Js.includes (elemText span) ":" then
        match closest (selTag "div") span with
        | Some containerDiv =>
            let containerSize :=
              rectWidth (layout (attrs containerDiv)) * rectHeight (layout (attrs containerDiv)) in
            if (match minWidth with Some m => containerSize <? m | None => true end) then
              smallestContainers rest (Some containerSize) [(containerDiv, elemText span)]
            else if (match minWidth with Some m => containerSize =? m | None => false end) then
              smallestContainers rest minWidth (messageElements ++ [(containerDiv, elemText span)])
            else smallestContainers rest minWidth messageElements
        | None => smallestContainers rest minWidth messageElements
        end
      else smallestContainers rest minWidth messageElements
  end.

(** [getMessages()] *)
Definition getMessages (d : Dom) : option (list string) :=
  match smallestContainers (documentQuery (selTag "span") d) None [] with
  | [] => None
  | found => Some (map (fun m => Js.trim (removeFirst (elemText (fst m)) (snd m))) found)
  end.

(** [messages?.flatMap(msg => msg.match(/\b\d{1,2}\b/g) || [])] *)
Definition mentionedNumbers (d : Dom) : option (list string) :=
  option_map (flat_map Js.digitTokens) (getMessages d).

(** [num == playerInfo.number] for a string [num]. *)
Definition sameNumber (num : string) (n : option string) : bool :=
  match n with Some s => String.eqb num s | None => false end.

(** The statements that type [value] into the chat box and press send;
    [valueSetter.call(null, ...)] throws when the page has no [textarea]. *)
Definition typeAndSend (d : Dom) (value : option string) (k : Prog) : Prog :=
  match documentQuery (selTag "textarea") d with
  | [] => Throw "TypeError"
  | chatInput :: _ =>
      Emit (SetValue (uid (attrs chatInput)) value)
      (Emit (DispatchEvent (uid (attrs chatInput)) "input")
      (Emit (DispatchEvent (uid (attrs chatInput)) "change")
      (emitAll (clickElementByImage d "icon_send") k)))
  end.

(* ===================================================================== *)
(** ** The specialized waits *)
(* ===================================================================== *)

Definition bodyDescendants (d : Dom) : list Element :=
  match documentAll d with
  | b :: _ => querySelectorAll selAny b
  | [] => []
  end.

(** [waitForTextInDOM(text, { timeout, interval, cancelText })] *)
Definition waitForTextInDOM (text : string) (timeout interval : Z)
           (cancelText : CancelConditions) (k : option Element -> Prog) : Prog :=
  WaitFor (fun d => find (fun el => Js.includes (elemText el) text && isVisible el)
                         (bodyDescendants d))
          timeout interval cancelText k.

(** [waitForExactText(text, { timeout, interval, cancelText })], for a
    [text] without syntax characters. *)
Definition waitForExactText (text : string) (literal : Js.isLiteralText text = true)
           (timeout interval : Z) (cancelText : CancelConditions)
           (k : option Element -> Prog) : Prog :=
  WaitFor (fun d => find (fun el => Js.testWordBounded text literal (elemText el) && isVisible el)
                         (bodyDescendants d))
          timeout interval cancelText k.
Arguments waitForExactText text literal timeout interval cancelText k : clear implicits.

(** [waitForImageInDOM(imageNamePart, { timeout, interval, cancelText })] *)
Definition waitForImageInDOM (imageNamePart : string) (timeout interval : Z)
           (cancelText : CancelConditions) (k : option Element -> Prog) : Prog :=
  WaitFor (fun d => find (fun img => Js.includes (src (attrs img)) imageNamePart && isVisible img)
                         (documentQuery (selTag "img") d))
          timeout interval cancelText k.

(** The loop of [waitForImageCountInDOM]: the length test runs after every
    image, matching or not. *)
Fixpoint collectImages (imageNamePart : string) (count : Z) (images foundImages : list Element)
  : option (list Element) :=
  match images with
  | [] => None
  | img :: rest =>
      let found := if Js.includes (src (attrs img)) imageNamePart && isVisible img
                   then foundImages ++ [img] else foundImages in
      if Z.of_nat (length found) >=? count then Some found
      else collectImages imageNamePart count rest found
  end.

(** [waitForImageCountInDOM(imageNamePart, count, { timeout, interval, cancelText })] *)
Definition waitForImageCountInDOM (imageNamePart : string) (count : Z) (timeout interval : Z)
           (cancelText : CancelConditions) (k : option (list Element) -> Prog) : Prog :=
  WaitFor (fun d => collectImages imageNamePart count (documentQuery (selTag "img") d) [])
          timeout interval cancelText k.

(* ===================================================================== *)
(** ** The role policy *)
(* ===================================================================== *)

Definition VOTE_MARKER_IMG : string := "vote_day_selected".

(** [coupleElements.includes(el)]; the padding [null]s equal no element. *)
Definition includesElement (l : list (option Element)) (el : Element) : bool :=
  existsb (fun x => match x with
                    | Some e => Nat.eqb (uid (attrs e)) (uid (attrs el))
                    | None => false
                    end) l.

(** The target of the shooter: voted for, no partner, not the player. *)
Definition shooterTarget (d : Dom) (playerInfo : PlayerInfo)
           (coupleElements : list (option Element)) (allPlayerElements : list Element)
  : option Element :=
  find (fun el => findImageInElement d el VOTE_MARKER_IMG
                  && negb (includesElement coupleElements el)
                  && negb (Js.includes (elemText (deref d el)) (name playerInfo)))
       allPlayerElements.

(** The distance of the threshold from 5, on which [shooterAction]
    recurses. *)
Definition retriesLeft (voteMarkersToFind : Z) : nat := Z.to_nat (5 - voteMarkersToFind).
Arguments retriesLeft : simpl never.

(** [shooterAction(playerInfo, coupleElements, allPlayerElements,
    voteMarkersToFind)] *)
Equations? shooterAction (playerInfo : PlayerInfo) (coupleElements : list (option Element))
          (allPlayerElements : list Element) (voteMarkersToFind : Z) : Prog
  by wf (retriesLeft voteMarkersToFind) lt :=
shooterAction playerInfo coupleElements allPlayerElements voteMarkersToFind
  with Z_gt_dec voteMarkersToFind 4 => {
  | left over =>
      Emit (LogCount "shooterAction: looking for vote marker(s)" voteMarkersToFind) Done
  | right within =>
      Emit (LogCount "shooterAction: looking for vote marker(s)" voteMarkersToFind)
      (waitForImageCountInDOM VOTE_MARKER_IMG voteMarkersToFind 90000 200 (CancelText "Continue")
        (fun _ => Read (fun d =>
         if gameIsOver d then Done else
         Emit (Log "Clicking bullet icon...")
         (emitAll (clickElementByImage d "gunner_bullet")
         (Sleep 200 (Read (fun d' =>
          match shooterTarget d' playerInfo coupleElements allPlayerElements with
          | Some target =>
              Emit (Log "Shooter found target:")
              (emitAll (clickElementByImageInElement d' target "gunner_voting_shoot") Done)
          | None =>
              Sleep 500
                (shooterAction playerInfo coupleElements allPlayerElements
                               (voteMarkersToFind + 1))
          end))))))) }.
Proof. unfold retriesLeft. lia. Qed.

(** The ability icons of the villager roles: [abilities[playerInfo.role]]. *)
Definition abilities (r : Role) : option (string * string) :=
  match r with
  | Priest => Some ("priest_holy_water", "priest_holy_water")
  | Shooter => Some ("gunner_bullet", "gunner_voting_shoot")
  | _ => None
  end.

(** [playerImages.some(imgSet => imgSet.some(img => img.includes('cupid')))] *)
Definition alreadyVotedForCouple (playerImages : list (list string)) : bool :=
  existsb (fun imgSet => existsb (fun img => Js.includes img "cupid") imgSet) playerImages.

Definition isWolfCoupled (playerInfo : PlayerInfo) : bool :=
  WOLF_ROLES (coupleRole1 playerInfo) || WOLF_ROLES (coupleRole2 playerInfo).

(** [inGameDay(playerInfo, coupleElements, playerImages, allPlayerElements)] *)
Definition inGameDay (playerInfo : PlayerInfo) (coupleElements : list (option Element))
           (playerImages : list (list string)) (allPlayerElements : list Element) : Prog :=
  Read (fun d =>
  if gameIsOver d then Done else
  Emit (Log "inGameDay()")
  (if negb (isWolfCoupled playerInfo) then
     if WOLF_ROLES (Some (role playerInfo)) then
       if (match mentionedNumbers d with
           | Some nums => existsb (fun num => sameNumber num (number playerInfo)) nums
           | None => false
           end)
       then Done
       else if gameIsOver d then Done
       else Emit (Log "Wolf sending number:")
            (typeAndSend d (number playerInfo) (Sleep 500 Done))
     else
       match abilities (role playerInfo) with
       | None => Done
       | Some (triggerKey, actionKey) =>
           waitForImageInDOM "vote_day_selected" 90000 200 (CancelText "Continue")
             (fun _ => Read (fun d1 =>
              if gameIsOver d1 then Done else
              Emit (Log "Role ability triggered:")
              (emitAll (clickElementByImage d1 triggerKey)
              (Sleep 200 (Read (fun d2 =>
               match find (fun p => findImageInElement d2 p "vote_day_selected")
                          allPlayerElements with
               | Some votedPlayer =>
                   emitAll (clickElementByImageInElement d2 votedPlayer actionKey) Done
               | None => Done
               end))))))
       end
   else
     andThen
       (if negb (alreadyVotedForCouple playerImages) then
          match at_ coupleElements (if WOLF_ROLES (coupleRole1 playerInfo) then 0 else 1)%nat with
          | Some targetLover =>
              Emit (Log "Voting couple:") (emitAll (clickOutermostElement d targetLover) Done)
          | None => Throw "TypeError"
          end
        else Done)
       (match role playerInfo with
        | Priest =>
            Emit (Log "Role ability triggered:")
            (emitAll (clickElementByImage d "priest_holy_water")
            (Fork (Sleep 200 (Read (fun d1 =>
                   match find (fun p => findImageInElement d1 p "priest_holy_water")
                              allPlayerElements with
                   | Some votedPlayer =>
                       emitAll (clickElementByImageInElement d1 votedPlayer "priest_holy_water")
                               Done
                   | None => Done
                   end)))
                  Done))
        | Shooter => shooterAction playerInfo coupleElements allPlayerElements 2
        | _ => Done
        end))).

(** A seat number inside a template string; [null] prints as ["null"]. *)
Definition showNumber (n : option string) : string :=
  match n with Some s => s | None => "null" end.

(** [sendMessageAndAct(message, targetElement)], a helper of [inGameNight]. *)
Definition sendMessageAndAct (playerInfo : PlayerInfo) (message : option string)
           (targetElement : option Element) : Prog :=
  Read (fun d =>
  if gameIsOver d then Done else
  Emit (Log "sendAction:")
  (typeAndSend d message
  (Sleep 500 (Read (fun d1 =>
   match targetElement with
   | Some target =>
       let isNotPriestCoupled :=
         negb (match coupleRole1 playerInfo with Some Priest => true | _ => false end)
         && negb (match coupleRole2 playerInfo with Some Priest => true | _ => false end) in
       if isNotPriestCoupled || Role_eqb (role playerInfo) JuniorWerewolf
       then emitAll (clickOutermostElement d1 target) Done
       else Done
   | None => Done
   end))))).

(** [parseInt(taggedNumber, 10)] for a token of one or two digits. *)
Fixpoint parseDigits (s : string) (acc : nat) : nat :=
  match s with
  | EmptyString => acc
  | String c s' => parseDigits s' (10 * acc + (N.to_nat (Js.code c) - 48))%nat
  end.

(** The callback that [handleWolfTagging] schedules after 200 ms. *)
Definition tagTeammateTarget (playerInfo : PlayerInfo) (allPlayerElements : list Element)
           (markerKey : string) : Prog :=
  Read (fun d =>
  let nonLoverNumbers :=
    [number playerInfo; coupleNumber1 playerInfo; coupleNumber2 playerInfo] in
  match option_map (filter (fun num => negb (existsb (sameNumber num) nonLoverNumbers)))
                   (mentionedNumbers d) with
  | Some (taggedNumber :: _) =>
      Emit (Log "Target number chosen:")
      (match parseDigits taggedNumber 0 with
       | O => Throw "TypeError"
       | S index =>
           match nth_error allPlayerElements index with
           | None => Throw "TypeError"
           | Some targetPlayerElement =>
               match find (fun img => Js.testKeyPng markerKey (src (attrs img)))
                          (imgsOf (deref d targetPlayerElement)) with
               | Some targetImage =>
                   match closest selTab0Enabled targetImage with
                   | Some clickableButton => emitAll (click clickableButton) Done
                   | None => Done
                   end
               | None => Done
               end
           end
       end)
  | _ => Done
  end).

Definition bothPartnersWolvesOrSolo (playerInfo : PlayerInfo) : bool :=
  (WOLF_ROLES (coupleRole1 playerInfo) && WOLF_ROLES (coupleRole2 playerInfo))
  || (WOLF_ROLES (coupleRole1 playerInfo)
      && match coupleRole2 playerInfo with None => true | Some _ => false end).

(** [handleWolfTagging(selectionMarkerRegex)], a helper of [inGameNight]. *)
Definition handleWolfTagging (playerInfo : PlayerInfo) (coupleElements : list (option Element))
           (allPlayerElements : list Element) (markerKey : string) : Prog :=
  Read (fun d =>
  if bothPartnersWolvesOrSolo playerInfo then Done else
  if gameIsOver d then Done else
  Emit (Log "handleWolfTag() triggered for:")
  (waitForTextInDOM "25s" 30000 200 (CancelText "Continue") (fun _ => Read (fun d1 =>
   if gameIsOver d1 || findTextInDocument d1 "Voting" then Done else
   let isPartnerAWolf := negb (WOLF_ROLES (coupleRole1 playerInfo)) in
   let message :=
     ("Who? Mine " ++ showNumber (if isPartnerAWolf then coupleNumber1 playerInfo
                                  else coupleNumber2 playerInfo))%string in
   let targetElement := at_ coupleElements (if isPartnerAWolf then 0 else 1)%nat in
   Fork (sendMessageAndAct playerInfo (Some message) targetElement)
   (waitForExactText "5s" eq_refl 30000 200 (CancelText "Continue") (fun _ => Read (fun d2 =>
    if gameIsOver d2 || findTextInDocument d2 "Voting" then Done else
    emitAll (clickElementByImage d2 markerKey)
    (Fork (Sleep 200 (tagTeammateTarget playerInfo allPlayerElements markerKey))
    (waitForTextInDOM "Voting" 30000 200 (CancelText "Continue") (fun _ => Done)))))))))).

(** The role icon of a roster entry as the wolf's loop reads it: the last
    image that is no vote marker and no hand skin, cut after its last
    slash; [''] when there is none. *)
Fixpoint lastRoleImage (reversedSrcs : list string) : string :=
  match reversedSrcs with
  | [] => ""
  | s :: before =>
      if Js.includes s "vote_day" || Js.includes s "vote_werewolves" || Js.includes s "hand-skin"
      then lastRoleImage before
      else Js.afterLastSlash s
  end.

(** The [for] loop of the wolf over the roster: the partner is clicked again
    for every Junior Werewolf entry that shows a wolf-vote marker.
    [clickOutermostElement(null)] throws. *)
Fixpoint guardJuniorWerewolf (d : Dom) (isPriestCoupled : bool)
         (partnerElement : option Element) (players : list Element) (k : Prog) : Prog :=
  match players with
  | [] => k
  | playerElement :: rest =>
      let images := map (fun img => src (attrs img)) (imgsOf (deref d playerElement)) in
      let roleImage := lastRoleImage (List.rev images) in
      let next := guardJuniorWerewolf d isPriestCoupled partnerElement rest k in
      if Js.truthy roleImage && Role_eqb (getPlayerRole (Some roleImage)) JuniorWerewolf
         && existsb (fun s => Js.includes s "vote_werewolves_voter") images
         && negb isPriestCoupled
      then match partnerElement with
           | Some partner => emitAll (clickOutermostElement d partner) next
           | None => Throw "TypeError"
           end
      else next
  end.

(** [inGameNight(playerInfo, coupleElements, allPlayerElements)] *)
Definition inGameNight (playerInfo : PlayerInfo) (coupleElements : list (option Element))
           (allPlayerElements : list Element) : Prog :=
  Read (fun d =>
  if gameIsOver d then Done else
  Emit (Log "inGameNight()")
  (match role playerInfo with
   | Wolf =>
       waitForTextInDOM "25s" 30000 200 (CancelText "Continue") (fun _ => Read (fun d1 =>
       if gameIsOver d1 || findTextInDocument d1 "Voting" then Done else
       if bothPartnersWolvesOrSolo playerInfo then Done else
       let isPriestCoupled :=
         match coupleRole1 playerInfo, coupleRole2 playerInfo with
         | Some Priest, _ | _, Some Priest => true
         | _, _ => false
         end in
       let isPartnerAWolf := negb (WOLF_ROLES (coupleRole1 playerInfo)) in
       let partnerNumber := if isPartnerAWolf then coupleNumber1 playerInfo
                            else coupleNumber2 playerInfo in
       let partnerElement := at_ coupleElements (if isPartnerAWolf then 0 else 1)%nat in
       Fork (sendMessageAndAct playerInfo
               (if isPriestCoupled then Some (showNumber partnerNumber ++ " priest")%string
                else partnerNumber)
               partnerElement)
       (waitForExactText "5s" eq_refl 30000 200 (CancelText "Continue") (fun _ => Read (fun d2 =>
        if gameIsOver d2 || findTextInDocument d2 "Voting" then Done else
        guardJuniorWerewolf d2 isPriestCoupled partnerElement allPlayerElements
          (waitForTextInDOM "Voting" 30000 200 (CancelText "Continue") (fun _ => Done)))))))
   | JuniorWerewolf =>
       handleWolfTagging playerInfo coupleElements allPlayerElements
                         "junior_werewolf_selection_marker"
   | SplitWolf =>
       handleWolfTagging playerInfo coupleElements allPlayerElements "splitwolf_bind"
   | _ => Done
   end)).

(** [inGame(myName)]: the extraction, then the handler of the phase. *)
Definition inGame (myName : string) : Prog :=
  Read (fun d =>
  let playerInfo := playerInfoOf d myName in
  Emit (Log "Player object:")
  (Emit (Log "Detected phase:")
  (if isDay d then
     inGameDay playerInfo (coupleElements d myName) (myImageSets d myName) (allPlayerElements d)
   else if isNight d then
     inGameNight playerInfo (coupleElements d myName) (allPlayerElements d)
   else Done))).

(* ===================================================================== *)
(** ** The phase state machine and the main loop *)
(* ===================================================================== *)

Inductive GameState : Type :=
| UNKNOWN | LOBBY | ROLE_SELECTION | IN_GAME | POST_GAME | CUSTOM | HOME_SCREEN | GAME_SCREEN.

(** [determineGameState()] *)
Definition determineGameState (d : Dom) : GameState :=
  let pageText := innerText d in
  if Js.includes pageText "Continue" then POST_GAME
  else if (Js.includes pageText "Welcome to the werewolves chat." || Js.includes pageText "Voting")
          && negb (gameIsOver d) then IN_GAME
  else if Js.includes pageText "SELECT A ROLE" || Js.includes pageText "Team: You belong to"
       then ROLE_SELECTION
  else if Js.includes pageText "CREATE GAME" then CUSTOM
  else if Js.includes pageText "CUSTOM GAME" then GAME_SCREEN
  else if Js.includes pageText "INVENTORY" then HOME_SCREEN
  else if Js.includes pageText "START GAME" && Js.includes pageText "INVITE" then LOBBY
  else UNKNOWN.

(** [handleLobbyState()]; the start button it looks up afterwards is not
    used. *)
Definition handleLobbyState : Prog :=
  Read (fun d =>
  match find (fun el => Js.includes (elemText el) "MORE PLAYERS REQUIRED")
             (documentQuery selTab0 d) with
  | Some _ =>
      Emit (Log "'MORE PLAYERS REQUIRED' button found. Refreshing page to find a new lobby.")
      (Emit Reload Done)
  | None => Done
  end).

(** [handleRoleSelectionState()] *)
Definition handleRoleSelectionState : Prog :=
  Read (fun d =>
  if findImageInDocument d "instigator"
  then emitAll (clickInnermostElementByImage d "cupid") Done
  else Done).

Definition LOBBY_TIMEOUT : Z := 2 * 60 * 1000.

Section MainLoop.

(** The handlers of the menus and of the post-game screens, on which the
    lobby logic does not depend. *)
Variables playAgain customLobby handleHomeScreen handleGameScreen : Prog.

(** The [switch] of [main]. *)
Definition dispatch (myName : string) (currentState : GameState) : Prog :=
  match currentState with
  | LOBBY => handleLobbyState
  | ROLE_SELECTION => handleRoleSelectionState
  | IN_GAME => inGame myName
  | POST_GAME => playAgain
  | CUSTOM => customLobby
  | HOME_SCREEN => handleHomeScreen
  | GAME_SCREEN => handleGameScreen
  | UNKNOWN => Done
  end.

(** [main(myName)], with the module variable [lobbyEntryTimestamp] passed
    in and out: one call, made at time [now] on the page [d], returns the
    new value of the variable and the rest of what the call does. *)
Definition main (myName : string) (lobbyEntryTimestamp : option Z) (now : Z) (d : Dom)
  : option Z * Prog :=
  let currentState := determineGameState d in
  let logged := Emit (Log "State check:") in
  match currentState with
  | LOBBY =>
      match lobbyEntryTimestamp with
      | None =>
          (Some now,
           logged (Emit (Log "Entered LOBBY state. Starting 2-minute timeout.")
                        (dispatch myName currentState)))
      | Some entered =>
          let timeInLobby := now - entered in
          if timeInLobby >? LOBBY_TIMEOUT then
            (lobbyEntryTimestamp,
             logged (Emit (Log "Stuck in LOBBY state. Reloading page.") (Emit Reload Done)))
          else (lobbyEntryTimestamp, logged (dispatch myName currentState))
      end
  | _ =>
      (None,
       logged (match lobbyEntryTimestamp with
               | Some entered =>
                   if entered =? 0 then dispatch myName currentState
                   else Emit (Log "Exited LOBBY state. Resetting timeout.")
                             (dispatch myName currentState)
               | None => dispatch myName currentState
               end))
  end.

(** The [loop] of [startBot], unrolled for a number of cycles while the bot
    keeps running: every cycle awaits [main], logs what it throws and
    schedules the next cycle 1500 ms later. *)
Fixpoint loop (cycles : nat) (myName : string) (lobbyEntryTimestamp : option Z) : Prog :=
  match cycles with
  | O => Done
  | S cycles' =>
      Read (fun d => Now (fun now =>
      let step := main myName lobbyEntryTimestamp now d in
      andThen (tryCatch (snd step) (fun _ => Emit (Log "main() error:") Done))
              (Sleep 1500 (loop cycles' myName (fst step)))))
  end.



End MainLoop.

(* ===================================================================== *)
(** ** The post-game handler *)
(* ===================================================================== *)

(** [clickAndVerifyDisappear(verifyDisappearText, findElementFn, retries)]:
    the body of the [for] loop with [retries - i] rounds left. *)
Fixpoint clickAndVerifyDisappear (verifyDisappearText : string)
         (findElementFn : Dom -> option Element) (retries : nat) : Prog :=
  match retries with
  | O => Done
  | S retries' =>
      Read (fun d =>
      if negb (findTextInDocument d verifyDisappearText) then Done else
      match findElementFn d with
      | None => Sleep 200 (clickAndVerifyDisappear verifyDisappearText findElementFn retries')
      | Some elementToClick =>
          emitAll (click elementToClick)
          (WaitFor (fun d' => if negb (findTextInDocument d' verifyDisappearText)
                              then Some tt else None)
                   1500 50 CancelNone
                   (fun disappeared =>
                      match disappeared with
                      | Some _ => Done
                      | None => clickAndVerifyDisappear verifyDisappearText findElementFn retries'
                      end))
      end)
  end.

(** [findButtonFn] of [robustClickAndVerify]: the first of the deepest
    visible [[tabindex="0"]] elements whose text contains [buttonText]. *)
Definition findButtonFn (buttonText : string) (d : Dom) : option Element :=
  match filter (fun el => Js.includes (elemText el) buttonText && isVisible el)
               (documentQuery selTab0 d) with
  | [] => None
  | first :: rest => Some (deepest (first :: rest) first 0)
  end.

(** The [for] loop of [robustClickAndVerify] with [attempts] rounds left;
    [k] receives the value that the function returns. *)
Fixpoint clickUntilGone (buttonText : string) (attempts : nat) (k : bool -> Prog) : Prog :=
  match attempts with
  | O => Emit (Log "Failed to verify click after 3 attempts.") (k false)
  | S attempts' =>
      Read (fun d =>
      match findButtonFn buttonText d with
      | None => Emit (Log "Button disappeared before click attempt. Success.") (k true)
      | Some freshButton =>
          emitAll (click freshButton)
          (WaitFor (fun d' => match findButtonFn buttonText d' with
                              | None => Some tt
                              | Some _ => None
                              end)
                   2000 100 CancelNone
                   (fun disappeared =>
                      match disappeared with
                      | Some _ => Emit (Log "Successfully clicked and it disappeared.") (k true)
                      | None =>
                          Emit (Log "Clicked but it didn't disappear. Retrying...")
                          (Sleep 500 (clickUntilGone buttonText attempts' k))
                      end))
      end)
  end.

(** [robustClickAndVerify(buttonText, { cancelText, timeout, preClickDelay })] *)
Definition robustClickAndVerify (buttonText : string) (cancelText : CancelConditions)
           (timeout preClickDelay : Z) (k : bool -> Prog) : Prog :=
  Emit (Log "Attempting robust click for:")
  (WaitFor (findButtonFn buttonText) timeout 200 cancelText
     (fun button =>
        match button with
        | None => Emit (Log "Button not found or wait was cancelled.") (k false)
        | Some _ =>
            if preClickDelay >? 0
            then Emit (Log "Found button, waiting before clicking.")
                      (Sleep preClickDelay (clickUntilGone buttonText 5 k))
            else clickUntilGone buttonText 5 k
        end)).

Section PostGame.

(** [el.getBoundingClientRect().top], which [Layout] does not record. *)
Variable rectTop : Element -> Z.

(** [el.parentElement?.querySelectorAll('[tabindex="0"]')]; the parent of
    the body is the root element. *)
Definition parentQuery (d : Dom) (el : Element) : list Element :=
  match ancestors el with
  | (a, ks) :: up => querySelectorAll selTab0 (mkElement a ks up)
  | [] => documentQuery selTab0 d
  end.

(** [findOkButton] of [playAgain]: an [OK] control below the top of the
    page that has a visible [Cancel] control next to it. *)
Definition findOkButton (d : Dom) : option Element :=
  find (fun el =>
          if negb (Js.includes (elemText el) "OK") || negb (isVisible el) || (rectTop el <=? 100)
          then false
          else existsb (fun sibling =>
                          negb (Nat.eqb (uid (attrs sibling)) (uid (attrs el)))
                          && Js.includes (elemText sibling) "Cancel"
                          && isVisible sibling)
                       (parentQuery d el))
       (documentQuery selTab0 d).

(** [playAgain()] *)
Definition playAgain : Prog :=
  Read (fun d =>
  if findTextInDocument d "Waiting for players" then Done else
  robustClickAndVerify "Continue" (CancelTexts ["START GAME"; "Play again"]) 10000 200
    (fun _ =>
  robustClickAndVerify "Play again" (CancelText "INVENTORY") 120000 200
    (fun playAgainSuccess =>
  if negb playAgainSuccess then
    Emit (Log "'Play again' button flow failed after 120s timeout. Refreshing page.")
         (Emit Reload Done)
  else
    WaitFor findOkButton 3000 200 CancelNone
      (fun okButton =>
         match okButton with
         | Some ok =>
             Emit (Log "Found 'OK' button in leave confirmation, clicking it.")
                  (emitAll (click ok) Done)
         | None => Done
         end)))).

End PostGame.

(* ===================================================================== *)
(** ** Starting and stopping the bot *)
(* ===================================================================== *)

(** [startBot], [stopBot] and the [finally] block of [loop] share the
    module variables [BOT_RUNNING], [ACTIVE_NAME] and [loopHandle].  The
    calls of [main] take time, so a start or a stop can come while one is
    under way; the state below keeps the calls of [main] that have not
    settled and the timers that have not fired, each with the [name] that
    its [loop] closure holds. *)
Module Controller.

Record Bot : Type := mkBot {
  BOT_RUNNING : bool;
  ACTIVE_NAME : string;
  loopHandle : option nat;        (* the id of the timer set last; [null] at first *)
  timers : list (nat * string);   (* the timers that are due to call [loop] *)
  underWay : list string;         (* the calls of [main] that have not settled *)
  nextTimer : nat                 (* the id that the next [setTimeout] returns *)
}.

(** The state when the content script has been loaded; timer ids are
    positive. *)
Definition loaded : Bot := mkBot false "" None [] [] 1.

(** [loop()]: the call of [main(name)] begins. *)
Definition loop (name : string) (b : Bot) : Bot :=
  mkBot (BOT_RUNNING b) (ACTIVE_NAME b) (loopHandle b) (timers b) (underWay b ++ [name])
        (nextTimer b).

(** [startBot(name)] *)
Definition startBot (name : string) (b : Bot) : Bot :=
  if BOT_RUNNING b then b
  else loop name (mkBot true name (loopHandle b) (timers b) (underWay b) (nextTimer b)).

(** [clearTimeout(id)] *)
Definition clearTimeout (id : nat) (l : list (nat * string)) : list (nat * string) :=
  filter (fun timer => negb (Nat.eqb (fst timer) id)) l.

(** [stopBot()] *)
Definition stopBot (b : Bot) : Bot :=
  if negb (BOT_RUNNING b) then b
  else mkBot false (ACTIVE_NAME b) (loopHandle b)
             (match loopHandle b with
              | Some id => clearTimeout id (timers b)
              | None => timers b
              end)
             (underWay b) (nextTimer b).

Fixpoint removeAt {A} (i : nat) (l : list A) : list A :=
  match i, l with
  | _, [] => []
  | O, _ :: rest => rest
  | S i', a :: rest => a :: removeAt i' rest
  end.

(** The call of [main] at position [i] settles, by returning or by
    throwing, and the [finally] block of its [loop] runs. *)
Definition settle (i : nat) (b : Bot) : Bot :=
  match nth_error (underWay b) i with
  | None => b
  | Some name =>
      if BOT_RUNNING b then
        mkBot true (ACTIVE_NAME b) (Some (nextTimer b)) (timers b ++ [(nextTimer b, name)])
              (removeAt i (underWay b)) (S (nextTimer b))
      else
        mkBot false (ACTIVE_NAME b) (loopHandle b) (timers b) (removeAt i (underWay b))
              (nextTimer b)
  end.

(** The timer [id] fires and calls [loop]. *)
Definition fire (id : nat) (b : Bot) : Bot :=
  match find (fun timer => Nat.eqb (fst timer) id) (timers b) with
  | None => b
  | Some (_, name) =>
      loop name (mkBot (BOT_RUNNING b) (ACTIVE_NAME b) (loopHandle b)
                       (clearTimeout id (timers b)) (underWay b) (nextTimer b))
  end.

(** The [onMessage] listener of the content script. *)
Definition onMessage (action : string) (enabled : bool) (name : string) (b : Bot) : Bot :=
  if negb (String.eqb action "toggleBot") then b
  else if enabled then startBot name b else stopBot b.

Inductive Event : Type :=
| Message (action : string) (enabled : bool) (name : string)
| Settles (i : nat)
| Fires (id : nat).

Definition step (b : Bot) (e : Event) : Bot :=
  match e with
  | Message action enabled name => onMessage action enabled name b
  | Settles i => settle i b
  | Fires id => fire id b
  end.

(** The loops that are alive: the calls of [main] under way and the timers
    that will call [loop]. *)
Definition alive (b : Bot) : nat := (length (underWay b) + length (timers b))%nat.

(** No call of [main] is under way whenever a message that stops the bot
    arrives. *)
Fixpoint stopsAtRest (b : Bot) (events : list Event) : Prop :=
  match events with
  | [] => True
  | e :: rest =>
      match e with
      | Message action false _ =>
          String.eqb action "toggleBot" = true -> BOT_RUNNING b = true -> underWay b = []
      | _ => True
      end
      /\ stopsAtRest (step b e) rest
  end.

End Controller.

(* ===================================================================== *)
(** ** The background script: clicks through the debugger *)
(* ===================================================================== *)

(** The content script's [click] sends a [performClick] message; the
    background script turns it into three mouse events of the Chrome
    debugger protocol.  The browser is a parameter: it answers every API
    call, given the calls made before, by fulfilling the promise or by
    rejecting it with a message.  One message is handled at a time; the
    [console] lines are left out. *)
Module Background.

(** What an asynchronous function ends with. *)
Inductive Result (A : Type) : Type :=
| Returned (value : A)
| Thrown (message : string).
Arguments Returned {A} value.
Arguments Thrown {A} message.

Section Debugger.

(** The coordinates [x] and [y], which are passed on as they come. *)
Variable Coord : Type.

(** The parameters of [Input.dispatchMouseEvent]. *)
Record MouseEvent : Type := mkMouseEvent {
  evType : string;
  evButton : string;
  evX : Coord;
  evY : Coord;
  evClickCount : nat
}.

Inductive ApiCall : Type :=
| TabsQuery                                      (* chrome.tabs.query({ url: ... }) *)
| Detach (tabId : nat)                           (* chrome.debugger.detach({ tabId }) *)
| Attach (tabId : nat) (requiredVersion : string)  (* chrome.debugger.attach *)
| SendCommand (target : option nat) (method : string) (params : MouseEvent).

Record Browser : Type := mkBrowser {
  (** the ids of the tabs that [chrome.tabs.query] lists *)
  tabs : list ApiCall -> list nat;
  (** [None] when the promise of the call is fulfilled, the message of the
      error when it is rejected *)
  rejects : list ApiCall -> ApiCall -> option string
}.

(** The module variable [attachedTarget], [{ tabId }] or [null], and the
    API calls made so far. *)
Record State : Type := mkState {
  attachedTarget : option nat;
  calls : list ApiCall
}.

Definition M (A : Type) : Type := State -> Result A * State.

Definition ret {A} (a : A) : M A := fun s => (Returned a, s).

Definition bind {A B} (m : M A) (f : A -> M B) : M B := fun s =>
  match m s with
  | (Returned a, s') => f a s'
  | (Thrown e, s') => (Thrown e, s')
  end.

Definition throw {A} (e : string) : M A := fun s => (Thrown e, s).

(** [try { await m } catch (e) { h(e) }] *)
Definition catch {A} (m : M A) (h : string -> M A) : M A := fun s =>
  match m s with
  | (Returned a, s') => (Returned a, s')
  | (Thrown e, s') => h e s'
  end.

Definition setAttachedTarget (t : option nat) : M unit := fun s =>
  (Returned tt, mkState t (calls s)).

Definition getAttachedTarget : M (option nat) := fun s => (Returned (attachedTarget s), s).

Variable chrome : Browser.

(** [await] of one API call. *)
Definition await (c : ApiCall) : M unit := fun s =>
  let s' := mkState (attachedTarget s) (calls s ++ [c]) in
  match rejects chrome (calls s) c with
  | None => (Returned tt, s')
  | Some e => (Thrown e, s')
  end.

(** [ensureDebuggerAttached(tabId)] *)
Definition ensureDebuggerAttached (tabId : nat) : M unit :=
  bind getAttachedTarget (fun target =>
  if (match target with Some t => Nat.eqb t tabId | None => false end) then ret tt
  else
    bind (match target with
          | Some previous =>
              bind (catch (await (Detach previous)) (fun _ => ret tt))
                   (fun _ => setAttachedTarget None)
          | None => ret tt
          end) (fun _ =>
    catch (bind (await (Attach tabId "1.2")) (fun _ => setAttachedTarget (Some tabId)))
          (fun e => bind (setAttachedTarget None) (fun _ => throw e)))).

(** The three events of one click. *)
Definition mouseEvents (x y : Coord) (button : string) : list MouseEvent :=
  [ mkMouseEvent "mouseMoved" button x y 0;
    mkMouseEvent "mousePressed" button x y 1;
    mkMouseEvent "mouseReleased" button x y 1 ].

Definition sendCommand (params : MouseEvent) : M unit :=
  bind getAttachedTarget (fun target =>
  await (SendCommand target "Input.dispatchMouseEvent" params)).

Fixpoint sendAll (events : list MouseEvent) : M unit :=
  match events with
  | [] => ret tt
  | e :: rest => bind (sendCommand e) (fun _ => sendAll rest)
  end.

(** [performClick(x, y, button)] *)
Definition performClick (x y : Coord) (button : string) : M unit :=
  bind (await TabsQuery) (fun _ => fun s =>
  match tabs chrome (calls s) with
  | [] => throw "No Wolvesville tab found" s
  | tab :: _ =>
      bind (ensureDebuggerAttached tab) (fun _ => sendAll (mouseEvents x y button)) s
  end).

(** A message to the background script; [button] may be missing. *)
Record Message : Type := mkMessage {
  action : string;
  msgX : Coord;
  msgY : Coord;
  msgButton : option string
}.

Inductive Response : Type :=
| Ok                       (* { ok: true } *)
| Failed (error : string). (* { ok: false, error } *)

(** The [onMessage] listener with what it passes to [sendResponse], if
    anything. *)
Definition onMessage (message : Message) (s : State) : option Response * State :=
  if negb (String.eqb (action message) "performClick") then (None, s)
  else
    match performClick (msgX message) (msgY message)
                       (match msgButton message with Some b => b | None => "left" end) s with
    | (Returned _, s') => (Some Ok, s')
    | (Thrown e, s') => (Some (Failed e), s')
    end.

End Debugger.

End Background.

(* ===================================================================== *)
(** ** The popup: the session timer *)
(* ===================================================================== *)

Module Popup.

(** [num.toString()] for an integer. *)
Definition toString (num : Z) : string := NilZero.string_of_int (Z.to_int num).

(** [s.padStart(targetLength, '0')] *)
Definition padStart (targetLength : nat) (s : string) : string :=
  (string_of_list_ascii (repeat "0"%char (targetLength - String.length s)) ++ s)%string.

(** [padZero(num)] *)
Definition padZero (num : Z) : string := padStart 2 (toString num).

(** The numbers of the script are doubles.  A duration is modelled when it
    is a whole number of milliseconds, not negative and a safe integer:
    every quotient below is then rounded by less than its distance to the
    next integer (the quotient by 1000 by at most 1/1024), so that
    [Math.floor] gives the floor of the exact quotient, and the remainders
    are exact. *)
Definition MAX_SAFE_INTEGER : Z := 2 ^ 53 - 1.

Definition isDuration (ms : Z) : bool := (0 <=? ms) && (ms <=? MAX_SAFE_INTEGER).

(** [formatDuration(ms)]; [%] is the remainder that takes the sign of the
    dividend.  Other values of [ms] are kept out by the argument
    [duration]. *)
Definition formatDuration (ms : Z) (duration : isDuration ms = true) : string :=
  let totalSeconds := ms / 1000 in
  let hours := totalSeconds / 3600 in
  let minutes := Z.rem totalSeconds 3600 / 60 in
  let seconds := Z.rem totalSeconds 60 in
  (padZero hours ++ ":" ++ padZero minutes ++ ":" ++ padZero seconds)%string.
Arguments formatDuration ms duration : clear implicits.

End Popup.

(* ===================================================================== *)
(** * Properties *)
(* ===================================================================== *)

(** ** The vocabulary of the statements *)

(** The [k]-th paired roster entry that is not the player's own. *)
Definition partner (d : Dom) (myName : string) (k : nat) : option Element :=
  nth_error (filter (notMe myName) (loverElements d)) k.

(** The role icon of a roster entry: its last image filename that is no
    decoration. *)
Definition roleImageOf (e : Element) : option string :=
  skipDecorations (List.rev (map (fun img => Js.afterLastSlash (src (attrs img))) (imgsOf e))).

Definition coupleNumber (info : PlayerInfo) (k : nat) : option string :=
  match k with O => coupleNumber1 info | _ => coupleNumber2 info end.

Definition coupleRole (info : PlayerInfo) (k : nat) : option Role :=
  match k with O => coupleRole1 info | _ => coupleRole2 info end.

(** The texts whose presence in the page text ends the game for
    [gameIsOver]. *)
Definition gameOverTexts : list string :=
  ["Continue"; "Play again"; "Victory"; "Defeat"; "Draw"].

(** The day phase: the main loop classifies the page as a game in progress
    and the timer label is a day label. *)
Definition dayPhase (d : Dom) : Prop :=
  determineGameState d = IN_GAME /\ isDay d = true.

(** The row [inGameDay] votes on: the first partner's when that partner
    is a wolf, the second partner's otherwise. *)
Definition dayVoteSlot (playerInfo : PlayerInfo) : nat :=
  if WOLF_ROLES (coupleRole1 playerInfo) then 0%nat else 1%nat.

(** The chat transcript holds a token of one or two digits that equals the
    player's own seat number. *)
Definition ownNumberMentioned (d : Dom) (playerInfo : PlayerInfo) : Prop :=
  exists messages msg token,
    getMessages d = Some messages /\ In msg messages
    /\ In token (Js.digitTokens msg) /\ number playerInfo = Some token.

(** The thresholds that the invocations of [shooterAction] log. *)
Definition thresholds (acts : list Action) : list Z :=
  flat_map (fun a => match a with LogCount _ n => [n] | _ => [] end) acts.

Definition thresholdsOf (r : Run) : list Z := thresholds (map snd (events r)).

(** [n], [n + 1], ... : [j] thresholds in all. *)
Fixpoint countUp (n : Z) (j : nat) : list Z :=
  match j with
  | O => []
  | S j' => n :: countUp (n + 1) j'
  end.





(** ** Pages to run the script on *)

Module Page.

Definition box (w h : Z) : Layout := mkLayout true w h "visible" "block" 1 w h.

Definition plain (id : nat) (t : string) : Attrs :=
  mkAttrs id t "" None false false "" (box 100 20).

(** A roster row: a column container. *)
Definition row (id : nat) (children : list Node) : Node :=
  Elem (mkAttrs id "div" "display: flex; flex-direction: column" None false false ""
                (box 100 20)) children.

(** A clickable control. *)
Definition control (id : nat) (children : list Node) : Node :=
  Elem (mkAttrs id "div" "" (Some "0") false false "" (box 100 20)) children.

Definition img (id : nat) (source : string) : Node :=
  Elem (mkAttrs id "img" "" None false false source (box 16 16)) [].

Definition div (id : nat) (children : list Node) : Node := Elem (plain id "div") children.
Definition span (id : nat) (children : list Node) : Node := Elem (plain id "span") children.
Definition textarea (id : nat) : Node := Elem (plain id "textarea") [].

Definition page (children : list Node) (rendered : string) : Dom :=
  mkDom (Elem (plain 0 "body") children) rendered.

End Page.

(** A roster of three: Alice, the player; Bob, a partner whose only icon is
    the pairing sticker; Carol, a partner with a wolf icon under a vote
    marker. *)
Definition rosterOfThree : Dom :=
  Page.page
    [ Page.row 1 [Text "1 Alice"; Page.img 2 "https://cdn.example/roles/priest.png"];
      Page.row 3 [Text "2 Bob";
                  Page.img 4 "https://cdn.example/cupid_select_lovers_sticker_small.png"];
      Page.row 5 [Text "3 Carol";
                  Page.img 6 "https://cdn.example/cupid_select_lovers_sticker_small.png";
                  Page.img 7 "https://cdn.example/roles/werewolf.png";
                  Page.img 8 "https://cdn.example/vote_day_selected.png"] ]
    "".

(** A page that shows the end of a game, polled every 200 ms. *)
Definition gameOverPage : Dom :=
  Page.page [Page.div 1 [Text "Victory! Continue"]] "Victory! Continue".

Definition every200 (d : Dom) : nat -> Z * Dom := fun k => (Z.of_nat k * 200, d).

(** The page of a day vote: Alice, the player, is paired with Bob, a wolf,
    and with Carol, a priest; every row holds one clickable control. *)
Definition coupledPage : Dom :=
  Page.page
    [ Page.row 1 [Page.control 2 [Text "1 Alice"]];
      Page.row 10 [Page.control 11
                     [Text "2 Bob";
                      Page.img 12 "https://cdn.example/cupid_select_lovers_sticker_small.png";
                      Page.img 13 "https://cdn.example/roles/werewolf.png"]];
      Page.row 20 [Page.control 21
                     [Text "3 Carol";
                      Page.img 22 "https://cdn.example/cupid_select_lovers_sticker_small.png";
                      Page.img 23 "https://cdn.example/roles/priest.png"]];
      Page.div 30 [Text "Voting 25s"] ]
    "Voting".

(** The page of a wolf that is paired with a priest, with a chat box and a
    send button; the chat holds one message, whose text is given. *)
Definition wolfPage (chat : string) : Dom :=
  Page.page
    [ Page.row 1 [Page.control 2
                    [Text "1 Alice";
                     Page.img 3 "https://cdn.example/cupid_select_lovers_sticker_small.png";
                     Page.img 4 "https://cdn.example/roles/werewolf.png"]];
      Page.row 10 [Page.control 11
                     [Text "2 Bob";
                      Page.img 12 "https://cdn.example/cupid_select_lovers_sticker_small.png";
                      Page.img 13 "https://cdn.example/roles/priest.png"]];
      Page.div 30 [Text "Discussion 40s"];
      Page.div 40 [Page.span 41 [Text "Bob:"]; Text chat];
      Page.textarea 50;
      Page.control 60 [Page.img 61 "https://cdn.example/icon_send.png"] ]
    "Welcome to the werewolves chat. Discussion 40s".

(** The night of a wolf that is paired with a priest: the timer shows 25
    seconds, then 5 seconds, and after 25 seconds of virtual time the day
    vote begins. *)
Definition nightPage (timer : string) : Dom :=
  Page.page
    [ Page.row 1 [Page.control 2
                    [Text "1 Alice";
                     Page.img 3 "https://cdn.example/cupid_select_lovers_sticker_small.png";
                     Page.img 4 "https://cdn.example/roles/werewolf.png"]];
      Page.row 10 [Page.control 11
                     [Text "2 Bob";
                      Page.img 12 "https://cdn.example/cupid_select_lovers_sticker_small.png";
                      Page.img 13 "https://cdn.example/roles/priest.png"]];
      Page.div 30 [Text timer];
      Page.textarea 50;
      Page.control 60 [Page.img 61 "https://cdn.example/icon_send.png"] ]
    "Welcome to the werewolves chat.".

Definition night : World := fun t =>
  if t <? 20000 then nightPage "25s"
  else if t <? 25000 then nightPage "5s"
  else nightPage "Voting 30s".

(** A day page on which nobody has been voted for. *)
Definition quietDay : Dom :=
  Page.page [Page.row 1 [Page.control 2 [Text "1 Alice"]]; Page.div 30 [Text "Voting 25s"]]
            "Voting".

(** A lobby that never fills. *)
Definition lobbyPage : Dom :=
  Page.page [Page.control 1 [Text "START GAME"]; Page.control 2 [Text "INVITE"]]
            "START GAME INVITE".

Definition isReload (a : Action) : bool :=
  match a with Reload => true | _ => false end.

(** ** The vocabulary of the further statements *)

(** What the click helpers may issue on behalf of a set of candidate
    elements: log lines, and left clicks on candidates that are enabled and
    have a bounding box. *)
Definition clicksAmong (candidates : Element -> Prop) (acts : list Action) : Prop :=
  forall a, In a acts ->
    match a with
    | Log _ => True
    | PerformClick target button =>
        button = "left"
        /\ exists e, candidates e /\ uid (attrs e) = target
                     /\ disabled (attrs e) = false
                     /\ rectWidth (layout (attrs e)) <> 0
                     /\ rectHeight (layout (attrs e)) <> 0
    | _ => False
    end.

(** The action is a [performClick] message. *)
Definition isClick (a : Action) : bool :=
  match a with PerformClick _ _ => true | _ => false end.

(** [r] is the first element of [xs] on which [f] is least. *)
Definition FirstMin {A} (f : A -> nat) (xs : list A) (r : A) : Prop :=
  exists pre post, xs = pre ++ r :: post
    /\ (forall x, In x pre -> (f r < f x)%nat)
    /\ (forall x, In x post -> (f r <= f x)%nat).

(** [r] is the first element of [xs] on which [f] is greatest. *)
Definition FirstMax {A} (f : A -> nat) (xs : list A) (r : A) : Prop :=
  exists pre post, xs = pre ++ r :: post
    /\ (forall x, In x pre -> (f x < f r)%nat)
    /\ (forall x, In x post -> (f x <= f r)%nat).

(** The roster row of Bob on [coupledPage]. *)
Definition bobRow : Element :=
  nth 1 (allPlayerElements coupledPage) (mkElement (Page.plain 0 "div") [] []).

(** The role selection of the instigator: the cupid card lies in a control
    inside a control. *)
Definition roleSelectionPage : Dom :=
  Page.page
    [ Page.control 1 [Page.control 2 [Page.img 3 "https://cdn.example/roles/cupid.png"]];
      Page.img 4 "https://cdn.example/roles/instigator.png" ]
    "SELECT A ROLE".

(** Every event of a run satisfies [Q], which is given the time of the
    event and its action. *)
Definition allEvents (Q : Z -> Action -> Prop) (r : Run) : Prop :=
  Forall (fun e => Q (fst e) (snd e)) (events r).

(** The action is a line of the log. *)
Definition isLog (a : Action) : Prop :=
  match a with Log _ | LogCount _ _ => True | _ => False end.

(** One of the partners is a priest, as [inGameNight] computes it. *)
Definition priestCoupled (playerInfo : PlayerInfo) : bool :=
  match coupleRole1 playerInfo, coupleRole2 playerInfo with
  | Some Priest, _ | _, Some Priest => true
  | _, _ => false
  end.

(** What a wolf with a priest partner may do at night: type a message that
    ends in the priest warning and press the send button. *)
Definition priestNight (w : World) (t : Z) (a : Action) : Prop :=
  match a with
  | PerformClick _ _ => In a (clickElementByImage (w t) "icon_send")
  | SetValue _ value => exists n, value = Some (n ++ " priest")%string
  | Reload => False
  | _ => True
  end.

(** What [shooterAction] may do: press the bullet icon, and press the shoot
    button inside the roster entry that [shooterTarget] finds on the page of
    that moment. *)
Definition shooterMove (w : World) (playerInfo : PlayerInfo)
           (coupleElements : list (option Element)) (allPlayerElements : list Element)
           (t : Z) (a : Action) : Prop :=
  match a with
  | Log _ | LogCount _ _ => True
  | PerformClick _ _ =>
      In a (clickElementByImage (w t) "gunner_bullet")
      \/ exists target,
           shooterTarget (w t) playerInfo coupleElements allPlayerElements = Some target
           /\ In a (clickElementByImageInElement (w t) target "gunner_voting_shoot")
  | _ => False
  end.

(** The promise was fulfilled or is still pending. *)
Definition notRejected (o : Outcome) : Prop :=
  match o with Rejected _ _ => False | _ => True end.

(** A state handler that throws. *)
Definition failingHandler : Prog := Throw "TypeError".

(** The actions of a lobby cycle: log lines and the reload. *)
Definition lobbyAction (a : Action) : Prop :=
  match a with Log _ | Reload => True | _ => False end.

(** The images that [waitForImageCountInDOM] counts. *)
Definition countedImages (imageNamePart : string) (images : list Element) : list Element :=
  filter (fun img => Js.includes (src (attrs img)) imageNamePart && isVisible img) images.

(** The chat candidates of [getMessages]: for every [span] that holds a
    colon and lies in a [div], the nearest such [div] and the text of the
    [span]. *)
Definition messageCandidates (spans : list Element) : list (Element * string) :=
  flat_map (fun span =>
              if Js.includes (elemText span) ":" then
                match closest (selTag "div") span with
                | Some containerDiv => [(containerDiv, elemText span)]
                | None => []
                end
              else []) spans.

(** The area of a candidate's container, which [getMessages] compares. *)
Definition containerArea (m : Element * string) : Z :=
  rectWidth (layout (attrs (fst m))) * rectHeight (layout (attrs (fst m))).

(** An empty chat with one message row, for [getMessages]. *)
Definition chatPage : Dom :=
  Page.page [Page.div 40 [Page.span 41 [Text "Bob:"]; Text " vote 7 now"]] "".

(** The cancel argument of the earlier revision of [waitForCondition], as
    the later revision reads it. *)
Definition cancelOfText (cancelText : option string) : CancelConditions :=
  match cancelText with Some text => CancelText text | None => CancelNone end.

(** The cancel texts a caller of [waitForCondition] gives: none, one text
    that counts when it is not empty, or the texts of an array. *)
Definition givenCancelTexts (c : CancelConditions) : list string :=
  match c with
  | CancelNone => []
  | CancelText EmptyString => []
  | CancelText text => [text]
  | CancelTexts texts => texts
  end.

(** A cancel text shows on a page: the first of [texts] that occurs in
    [pageText] is not the empty text. *)
Definition cancelTextShown (texts : list string) (pageText : string) : Prop :=
  exists before text after,
    texts = before ++ text :: after
    /\ (forall t, In t before -> Js.includes pageText t = false)
    /\ Js.includes pageText text = true
    /\ text <> EmptyString.

(** The part of a run that one button of the post-game screens accounts
    for: log lines and clicks on the control that [findButtonFn] returns on
    the page of the moment. *)
Definition buttonMove (buttonText : string) (w : World) (e : Z * Action) : Prop :=
  match snd e with
  | Log _ => True
  | PerformClick target button =>
      button = "left"
      /\ exists el, uid (attrs el) = target /\ findButtonFn buttonText (w (fst e)) = Some el
  | _ => False
  end.

(** The clicks among some events, and the clicks and reloads of a run. *)
Definition clicksIn (evs : list (Z * Action)) : nat :=
  length (filter (fun e => isClick (snd e)) evs).

Definition clickCount (r : Run) : nat := clicksIn (events r).

Definition reloadCount (r : Run) : nat :=
  length (filter (fun e => isReload (snd e)) (events r)).

(** What [playAgain] may do at time [t]: log, reload, and click the control
    that one of its three lookups returns on the page of that moment. *)
Definition postGameMove (rectTop : Element -> Z) (w : World) (t : Z) (a : Action) : Prop :=
  match a with
  | Log _ | Reload => True
  | PerformClick target button =>
      button = "left"
      /\ exists el, uid (attrs el) = target
                    /\ (findButtonFn "Continue" (w t) = Some el
                        \/ findButtonFn "Play again" (w t) = Some el
                        \/ findOkButton rectTop (w t) = Some el)
  | _ => False
  end.

(** A post-game screen with a [Continue] button that never goes away. *)
Definition stuckPostGame : Dom :=
  Page.page [Page.control 1 [Text "Continue"]] "Continue".

(** The screen that keeps the server waiting for the other players. *)
Definition waitingPage : Dom :=
  Page.page [Page.div 1 [Text "Waiting for players"]; Page.control 2 [Text "Continue"]]
            "Waiting for players Continue".

(** What the ability of a villager role may do by day: press the trigger
    icon, and press the action icon inside the first roster entry that shows
    the vote marker on the page of that moment. *)
Definition abilityMove (w : World) (playerInfo : PlayerInfo) (allPlayerElements : list Element)
           (t : Z) (a : Action) : Prop :=
  match a with
  | Log _ => True
  | PerformClick _ _ =>
      exists triggerKey actionKey,
        abilities (role playerInfo) = Some (triggerKey, actionKey)
        /\ (In a (clickElementByImage (w t) triggerKey)
            \/ exists votedPlayer,
                 find (fun p => findImageInElement (w t) p "vote_day_selected") allPlayerElements
                 = Some votedPlayer
                 /\ In a (clickElementByImageInElement (w t) votedPlayer actionKey))
  | _ => False
  end.

(** A day on which Bob, the second of three players, has been voted for;
    Alice, the player, is the shooter and is paired with nobody. *)
Definition votedDay : Dom :=
  Page.page
    [ Page.row 1 [Page.control 2 [Text "1 Alice"]];
      Page.row 10 [Page.control 11
                     [Text "2 Bob";
                      Page.img 12 "https://cdn.example/vote_day_selected.png";
                      Page.img 13 "https://cdn.example/gunner_voting_shoot.png"]];
      Page.div 30 [Text "Voting 25s"];
      Page.control 40 [Page.img 41 "https://cdn.example/gunner_bullet.png"] ]
    "Voting".

(** While the bot runs there is one loop, and the handle is that of its
    timer; while it is stopped there is none. *)
Definition atRest (b : Controller.Bot) : Prop :=
  if Controller.BOT_RUNNING b then
    (exists name, Controller.underWay b = [name] /\ Controller.timers b = [])
    \/ (exists id name, Controller.underWay b = [] /\ Controller.timers b = [(id, name)]
                       /\ Controller.loopHandle b = Some id)
  else Controller.underWay b = [] /\ Controller.timers b = [].


(** A session: the bot is started, plays two cycles and is stopped while it
    sleeps between cycles. *)
Definition quietSession : list Controller.Event :=
  [ Controller.Message "toggleBot" true "Alice"; Controller.Settles 0; Controller.Fires 1;
    Controller.Settles 0; Controller.Message "toggleBot" false "" ].

(** The bot in the middle of a cycle. *)
Definition midCycle : Controller.Bot :=
  Controller.mkBot true "Alice" (Some 4%nat) [] ["Alice"] 5.

(** The bot is stopped and started again, under the name [name'], while a
    call of [main] is under way; then both calls of [main] settle. *)
Definition restartDuringCycle (name' : string) : list Controller.Event :=
  [ Controller.Message "toggleBot" false ""; Controller.Message "toggleBot" true name';
    Controller.Settles 0; Controller.Settles 0 ].

(** The calls of [ensureDebuggerAttached(tabId)] when the debugger is not
    attached to the tab: the detach of the previous target, if any, and the
    attach. *)
Definition attachCalls (Coord : Type) (target : option nat) (tabId : nat)
  : list (Background.ApiCall Coord) :=
  if (match target with Some t => Nat.eqb t tabId | None => false end) then []
  else match target with
       | Some previous => [Background.Detach Coord previous; Background.Attach Coord tabId "1.2"]
       | None => [Background.Attach Coord tabId "1.2"]
       end.


(** The debugger commands of one click on the tab [tab]: the mouse is
    moved to the point, pressed and released there. *)
Definition clickCommands (Coord : Type) (tab : nat) (x y : Coord) (button : string)
  : list (Background.ApiCall Coord) :=
  [ Background.SendCommand (Some tab) "Input.dispatchMouseEvent"
      {| Background.evType := "mouseMoved"; Background.evButton := button;
         Background.evX := x; Background.evY := y; Background.evClickCount := 0 |};
    Background.SendCommand (Some tab) "Input.dispatchMouseEvent"
      {| Background.evType := "mousePressed"; Background.evButton := button;
         Background.evX := x; Background.evY := y; Background.evClickCount := 1 |};
    Background.SendCommand (Some tab) "Input.dispatchMouseEvent"
      {| Background.evType := "mouseReleased"; Background.evButton := button;
         Background.evX := x; Background.evY := y; Background.evClickCount := 1 |} ].

(** A browser with one game tab, the tab 7, in which every call succeeds;
    and one in which the debugger cannot be attached. *)
Definition obligingBrowser : Background.Browser Z :=
  Background.mkBrowser (fun _ => [7%nat]) (fun _ _ => None).

Definition refusingBrowser : Background.Browser Z :=
  Background.mkBrowser (fun _ => [7%nat])
    (fun _ c => match c with
                | Background.Attach _ _ _ => Some "Cannot attach to this target."
                | _ => None
                end).

(** A click while the debugger is attached to another tab, the tab 3, in
    the browser that refuses to attach. *)
Definition attachedElsewhere : Background.State Z := Background.mkState (Some 3%nat) [].

Definition refusedClick : Background.Result unit * Background.State Z :=
  Background.performClick refusingBrowser 10 20 "left" attachedElsewhere.

(** The decimal digit of a number from 0 to 9, and the two digits of a
    number from 0 to 99. *)
Definition digitOf (n : Z) : ascii := ascii_of_N (48 + Z.to_N n).

Definition twoDigits (n : Z) : string :=
  String (digitOf (n / 10)) (String (digitOf (n mod 10)) EmptyString).


(** ** Strings *)

Module JsFacts.
Import Js.

Lemma startsWith_spec s p :
  startsWith s p = true <-> exists post, s = (p ++ post)%string.
Proof.
  revert s; induction p as [|a p IH]; intros s; simpl.
  - split; [intros _; now exists s | intros _; destruct s; reflexivity].
  - destruct s as [|b s].
    + split; [discriminate | intros [post H]; discriminate].
    + simpl. rewrite andb_true_iff, Ascii.eqb_eq, IH. split.
      * intros [-> [post ->]]. now exists post.
      * intros [post H]. injection H as -> ->. split; [reflexivity | now exists post].
Qed.

Lemma includes_spec s key : includes s key = true <-> Substring key s.
Proof.
  induction s as [|c s IH]; cbn [includes].
  - rewrite orb_false_r, startsWith_spec. split.
    + intros [post H]. now exists EmptyString, post.
    + intros [pre [post H]]. destruct pre; [now exists post | discriminate].
  - rewrite orb_true_iff, startsWith_spec, IH. split.
    + intros [[post H] | [pre [post H]]].
      * now exists EmptyString, post.
      * exists (String c pre), post. simpl. now rewrite H.
    + intros [pre [post H]]. destruct pre as [|c' pre]; simpl in H.
      * left. now exists post.
      * right. injection H as _ ->. now exists pre, post.
Qed.

Lemma includes_empty s : includes s "" = true.
Proof. destruct s; reflexivity. Qed.

Lemma occurs_rev_append c s acc :
  occurs c (rev_append s acc) <-> occurs c s \/ occurs c acc.
Proof.
  revert acc; induction s as [|c' s IH]; intros acc; simpl.
  - tauto.
  - rewrite IH. simpl. tauto.
Qed.

Lemma occurs_rev c s : occurs c (rev s) <-> occurs c s.
Proof. unfold rev. rewrite occurs_rev_append. simpl. tauto. Qed.

Lemma occurs_dropWhile f c s : occurs c (dropWhile f s) -> occurs c s.
Proof.
  induction s as [|c' s IH]; simpl; [tauto|].
  destruct (f c'); simpl; tauto.
Qed.

Lemma occurs_trim c s : occurs c (trim s) -> occurs c s.
Proof.
  unfold trim, trimEnd, trimStart. intros H.
  apply occurs_rev, occurs_dropWhile, occurs_rev, occurs_dropWhile in H. exact H.
Qed.

Lemma digitsThenSpace_digit s :
  digitsThenSpace s = true -> exists c, isDigit c = true /\ occurs c s.
Proof.
  unfold digitsThenSpace. destruct s as [|c s]; cbn [takeWhile truthy andb]; [discriminate|].
  destruct (isDigit c) eqn:E; cbn [truthy andb]; [|discriminate].
  intros _. exists c. split; [exact E | now left].
Qed.

(** A text that holds a digit has a first run of digits, and the run is
    not empty. *)
Lemma firstDigits_of_digit s c :
  isDigit c = true -> occurs c s ->
  exists m, firstDigits s = Some m /\ truthy m = true.
Proof.
  intros Hc. induction s as [|c' s IH]; cbn [firstDigits occurs]; [tauto|].
  intros H. destruct (isDigit c') eqn:E.
  - eexists. split; [reflexivity|]. cbn [takeWhile]. now rewrite E.
  - destruct H as [H|H]; [congruence | auto].
Qed.

Lemma firstDigits_truthy s m : firstDigits s = Some m -> truthy m = true.
Proof.
  induction s as [|c s IH]; cbn [firstDigits]; [discriminate|].
  destruct (isDigit c) eqn:E; [|exact IH].
  intros H. injection H as <-. cbn [takeWhile]. now rewrite E.
Qed.

Lemma append_nil_r s : (s ++ "")%string = s.
Proof. induction s as [|c s IH]; cbn; [reflexivity | now rewrite IH]. Qed.

Lemma append_assoc a b c : ((a ++ b) ++ c)%string = (a ++ (b ++ c))%string.
Proof. induction a as [|x a IH]; cbn; [reflexivity | now rewrite IH]. Qed.

Lemma rev_append_spec s acc : rev_append s acc = (rev s ++ acc)%string.
Proof.
  unfold rev. revert acc. induction s as [|c s IH]; intros acc; cbn [rev_append]; [reflexivity|].
  rewrite IH, (IH (String c "")), append_assoc. reflexivity.
Qed.

Lemma rev_cons c s : rev (String c s) = (rev s ++ String c "")%string.
Proof. unfold rev at 1. cbn [rev_append]. apply rev_append_spec. Qed.

Lemma rev_app a b : rev (a ++ b) = (rev b ++ rev a)%string.
Proof.
  induction a as [|c a IH]; cbn [append].
  - now rewrite append_nil_r.
  - now rewrite !rev_cons, IH, append_assoc.
Qed.

Lemma rev_involutive s : rev (rev s) = s.
Proof.
  induction s as [|c s IH]; [reflexivity|].
  rewrite rev_cons, rev_app, IH. reflexivity.
Qed.

Lemma takeWhile_dropWhile f s : s = (takeWhile f s ++ dropWhile f s)%string.
Proof.
  induction s as [|c s IH]; cbn [takeWhile dropWhile]; [reflexivity|].
  destruct (f c); cbn [append]; [now rewrite <- IH | reflexivity].
Qed.

Lemma all_takeWhile f s : all f (takeWhile f s) = true.
Proof.
  induction s as [|c s IH]; cbn [takeWhile all]; [reflexivity|].
  destruct (f c) eqn:E; cbn [all]; [now rewrite E | reflexivity].
Qed.

Lemma all_app f a b : all f (a ++ b) = all f a && all f b.
Proof. induction a as [|c a IH]; cbn [append all]; [reflexivity | now rewrite IH, andb_assoc]. Qed.

Lemma all_rev f s : all f (rev s) = all f s.
Proof.
  induction s as [|c s IH]; [reflexivity|].
  rewrite rev_cons, all_app, IH. cbn [all]. now rewrite andb_true_r, andb_comm.
Qed.

Lemma head_dropWhile f s c : head (dropWhile f s) = Some c -> f c = false.
Proof.
  induction s as [|x s IH]; cbn [dropWhile]; [discriminate|].
  destruct (f x) eqn:E; [exact IH|]. cbn [head]. intros H. now injection H as <-.
Qed.

(** What the timer regex captures: the text is the captured prefix, then
    white space, then one or two digits, then [s]; and the prefix is the
    shortest one, for it ends neither in white space nor, when a single
    digit follows it directly, in a digit. *)
Lemma timerPrefix_sound s g :
  timerPrefix s = Some g ->
  exists ws ds,
    s = (g ++ ws ++ ds ++ "s")%string
    /\ all isSpace ws = true /\ all isDigit ds = true
    /\ (String.length ds = 1 \/ String.length ds = 2)%nat
    /\ (forall c, last g = Some c -> isSpace c = false)
    /\ (String.length ds = 1%nat -> ws = "" -> forall c, last g = Some c -> isDigit c = false).
Proof.
  unfold timerPrefix, last. destruct (rev s) as [|c0 [|d1 r]] eqn:E; try discriminate.
  destruct (Ascii.eqb_spec c0 "s") as [->|]; [|discriminate].
  destruct (isDigit d1) eqn:Hd1; [|discriminate]. cbn [andb].
  intros H. injection H as <-. rewrite rev_involutive.
  apply (f_equal rev) in E. rewrite rev_involutive in E. rewrite !rev_cons in E.
  assert (Hsplit : forall r', rev r' =
            (rev (dropWhile isSpace r') ++ rev (takeWhile isSpace r'))%string).
  { intros r'. rewrite <- rev_app, <- takeWhile_dropWhile. reflexivity. }
  destruct r as [|d2 r2].
  - exists "", (String d1 ""). subst s. cbn [dropWhile rev rev_append append all head].
    rewrite Hd1. repeat split; auto; discriminate.
  - destruct (isDigit d2) eqn:Hd2.
    + exists (rev (takeWhile isSpace r2)), (String d2 (String d1 "")).
      split; [|split; [|split; [|split; [|split]]]].
      * rewrite E, rev_cons, (Hsplit r2), !append_assoc. reflexivity.
      * now rewrite all_rev, all_takeWhile.
      * cbn [all]. now rewrite Hd1, Hd2.
      * now right.
      * intros c. apply head_dropWhile.
      * cbn [String.length]. discriminate.
    + exists (rev (takeWhile isSpace (String d2 r2))), (String d1 "").
      split; [|split; [|split; [|split; [|split]]]].
      * rewrite E, (Hsplit (String d2 r2)), !append_assoc. reflexivity.
      * now rewrite all_rev, all_takeWhile.
      * cbn [all]. now rewrite Hd1.
      * now left.
      * intros c. apply head_dropWhile.
      * intros _ Hws c. apply (f_equal rev) in Hws. rewrite rev_involutive in Hws.
        cbn [takeWhile] in Hws. cbn [dropWhile].
        destruct (isSpace d2); [discriminate|]. cbn [head].
        intros H. injection H as <-. exact Hd2.
Qed.

(** The regex matches every text of that form. *)
Lemma timerPrefix_complete p ws ds :
  all isSpace ws = true -> all isDigit ds = true ->
  (String.length ds = 1 \/ String.length ds = 2)%nat ->
  exists g, timerPrefix (p ++ ws ++ ds ++ "s") = Some g.
Proof.
  intros Hws Hds Hlen. unfold timerPrefix.
  destruct ds as [|a [|b [|c ds]]]; cbn in Hlen; try lia; cbn [all] in Hds;
    rewrite ?andb_true_r in Hds; cbn [append]; rewrite !rev_app.
  - change (rev (String a "s")) with (String "s" (String a "")). cbn [append].
    rewrite Hds. cbn. eauto.
  - apply andb_true_iff in Hds. destruct Hds as [Ha Hb].
    change (rev (String a (String b "s"))) with (String "s" (String b (String a ""))).
    cbn [append]. rewrite Hb. cbn. eauto.
Qed.

End JsFacts.

(** ** The role classifier *)

Section RoleClassifier.
Import JsFacts.

Lemma scanRoleMap_first m f dflt before key r after :
  m = before ++ (key, r) :: after ->
  Js.Substring key f ->
  (forall k' r', In (k', r') before -> ~ Js.Substring k' f) ->
  scanRoleMap m f dflt = r.
Proof.
  intros -> Hin. induction before as [|[k0 r0] before IH]; simpl; intros Hno.
  - apply includes_spec in Hin. now rewrite Hin.
  - destruct (Js.includes f k0) eqn:E.
    + apply includes_spec in E. exfalso. eapply Hno; eauto.
    + apply IH. intros k' r' H. eapply Hno. right. exact H.
Qed.

Lemma scanRoleMap_none m f dflt :
  (forall key r, In (key, r) m -> ~ Js.Substring key f) ->
  scanRoleMap m f dflt = dflt.
Proof.
  induction m as [|[k0 r0] m IH]; simpl; intros Hno; [reflexivity|].
  destruct (Js.includes f k0) eqn:E.
  - apply includes_spec in E. exfalso. eapply Hno; eauto.
  - apply IH. intros key r H. eapply Hno. right. exact H.
Qed.

(** The table never yields ['Unknown']. *)
Lemma scanRoleMap_known f : scanRoleMap roleMap f Other <> Unknown.
Proof.
  unfold roleMap. cbn [scanRoleMap].
  repeat match goal with
         | |- context [if ?b then _ else _] => destruct b
         end; discriminate.
Qed.

End RoleClassifier.

(** C7.  [getPlayerRole] depends on the icon filename only.  The keys of its
    table come in the order juniorwerewolf, junior_werewolf, split_wolf,
    splitwolf, wolf, priest, vigilante, gunner.  For a filename that is
    present and not empty the result is the role of the first key, in that
    order, that occurs in the filename, and ['Other'] when no key occurs;
    the result is ['Unknown'] exactly when the filename is missing or
    empty. *)
Theorem getPlayerRole_first_key (filename : option string) :
  map fst roleMap =
    ["juniorwerewolf"; "junior_werewolf"; "split_wolf"; "splitwolf";
     "wolf"; "priest"; "vigilante"; "gunner"]
  /\ (getPlayerRole filename = Unknown <-> filename = None \/ filename = Some "")
  /\ (forall f, filename = Some f -> f <> "" ->
        (forall before key r after,
            roleMap = before ++ (key, r) :: after ->
            Js.Substring key f ->
            (forall k' r', In (k', r') before -> ~ Js.Substring k' f) ->
            getPlayerRole filename = r)
        /\ ((forall key r, In (key, r) roleMap -> ~ Js.Substring key f) ->
            getPlayerRole filename = Other)).
Proof.
  split; [reflexivity|]. split.
  - destruct filename as [[|c f]|]; cbn [getPlayerRole Js.truthy negb].
    + split; auto.
    + split.
      * intros H. exfalso. exact (scanRoleMap_known _ H).
      * intros [H|H]; discriminate.
    + split; auto.
  - intros f -> Hne. destruct f as [|c f]; [congruence|].
    cbn [getPlayerRole Js.truthy negb]. split.
    + intros before key r after Hmap Hin Hno.
      eapply scanRoleMap_first; eauto.
    + intros Hno. now apply scanRoleMap_none.
Qed.

(** The classifier at work on concrete filenames: [junior_werewolf] wins
    over [wolf], which it contains. *)
Lemma getPlayerRole_first_key_witness :
  getPlayerRole (Some "junior_werewolf.png") = JuniorWerewolf
  /\ getPlayerRole (Some "hat.png") = Other
  /\ getPlayerRole (Some "") = Unknown.
Proof.
  split; [|split; reflexivity].
  destruct (getPlayerRole_first_key (Some "junior_werewolf.png")) as [_ [_ H]].
  destruct (H "junior_werewolf.png" eq_refl ltac:(discriminate)) as [Hfirst _].
  apply (Hfirst [("juniorwerewolf", JuniorWerewolf)] "junior_werewolf" JuniorWerewolf
                (tl (tl roleMap)) eq_refl).
  - exists "", ".png". reflexivity.
  - intros k' r' [H0|[]]. injection H0 as <- <-.
    intros Hsub. apply JsFacts.includes_spec in Hsub. discriminate.
Defined.

(** ** Day and night *)

(** C8.  [isDay] holds exactly when the extracted timer label is
    ['Discussion'] or ['Voting'], [isNight] exactly when it is the empty
    string; both fail on every other label and when there is no label, and
    no snapshot makes both hold. *)
Theorem isDay_isNight_exact (d : Dom) :
  (isDay d = true <->
     getLabelBeforeTime d = Some "Discussion" \/ getLabelBeforeTime d = Some "Voting")
  /\ (isNight d = true <-> getLabelBeforeTime d = Some "")
  /\ (getLabelBeforeTime d = None -> isDay d = false /\ isNight d = false)
  /\ (forall label, getLabelBeforeTime d = Some label ->
        label <> "Discussion" -> label <> "Voting" -> label <> "" ->
        isDay d = false /\ isNight d = false)
  /\ isDay d && isNight d = false.
Proof.
  unfold isDay, isNight. destruct (getLabelBeforeTime d) as [label|].
  - repeat split.
    + rewrite orb_true_iff, !String.eqb_eq. intros [->| ->]; auto.
    + rewrite orb_true_iff, !String.eqb_eq. intros [H|H]; injection H; auto.
    + rewrite String.eqb_eq. now intros ->.
    + rewrite String.eqb_eq. intros H. now injection H.
    + discriminate.
    + discriminate.
    + injection H as <-. apply orb_false_iff.
      split; apply String.eqb_neq; assumption.
    + injection H as <-. apply String.eqb_neq; assumption.
    + destruct (String.eqb_spec label "Discussion") as [->|]; [reflexivity|].
      destruct (String.eqb_spec label "Voting") as [->|]; reflexivity.
  - repeat split; try discriminate; try tauto.
    intros [H|H]; discriminate.
Qed.

(** A day page, a night page and a page without a timer. *)
Lemma isDay_isNight_exact_witness :
  let day := Page.page [Page.div 1 [Text " Voting 25s"]] "" in
  let night := Page.page [Page.div 1 [Text "12s"]] "" in
  let lobby := Page.page [Page.div 1 [Text "START GAME"]] "" in
  (isDay day = true /\ isNight day = false)
  /\ (isDay night = false /\ isNight night = true)
  /\ (isDay lobby = false /\ isNight lobby = false).
Proof.
  cbv zeta. split; [split | split; split].
  - apply (proj1 (isDay_isNight_exact _)). right. reflexivity.
  - reflexivity.
  - reflexivity.
  - apply (proj1 (proj2 (isDay_isNight_exact _))). reflexivity.
  - apply (proj1 (proj2 (proj2 (isDay_isNight_exact _)))). reflexivity.
  - apply (proj1 (proj2 (proj2 (isDay_isNight_exact _)))). reflexivity.
Defined.

(** ** The extractor: couple numbers and couple roles *)

Section Extractor.
Import JsFacts.

Variable d : Dom.
Variable myName : string.

Lemma at_padToTwo (l : list Element) k : (k < 2)%nat -> at_ (padToTwo l) k = nth_error l k.
Proof.
  intros Hk. unfold at_.
  destruct l as [|a [|b l]]; destruct k as [|[|k]]; try lia; reflexivity.
Qed.

Lemma coupleElements_partner k :
  (k < 2)%nat -> at_ (coupleElements d myName) k = partner d myName k.
Proof. intros Hk. unfold coupleElements, partner. now apply at_padToTwo. Qed.

Lemma coupleRoleImages_partner k :
  at_ (extractRoleImage (coupleImageSets d myName)) k =
  match partner d myName k with Some e => roleImageOf e | None => None end.
Proof.
  unfold at_, extractRoleImage, coupleImageSets, getPlayerImageFilenames, partner.
  rewrite !nth_error_map.
  destruct (nth_error (filter (notMe myName) (loverElements d)) k); reflexivity.
Qed.

(** Every roster entry yields a seat number: its text starts with digits. *)
Lemma roster_entry_has_number e :
  In e (allPlayerElements d) -> getPlayerNumber (Some e) <> None.
Proof.
  unfold allPlayerElements. rewrite filter_In. intros [_ H].
  apply digitsThenSpace_digit in H. destruct H as [c [Hc Hocc]].
  apply occurs_trim in Hocc.
  destruct (@firstDigits_of_digit _ _ Hc Hocc) as [m [Hm Ht]].
  unfold getPlayerNumber. rewrite Hm, Ht. discriminate.
Qed.

Lemma partner_in_roster k e : partner d myName k = Some e -> In e (allPlayerElements d).
Proof.
  unfold partner, loverElements. intros H. apply nth_error_In in H.
  rewrite !filter_In in H. tauto.
Qed.

Lemma getRoleFromImage_known img : getRoleFromImage img <> Some Unknown.
Proof.
  destruct img as [[|c f]|]; [discriminate| |discriminate].
  change (getRoleFromImage (Some (String c f)))
    with (Some (scanRoleMap roleMap (String c f) Other)).
  intros H. apply (@scanRoleMap_known (String c f)). congruence.
Qed.

Lemma coupleNumber_partner k :
  (k < 2)%nat -> coupleNumber (playerInfoOf d myName) k = getPlayerNumber (partner d myName k).
Proof.
  intros Hk. destruct k as [|[|k]]; try lia; cbn [coupleNumber playerInfoOf coupleNumber1 coupleNumber2];
    now rewrite coupleElements_partner by lia.
Qed.

Lemma coupleRole_partner k :
  (k < 2)%nat ->
  coupleRole (playerInfoOf d myName) k =
  match partner d myName k with Some e => getRoleFromImage (roleImageOf e) | None => None end.
Proof.
  intros Hk. destruct k as [|[|k]]; try lia; cbn [coupleRole playerInfoOf coupleRole1 coupleRole2];
    rewrite coupleRoleImages_partner; destruct (partner d myName _); reflexivity.
Qed.

End Extractor.

(** C1, as the code has it.  For either couple slot: the seat number is
    null exactly when there is no such paired entry; the role is the
    classification of the entry's role icon, and is null when there is no
    paired entry, when no icon remains after the decorations, or when the
    filename of that icon is empty.  Hence a null number implies a null
    role, a role that is set implies a number that is set, and a couple
    role is never ['Unknown']. *)
Theorem couple_role_implies_number (d : Dom) (myName : string) (k : nat) :
  (k < 2)%nat ->
  let info := playerInfoOf d myName in
  (coupleNumber info k = None <-> partner d myName k = None)
  /\ coupleRole info k =
       match partner d myName k with
       | Some e => getRoleFromImage (roleImageOf e)
       | None => None
       end
  /\ (coupleNumber info k = None -> coupleRole info k = None)
  /\ (coupleRole info k <> None -> coupleNumber info k <> None)
  /\ coupleRole info k <> Some Unknown.
Proof.
  intros Hk info. subst info.
  rewrite (@coupleNumber_partner d myName k Hk), (@coupleRole_partner d myName k Hk).
  destruct (partner d myName k) as [e|] eqn:He.
  - pose proof (@roster_entry_has_number d e (@partner_in_roster d myName k e He)) as Hn.
    split; [split; [intros H; now elim Hn | discriminate]|].
    split; [reflexivity|].
    split; [intros H; now elim Hn|].
    split; [intros _; exact Hn|].
    apply getRoleFromImage_known.
  - cbn [getPlayerNumber]. repeat split; auto; try discriminate.
Qed.

Lemma couple_role_implies_number_witness :
  (0 < 2)%nat
  /\ coupleNumber (playerInfoOf rosterOfThree "Alice") 1 = Some "3"
  /\ coupleRole (playerInfoOf rosterOfThree "Alice") 1 = Some Wolf
  /\ (coupleRole (playerInfoOf rosterOfThree "Alice") 1 <> None ->
      coupleNumber (playerInfoOf rosterOfThree "Alice") 1 <> None).
Proof.
  split; [lia|]. split; [reflexivity|]. split; [reflexivity|].
  exact (proj1 (proj2 (proj2 (proj2
           (@couple_role_implies_number rosterOfThree "Alice" 1 ltac:(lia)))))).
Defined.

(** C1 as it is worded fails: Bob is paired and his seat number is
    parsed, but with no role icon left his role is null, not ['Unknown']. *)
Lemma couple_invariant_counterexample :
  let info := playerInfoOf rosterOfThree "Alice" in
  coupleNumber1 info = Some "2"
  /\ coupleRole1 info = None
  /\ coupleRole1 info <> Some Unknown
  /\ ~ (coupleRole1 info = None <-> coupleNumber1 info = None).
Proof.
  cbv zeta.
  assert (Hn : coupleNumber1 (playerInfoOf rosterOfThree "Alice") = Some "2") by reflexivity.
  assert (Hr : coupleRole1 (playerInfoOf rosterOfThree "Alice") = None) by reflexivity.
  rewrite Hn, Hr. repeat split; try discriminate.
  intros [H _]. specialize (H eq_refl). discriminate.
Qed.

(** ** Waiting *)

Section WaitFacts.

Variable R : Type.
Variable conditionFn : Dom -> option R.
Variable timeout : Z.
Variable cancelConditions : CancelConditions.
Variable ticks : nat -> Z * Dom.
Variable startTime : Z.

(** A wait that resolves does so at the first run of [check] that does not
    re-arm the timer. *)
Lemma polls_sound fuel k k' r :
  polls conditionFn timeout cancelConditions ticks startTime fuel k = Some (k', r) ->
  (k <= k')%nat
  /\ checkAt conditionFn timeout cancelConditions ticks startTime k' = Resolve r
  /\ forall j, (k <= j < k')%nat ->
       checkAt conditionFn timeout cancelConditions ticks startTime j = Rearm.
Proof.
  revert k. induction fuel as [|fuel IH]; intros k; cbn [polls]; [discriminate|].
  destruct (checkAt conditionFn timeout cancelConditions ticks startTime k) as [res|] eqn:E.
  - intros H. injection H as <- <-. repeat split; [lia | exact E | intros j Hj; lia].
  - intros H. apply IH in H. destruct H as [Hle [Hres Hre]].
    repeat split; [lia | exact Hres |].
    intros j Hj. destruct (Nat.eq_dec j k) as [->|]; [exact E | apply Hre; lia].
Qed.

Lemma polls_complete k' r :
  checkAt conditionFn timeout cancelConditions ticks startTime k' = Resolve r ->
  forall fuel k, (k <= k')%nat -> (k' - k < fuel)%nat ->
  (forall j, (k <= j < k')%nat ->
     checkAt conditionFn timeout cancelConditions ticks startTime j = Rearm) ->
  polls conditionFn timeout cancelConditions ticks startTime fuel k = Some (k', r).
Proof.
  intros Hres. induction fuel as [|fuel IH]; intros k Hle Hfuel Hre; [lia|].
  cbn [polls]. destruct (Nat.eq_dec k k') as [->|Hne].
  - now rewrite Hres.
  - rewrite (Hre k) by lia. apply IH; [lia | lia | intros j Hj; apply Hre; lia].
Qed.

(** Some run of [check] at or before run [K] resolves when run [K] itself
    cannot re-arm. *)
Lemma polls_reach K :
  checkAt conditionFn timeout cancelConditions ticks startTime K <> Rearm ->
  forall fuel k, (k <= K)%nat -> (K - k < fuel)%nat ->
  exists k' r,
    polls conditionFn timeout cancelConditions ticks startTime fuel k = Some (k', r)
    /\ (k' <= K)%nat.
Proof.
  intros HK. induction fuel as [|fuel IH]; intros k Hle Hfuel; [lia|].
  cbn [polls].
  destruct (checkAt conditionFn timeout cancelConditions ticks startTime k) as [res|] eqn:E.
  - exists k, res. split; [reflexivity | lia].
  - destruct (Nat.eq_dec k K) as [->|Hne]; [congruence|].
    destruct (IH (S k)) as [k' [r [H1 H2]]]; [lia | lia |].
    exists k', r. split; [exact H1 | lia].
Qed.

Lemma polls_more fuel fuel' k x :
  polls conditionFn timeout cancelConditions ticks startTime fuel k = Some x ->
  (fuel <= fuel')%nat ->
  polls conditionFn timeout cancelConditions ticks startTime fuel' k = Some x.
Proof.
  revert fuel' k. induction fuel as [|fuel IH]; intros fuel' k; [discriminate|].
  intros H Hle. destruct fuel' as [|fuel']; [lia|].
  cbn [polls] in *.
  destruct (checkAt conditionFn timeout cancelConditions ticks startTime k); [exact H|].
  apply IH; [exact H | lia].
Qed.

End WaitFacts.

(** With a positive interval the clock of a schedule that honours it
    passes every bound. *)
Lemma timely_unbounded ticks startTime interval :
  0 < interval -> timely ticks startTime interval -> unbounded ticks.
Proof.
  intros Hpos [H0 Hstep].
  assert (Hk : forall k, startTime + Z.of_nat k <= fst (ticks k)).
  { induction k as [|k IH]; [simpl; lia|]. specialize (Hstep k). lia. }
  intros T. exists (Z.to_nat (T - startTime)). specialize (Hk (Z.to_nat (T - startTime))). lia.
Qed.

(** Virtual time is one of the schedules that honour the interval. *)
Lemma virtualTicks_timely w start interval : timely (virtualTicks w start interval) start interval.
Proof.
  unfold timely, virtualTicks. cbn [fst]. split; [lia|]. intros k. nia.
Qed.

Lemma cancelled_spec c d :
  Forall (fun t => t <> "") (cancelTexts c) ->
  (cancelled c d = true <->
   exists t, In t (cancelTexts c) /\ Js.includes (innerText d) t = true).
Proof.
  intros Hne. unfold cancelled.
  destruct (cancelTexts c) as [|t0 l] eqn:E.
  - split; [discriminate | intros [t [[] _]]].
  - rewrite <- E in *. clear E t0 l.
    destruct (find _ _) as [t|] eqn:F.
    + apply find_some in F. destruct F as [Hin Hinc]. split.
      * intros _. now exists t.
      * intros _. rewrite Forall_forall in Hne. specialize (Hne t Hin).
        destruct t; [congruence | reflexivity].
    + split; [discriminate|]. intros [t [Hin Hinc]].
      pose proof (find_none _ _ F t Hin) as H. cbv beta in H. congruence.
Qed.

Lemma cancelled_absent c d :
  (forall t, In t (cancelTexts c) -> Js.includes (innerText d) t = false) ->
  cancelled c d = false.
Proof.
  intros H. unfold cancelled. destruct (cancelTexts c) as [|t0 l] eqn:E; [reflexivity|].
  rewrite <- E in *. destruct (find _ _) as [t|] eqn:F; [|reflexivity].
  apply find_some in F. destruct F as [Hin Hinc]. rewrite (H t Hin) in Hinc. discriminate.
Qed.

(** C6, as the code has it.  On every schedule that honours the interval
    and on which time passes (a positive interval ensures it), a wait on
    a predicate that is always false resolves, and resolves to [null]; the
    promise has no way to reject.  When the list holds no empty text and
    the page of the first run of [check] contains one of the cancel texts,
    the wait resolves at that first run; and when the page of the run
    that resolves contains none of them, the timeout has elapsed at that
    run. *)
Theorem waitForCondition_always_false (R : Type) (timeout interval : Z)
        (cancelConditions : CancelConditions) (ticks : nat -> Z * Dom) (startTime : Z) :
  timely ticks startTime interval ->
  0 < interval \/ unbounded ticks ->
  exists k,
    (exists fuel, forall fuel', (fuel <= fuel')%nat ->
       waitForCondition (fun _ => @None R) timeout cancelConditions ticks startTime fuel'
       = Some (k, None))
    /\ (Forall (fun t => t <> "") (cancelTexts cancelConditions) ->
        (exists t, In t (cancelTexts cancelConditions)
                   /\ Js.includes (innerText (snd (ticks O))) t = true) ->
        k = O)
    /\ ((forall t, In t (cancelTexts cancelConditions) ->
                   Js.includes (innerText (snd (ticks k))) t = false) ->
        timeout <= fst (ticks k) - startTime).
Proof.
  intros Htimely Hprogress.
  assert (Hunb : unbounded ticks).
  { destruct Hprogress as [Hpos|H]; [eapply timely_unbounded; eauto | exact H]. }
  destruct (Hunb (startTime + timeout)) as [K HK].
  assert (HresK : check (fun _ => @None R) timeout cancelConditions startTime
                        (fst (ticks K)) (snd (ticks K)) <> Rearm).
  { unfold check. destruct (cancelled _ _); [discriminate|].
    destruct (Z.geb_spec (fst (ticks K) - startTime) timeout); [discriminate | lia]. }
  destruct (polls_reach _ _ _ _ _ HresK (fuel := S K) (k := O)) as [k [r [Hrun Hle]]]; [lia | lia |].
  pose proof (polls_sound _ _ _ _ _ _ _ Hrun) as [_ [Hres Hre]].
  unfold checkAt in Hres, Hre.
  assert (Hr : r = None).
  { unfold check in Hres. destruct (cancelled _ _); [congruence|].
    destruct (_ >=? _); congruence. }
  subst r. exists k. split; [|split].
  - exists (S K). intros fuel' Hfuel. unfold waitForCondition.
    eapply polls_more; eauto.
  - intros Hne Hin. destruct k as [|k]; [reflexivity|]. exfalso.
    specialize (Hre O ltac:(lia)). unfold check in Hre.
    rewrite (proj2 (@cancelled_spec cancelConditions (snd (ticks O)) Hne) Hin) in Hre.
    discriminate.
  - intros Habs. unfold check in Hres.
    rewrite (@cancelled_absent cancelConditions (snd (ticks k)) Habs) in Hres.
    destruct (Z.geb_spec (fst (ticks k) - startTime) timeout); [lia | discriminate].
Qed.

Lemma waitForCondition_always_false_witness :
  exists k,
    (exists fuel, forall fuel', (fuel <= fuel')%nat ->
       waitForCondition (fun _ => @None unit) 1000 (CancelText "Continue")
                        (every200 gameOverPage) 0 fuel' = Some (k, None))
    /\ (Forall (fun t => t <> "") (cancelTexts (CancelText "Continue")) ->
        (exists t, In t (cancelTexts (CancelText "Continue"))
                   /\ Js.includes (innerText (snd (every200 gameOverPage O))) t = true) ->
        k = O)
    /\ ((forall t, In t (cancelTexts (CancelText "Continue")) ->
                   Js.includes (innerText (snd (every200 gameOverPage k))) t = false) ->
        1000 <= fst (every200 gameOverPage k) - 0).
Proof.
  apply (@waitForCondition_always_false unit 1000 200 (CancelText "Continue")
                                        (every200 gameOverPage) 0).
  - split; [simpl; lia | intros k; unfold every200; cbn [fst]; lia].
  - left. lia.
Defined.

(** C6 as it is worded fails for an empty cancel text: every page
    text contains the empty string, yet the wait is not cancelled and runs
    until the timeout has elapsed, at the sixth run of [check]. *)
Lemma empty_cancel_text_counterexample :
  In "" (cancelTexts (CancelTexts [""]))
  /\ Js.includes (innerText (snd (every200 gameOverPage O))) "" = true
  /\ waitForCondition (fun _ => @None unit) 1000 (CancelTexts [""])
                      (every200 gameOverPage) 0 10 = Some (5%nat, None)
  /\ ~ (forall (timeout : Z) (c : CancelConditions) (ticks : nat -> Z * Dom) (fuel k : nat),
          (exists t, In t (cancelTexts c) /\ Js.includes (innerText (snd (ticks O))) t = true) ->
          waitForCondition (fun _ => @None unit) timeout c ticks 0 fuel = Some (k, None) ->
          k = O).
Proof.
  split; [now left|]. split; [reflexivity|]. split; [reflexivity|].
  intros H.
  specialize (H 1000 (CancelTexts [""]) (every200 gameOverPage) 10%nat 5%nat).
  assert (E : 5%nat = O); [|discriminate].
  apply H; [|reflexivity].
  exists "". split; [now left | reflexivity].
Qed.

(** C10.  On every run of [check] the predicate is evaluated before the
    cancel texts are looked for: when the runs before run [k] re-armed the
    timer and the predicate returns the truthy value [r] on the page of run
    [k], that run resolves with [r], whatever the page text contains, and
    so does the wait; the same holds of the earlier revision of the
    function. *)
Theorem predicate_checked_before_cancel (R : Type) (conditionFn : Dom -> option R)
        (timeout : Z) (cancelConditions : CancelConditions)
        (ticks : nat -> Z * Dom) (startTime : Z) (k : nat) (r : R) :
  (forall j, (j < k)%nat ->
     checkAt conditionFn timeout cancelConditions ticks startTime j = Rearm) ->
  conditionFn (snd (ticks k)) = Some r ->
  checkAt conditionFn timeout cancelConditions ticks startTime k = Resolve (Some r)
  /\ (forall cancelText,
        check_v1 conditionFn timeout cancelText startTime (fst (ticks k)) (snd (ticks k))
        = Resolve (Some r))
  /\ forall fuel, (k < fuel)%nat ->
       waitForCondition conditionFn timeout cancelConditions ticks startTime fuel
       = Some (k, Some r).
Proof.
  intros Hbefore Hcond.
  assert (Hres : check conditionFn timeout cancelConditions startTime
                       (fst (ticks k)) (snd (ticks k)) = Resolve (Some r)).
  { unfold check. now rewrite Hcond. }
  split; [exact Hres|]. split.
  - intros cancelText. unfold check_v1. now rewrite Hcond.
  - intros fuel Hfuel. unfold waitForCondition.
    apply polls_complete; [exact Hres | lia | lia |].
    intros j Hj. apply Hbefore. lia.
Qed.

(** The predicate looks for the text ['Victory'] on a page that also shows
    the cancel text ['Continue']: the wait resolves with what the predicate
    found. *)
Lemma predicate_checked_before_cancel_witness :
  cancelled (CancelText "Continue") gameOverPage = true
  /\ waitForCondition
       (fun d => if findTextInDocument d "Victory" then Some tt else None)
       30000 (CancelText "Continue") (every200 gameOverPage) 0 1
     = Some (O, Some tt).
Proof.
  split; [reflexivity|].
  refine (proj2 (proj2 (@predicate_checked_before_cancel unit
            (fun d => if findTextInDocument d "Victory" then Some tt else None)
            30000 (CancelText "Continue") (every200 gameOverPage) 0 O tt _ _)) 1%nat _).
  - intros j Hj. lia.
  - reflexivity.
  - lia.
Defined.

(** ** Runs of programs *)

Lemma trace_Emit w now a k : trace w now (Emit a k) = a :: trace w now k.
Proof. reflexivity. Qed.

Lemma trace_Read w now k : trace w now (Read k) = trace w now (k (w now)).
Proof. reflexivity. Qed.

Lemma eval_emitAll w now acts k :
  eval w now (emitAll acts k) =
  mkRun (map (pair now) acts ++ events (eval w now k)) (outcome (eval w now k)).
Proof.
  induction acts as [|a acts IH]; cbn [emitAll eval map app].
  - now destruct (eval w now k).
  - now rewrite IH.
Qed.

Lemma andThen_emitAll acts k q : andThen (emitAll acts k) q = emitAll acts (andThen k q).
Proof. induction acts as [|a acts IH]; cbn [emitAll andThen]; [reflexivity | now rewrite IH]. Qed.

Lemma trace_emitAll w now acts k : trace w now (emitAll acts k) = acts ++ trace w now k.
Proof.
  unfold trace. rewrite eval_emitAll. cbn [events]. rewrite map_app, map_map.
  cbn [snd]. now rewrite map_id.
Qed.

(** ** The game-over gate *)

Lemma gameIsOver_spec d :
  gameIsOver d = true <->
  exists text, In text gameOverTexts /\ Js.Substring text (textContent (body d)).
Proof.
  unfold gameIsOver, findTextInDocument, gameOverTexts.
  rewrite !orb_true_iff, !JsFacts.includes_spec. split.
  - intros [[[[H|H]|H]|H]|H]; eexists; (split; [|exact H]); cbn [In]; tauto.
  - intros [text [Hin H]]. cbn [In] in Hin.
    destruct Hin as [<-|[<-|[<-|[<-|[<-|[]]]]]]; tauto.
Qed.

(** A page that the main loop classifies as a game in progress passes the
    gate of the phase handlers. *)
Lemma in_game_not_over d : determineGameState d = IN_GAME -> gameIsOver d = false.
Proof.
  unfold determineGameState.
  destruct (Js.includes (innerText d) "Continue"); [discriminate|].
  destruct (gameIsOver d); [|reflexivity].
  rewrite andb_false_r.
  repeat match goal with
         | |- context [if ?b then _ else _] => destruct b
         end; discriminate.
Qed.

(** C3.  When the game-over predicate holds as a phase handler is entered,
    that is when the page text contains ['Continue'], ['Play again'],
    ['Victory'], ['Defeat'] or ['Draw'], the handler returns at once: the
    run of [inGameDay] and the run of [inGameNight] hold no action at all,
    for every player record and so for every role. *)
Theorem game_over_aborts (w : World) (now : Z) (playerInfo : PlayerInfo)
        (coupleElements : list (option Element)) (playerImages : list (list string))
        (allPlayerElements : list Element) (text : string) :
  In text gameOverTexts ->
  Js.Substring text (textContent (body (w now))) ->
  eval w now (inGameDay playerInfo coupleElements playerImages allPlayerElements)
  = mkRun [] (Fulfilled now)
  /\ eval w now (inGameNight playerInfo coupleElements allPlayerElements)
     = mkRun [] (Fulfilled now).
Proof.
  intros Hin Htext.
  assert (Hover : gameIsOver (w now) = true) by (apply gameIsOver_spec; eauto).
  unfold inGameDay, inGameNight. cbn [eval]. now rewrite Hover.
Qed.

Lemma game_over_aborts_witness :
  eval (fun _ => gameOverPage) 0
       (inGameDay (playerInfoOf gameOverPage "Alice") [None; None] [] [])
  = mkRun [] (Fulfilled 0)
  /\ eval (fun _ => gameOverPage) 0
          (inGameNight (playerInfoOf gameOverPage "Alice") [None; None] [])
     = mkRun [] (Fulfilled 0).
Proof.
  apply (@game_over_aborts (fun _ => gameOverPage) 0 (playerInfoOf gameOverPage "Alice")
                           [None; None] [] [] "Victory").
  - cbn [gameOverTexts In]. tauto.
  - exists "", "! Continue". reflexivity.
Defined.

(** ** A night of the wolf *)

(** The wolf names its partner's seat with the priest warning and sends
    the message; the partner's row is not clicked, the partner being a
    priest; the handler returns when the vote begins. *)
Example night_wolf_with_priest_partner :
  eval night 0 (inGame "Alice")
  = mkRun (map (pair 0)
             [Log "Player object:"; Log "Detected phase:"; Log "inGameNight()";
              Log "sendAction:"; SetValue 50 (Some "2 priest");
              DispatchEvent 50 "input"; DispatchEvent 50 "change";
              Log "Request click"; PerformClick 60 "left"])
          (Fulfilled 25000).
Proof. vm_compute. reflexivity. Qed.

(** ** The day vote of a wolf-coupled player *)

(** The vote of [inGameDay] once its gate has been passed. *)
Lemma inGameDay_vote (w : World) (now : Z) (playerInfo : PlayerInfo)
      (coupleElements : list (option Element)) (playerImages : list (list string))
      (allPlayerElements : list Element) (targetLover : Element) :
  gameIsOver (w now) = false ->
  isWolfCoupled playerInfo = true ->
  alreadyVotedForCouple playerImages = false ->
  at_ coupleElements (dayVoteSlot playerInfo) = Some targetLover ->
  WOLF_ROLES (coupleRole playerInfo (dayVoteSlot playerInfo)) = true
  /\ exists rest,
       trace w now (inGameDay playerInfo coupleElements playerImages allPlayerElements)
       = Log "inGameDay()" :: Log "Voting couple:"
           :: clickOutermostElement (w now) targetLover ++ rest.
Proof.
  intros Hover Hcoupled Hvoted Htarget. split.
  - unfold dayVoteSlot, isWolfCoupled in *.
    destruct (WOLF_ROLES (coupleRole1 playerInfo)) eqn:E; cbn [coupleRole]; [exact E|].
    exact Hcoupled.
  - unfold inGameDay. rewrite trace_Read, Hover, trace_Emit, Hcoupled, Hvoted.
    cbn [negb]. unfold dayVoteSlot in Htarget. rewrite Htarget.
    cbn [andThen]. rewrite andThen_emitAll, trace_Emit, trace_emitAll. eexists. reflexivity.
Qed.

(** C2, as the code has it.  In the day phase, when the player is
    wolf-coupled and no image of the player's own entry holds the pairing
    marker, the handler issues its outermost-click on the row of the first
    partner when that partner's role is in [WOLF_ROLES] and on the row of
    the second partner otherwise; in both cases the partner whose row is
    clicked is a wolf. *)
Theorem day_vote_clicks_wolf_partner (w : World) (now : Z) (playerInfo : PlayerInfo)
        (coupleElements : list (option Element)) (playerImages : list (list string))
        (allPlayerElements : list Element) (targetLover : Element) :
  dayPhase (w now) ->
  isWolfCoupled playerInfo = true ->
  alreadyVotedForCouple playerImages = false ->
  at_ coupleElements (dayVoteSlot playerInfo) = Some targetLover ->
  WOLF_ROLES (coupleRole playerInfo (dayVoteSlot playerInfo)) = true
  /\ exists rest,
       trace w now (inGameDay playerInfo coupleElements playerImages allPlayerElements)
       = Log "inGameDay()" :: Log "Voting couple:"
           :: clickOutermostElement (w now) targetLover ++ rest.
Proof.
  intros [Hstate _] Hcoupled Hvoted Htarget.
  apply inGameDay_vote; try assumption.
  now apply in_game_not_over.
Qed.

Lemma day_vote_clicks_wolf_partner_witness :
  exists bob,
    at_ (coupleElements coupledPage "Alice") 0 = Some bob
    /\ WOLF_ROLES (coupleRole (playerInfoOf coupledPage "Alice")
                              (dayVoteSlot (playerInfoOf coupledPage "Alice"))) = true
    /\ exists rest,
         trace (fun _ => coupledPage) 0
               (inGameDay (playerInfoOf coupledPage "Alice") (coupleElements coupledPage "Alice")
                          (myImageSets coupledPage "Alice") (allPlayerElements coupledPage))
         = Log "inGameDay()" :: Log "Voting couple:"
             :: clickOutermostElement coupledPage bob ++ rest.
Proof.
  eexists. split; [reflexivity|].
  apply (@day_vote_clicks_wolf_partner (fun _ => coupledPage) 0);
    [split; reflexivity | reflexivity | reflexivity | reflexivity].
Defined.

(** For the record that [inGame] builds, the row of a wolf partner is
    there to be clicked. *)
Lemma wolf_partner_row_exists d myName :
  isWolfCoupled (playerInfoOf d myName) = true ->
  exists targetLover,
    at_ (coupleElements d myName) (dayVoteSlot (playerInfoOf d myName)) = Some targetLover.
Proof.
  intros Hcoupled.
  assert (Hslot : (dayVoteSlot (playerInfoOf d myName) < 2)%nat)
    by (unfold dayVoteSlot; destruct (WOLF_ROLES _); lia).
  assert (Hwolf : WOLF_ROLES (coupleRole (playerInfoOf d myName)
                                         (dayVoteSlot (playerInfoOf d myName))) = true).
  { unfold dayVoteSlot, isWolfCoupled in *.
    destruct (WOLF_ROLES (coupleRole1 (playerInfoOf d myName))) eqn:E; cbn [coupleRole];
      [exact E | exact Hcoupled]. }
  rewrite coupleElements_partner by exact Hslot.
  rewrite coupleRole_partner in Hwolf by exact Hslot.
  destruct (partner d myName _) as [e|]; [now exists e | discriminate].
Qed.

(** The day vote as [inGame] casts it, from the page alone. *)
Lemma inGame_day_vote (w : World) (now : Z) (myName : string) :
  dayPhase (w now) ->
  isWolfCoupled (playerInfoOf (w now) myName) = true ->
  alreadyVotedForCouple (myImageSets (w now) myName) = false ->
  exists targetLover rest,
    at_ (coupleElements (w now) myName) (dayVoteSlot (playerInfoOf (w now) myName))
    = Some targetLover
    /\ WOLF_ROLES (coupleRole (playerInfoOf (w now) myName)
                              (dayVoteSlot (playerInfoOf (w now) myName))) = true
    /\ trace w now (inGame myName)
       = Log "Player object:" :: Log "Detected phase:" :: Log "inGameDay()"
           :: Log "Voting couple:" :: clickOutermostElement (w now) targetLover ++ rest.
Proof.
  intros Hday Hcoupled Hvoted.
  destruct (wolf_partner_row_exists _ _ Hcoupled) as [targetLover Htarget].
  destruct (@inGameDay_vote w now _ _ _ (allPlayerElements (w now)) _
              (in_game_not_over _ (proj1 Hday)) Hcoupled Hvoted Htarget)
    as [Hwolf [rest Htrace]].
  exists targetLover, rest. split; [exact Htarget|]. split; [exact Hwolf|].
  unfold inGame. rewrite trace_Read, !trace_Emit. destruct Hday as [_ ->].
  now rewrite Htrace.
Qed.

(** C2 as it is worded fails: on [coupledPage] the non-wolf partner
    is Carol, whose row holds the control 21, but the one click of the
    handler goes to the control 11 in the row of Bob, the wolf. *)
Lemma day_vote_counterexample :
  let info := playerInfoOf coupledPage "Alice" in
  determineGameState coupledPage = IN_GAME
  /\ isDay coupledPage = true
  /\ coupleRole1 info = Some Wolf
  /\ coupleRole2 info = Some Priest
  /\ alreadyVotedForCouple (myImageSets coupledPage "Alice") = false
  /\ option_map (clickOutermostElement coupledPage) (at_ (coupleElements coupledPage "Alice") 1)
     = Some [Log "Request click"; PerformClick 21 "left"]
  /\ trace (fun _ => coupledPage) 0 (inGame "Alice")
     = [Log "Player object:"; Log "Detected phase:"; Log "inGameDay()"; Log "Voting couple:";
        Log "Request click"; PerformClick 11 "left"]
  /\ ~ In (PerformClick 21 "left") (trace (fun _ => coupledPage) 0 (inGame "Alice")).
Proof.
  cbv zeta.
  assert (T : trace (fun _ => coupledPage) 0 (inGame "Alice")
              = [Log "Player object:"; Log "Detected phase:"; Log "inGameDay()";
                 Log "Voting couple:"; Log "Request click"; PerformClick 11 "left"])
    by (vm_compute; reflexivity).
  rewrite T.
  repeat (split; [vm_compute; reflexivity|]).
  intros H. cbn [In] in H.
  repeat (destruct H as [H|H]; [discriminate|]). exact H.
Qed.

(** ** The day signal of a wolf *)

Lemma sameNumber_spec num n : sameNumber num n = true <-> n = Some num.
Proof.
  destruct n as [s|]; cbn [sameNumber]; [|split; discriminate].
  rewrite String.eqb_eq. split; [now intros -> | intros H; now injection H].
Qed.

Lemma ownNumberMentioned_spec d playerInfo :
  match mentionedNumbers d with
  | Some nums => existsb (fun num => sameNumber num (number playerInfo)) nums
  | None => false
  end = true <-> ownNumberMentioned d playerInfo.
Proof.
  unfold mentionedNumbers, ownNumberMentioned.
  destruct (getMessages d) as [messages|]; cbn [option_map].
  - rewrite existsb_exists. split.
    + intros [token [Hin Hsame]]. apply in_flat_map in Hin. destruct Hin as [msg [Hmsg Htok]].
      apply sameNumber_spec in Hsame. now exists messages, msg, token.
    + intros [messages' [msg [token [Hm [Hmsg [Htok Hnum]]]]]]. injection Hm as <-.
      exists token. split; [apply in_flat_map; now exists msg | now apply sameNumber_spec].
  - split; [discriminate|]. intros [messages [msg [token [H _]]]]. discriminate.
Qed.

(** C5.  In the day phase, for a player whose role is in [WOLF_ROLES] and
    who is not wolf-coupled: when the chat transcript holds a token of one
    or two digits equal to the player's own seat number, the handler issues
    nothing but its log line, so no write to the chat box and no send
    click; otherwise, on a page with a chat box, it writes the player's own
    seat number into the chat box, fires the input and change events and
    issues the send click, and nothing after that. *)
Theorem day_wolf_signals_once (w : World) (now : Z) (playerInfo : PlayerInfo)
        (coupleElements : list (option Element)) (playerImages : list (list string))
        (allPlayerElements : list Element) :
  dayPhase (w now) ->
  WOLF_ROLES (Some (role playerInfo)) = true ->
  isWolfCoupled playerInfo = false ->
  (ownNumberMentioned (w now) playerInfo ->
   eval w now (inGameDay playerInfo coupleElements playerImages allPlayerElements)
   = mkRun [(now, Log "inGameDay()")] (Fulfilled now))
  /\ (~ ownNumberMentioned (w now) playerInfo ->
      forall chatInput others,
        documentQuery (selTag "textarea") (w now) = chatInput :: others ->
        eval w now (inGameDay playerInfo coupleElements playerImages allPlayerElements)
        = mkRun (map (pair now)
                   ([Log "inGameDay()"; Log "Wolf sending number:";
                     SetValue (uid (attrs chatInput)) (number playerInfo);
                     DispatchEvent (uid (attrs chatInput)) "input";
                     DispatchEvent (uid (attrs chatInput)) "change"]
                    ++ clickElementByImage (w now) "icon_send"))
                (Fulfilled (now + 500))).
Proof.
  intros [Hstate _] Hwolf Hcoupled.
  pose proof (in_game_not_over _ Hstate) as Hover. split.
  - intros Hm. apply ownNumberMentioned_spec in Hm.
    unfold inGameDay. cbn [eval]. rewrite Hover, Hcoupled. cbn [negb].
    rewrite Hwolf, Hm. reflexivity.
  - intros Hm chatInput others Hchat.
    assert (Hb : match mentionedNumbers (w now) with
                 | Some nums => existsb (fun num => sameNumber num (number playerInfo)) nums
                 | None => false
                 end = false).
    { destruct (match mentionedNumbers (w now) with Some _ => _ | None => _ end) eqn:E;
        [|reflexivity].
      apply ownNumberMentioned_spec in E. contradiction. }
    unfold inGameDay. cbn [eval]. rewrite Hover, Hcoupled. cbn [negb].
    rewrite Hwolf, Hb. cbn [eval]. unfold typeAndSend. rewrite Hchat.
    cbn [eval events outcome]. rewrite eval_emitAll. cbn [eval events outcome map app].
    rewrite app_nil_r. reflexivity.
Qed.

Lemma day_wolf_signals_once_witness :
  role (playerInfoOf (wolfPage " all quiet") "Alice") = Wolf
  /\ number (playerInfoOf (wolfPage " all quiet") "Alice") = Some "1"
  /\ eval (fun _ => wolfPage " vote 1 please") 0
          (inGameDay (playerInfoOf (wolfPage " vote 1 please") "Alice") [] [] [])
     = mkRun [(0, Log "inGameDay()")] (Fulfilled 0)
  /\ eval (fun _ => wolfPage " all quiet") 0
          (inGameDay (playerInfoOf (wolfPage " all quiet") "Alice") [] [] [])
     = mkRun (map (pair 0)
                [Log "inGameDay()"; Log "Wolf sending number:";
                 SetValue 50 (Some "1"); DispatchEvent 50 "input"; DispatchEvent 50 "change";
                 Log "Request click"; PerformClick 60 "left"])
             (Fulfilled 500).
Proof.
  split; [reflexivity|]. split; [reflexivity|]. split.
  - apply (proj1 (@day_wolf_signals_once (fun _ => wolfPage " vote 1 please") 0
                    (playerInfoOf (wolfPage " vote 1 please") "Alice") [] [] []
                    (conj eq_refl eq_refl) eq_refl eq_refl)).
    exists ["vote 1 please"], "vote 1 please", "1". repeat split; try reflexivity; now left.
  - refine (proj2 (@day_wolf_signals_once (fun _ => wolfPage " all quiet") 0
                    (playerInfoOf (wolfPage " all quiet") "Alice") [] [] []
                    (conj eq_refl eq_refl) eq_refl eq_refl) _ _ _ eq_refl).
    intros H. apply ownNumberMentioned_spec in H. discriminate.
Defined.

(** ** The shooter *)

(** With a positive interval a wait in virtual time always resolves, and
    not before it began. *)
Lemma awaitCondition_total R (w : World) (conditionFn : Dom -> option R)
      (timeout interval : Z) (cancel : CancelConditions) (now : Z) :
  0 < interval ->
  exists t r, awaitCondition w conditionFn timeout interval cancel now = Some (t, r) /\ now <= t.
Proof.
  intros Hpos. unfold awaitCondition, waitForCondition.
  set (K := S (Z.to_nat (timeout / interval))).
  assert (HK : check conditionFn timeout cancel now
                     (fst (virtualTicks w now interval K))
                     (snd (virtualTicks w now interval K)) <> Rearm).
  { unfold check. destruct (conditionFn _); [discriminate|].
    destruct (cancelled _ _); [discriminate|].
    destruct (Z.geb_spec (fst (virtualTicks w now interval K) - now) timeout) as [|Hlt];
      [discriminate|].
    exfalso. unfold virtualTicks in Hlt. cbn [fst] in Hlt. subst K.
    rewrite Z.max_r in Hlt by lia.
    pose proof (Z.mul_succ_div_gt timeout interval Hpos) as Hdiv.
    destruct (Z_lt_le_dec timeout 0) as [Hneg|Hnn].
    - nia.
    - rewrite Nat2Z.inj_succ, Z2Nat.id in Hlt by (apply Z.div_pos; lia). nia. }
  destruct (@polls_reach R conditionFn timeout cancel (virtualTicks w now interval) now K HK
                        (pollBudget timeout interval) O) as [k [r [Hrun Hle]]].
  - lia.
  - unfold pollBudget. rewrite Z.max_r by lia. subst K. lia.
  - rewrite Hrun. eexists _, r. split; [reflexivity|].
    unfold virtualTicks. cbn [fst]. nia.
Qed.

Lemma thresholds_app a b : thresholds (a ++ b) = thresholds a ++ thresholds b.
Proof. unfold thresholds. apply flat_map_app. Qed.

Lemma thresholds_cons_count m n l : thresholds (LogCount m n :: l) = n :: thresholds l.
Proof. reflexivity. Qed.

Lemma thresholds_cons_log m l : thresholds (Log m :: l) = thresholds l.
Proof. reflexivity. Qed.

Lemma thresholds_click e : thresholds (click e) = [].
Proof. unfold click. now destruct (_ || _). Qed.

Lemma thresholds_clickElementByImage d key : thresholds (clickElementByImage d key) = [].
Proof. unfold clickElementByImage. destruct (find _ _); [apply thresholds_click | reflexivity]. Qed.

Lemma thresholds_clickElementByImageInElement d c key :
  thresholds (clickElementByImageInElement d c key) = [].
Proof.
  unfold clickElementByImageInElement.
  destruct (find _ _); [|reflexivity].
  destruct (closest _ _); [|reflexivity].
  destruct (negb _); [apply thresholds_click | reflexivity].
Qed.

Lemma thresholds_timed (now : Z) acts :
  thresholds (map snd (map (pair now) acts)) = thresholds acts.
Proof. rewrite map_map. cbn [snd]. now rewrite map_id. Qed.

Ltac thresholds_simpl :=
  repeat (cbn [events map snd app];
          rewrite ?thresholds_cons_count, ?thresholds_cons_log, ?map_app, ?thresholds_app,
            ?thresholds_timed, ?thresholds_clickElementByImage,
            ?thresholds_clickElementByImageInElement).

Lemma shooterAction_body playerInfo coupleElements allPlayerElements n :
  shooterAction playerInfo coupleElements allPlayerElements n =
  Emit (LogCount "shooterAction: looking for vote marker(s)" n)
    (if Z_gt_dec n 4 then Done else
     waitForImageCountInDOM VOTE_MARKER_IMG n 90000 200 (CancelText "Continue")
        (fun _ => Read (fun d =>
         if gameIsOver d then Done else
         Emit (Log "Clicking bullet icon...")
         (emitAll (clickElementByImage d "gunner_bullet")
         (Sleep 200 (Read (fun d' =>
          match shooterTarget d' playerInfo coupleElements allPlayerElements with
          | Some target =>
              Emit (Log "Shooter found target:")
              (emitAll (clickElementByImageInElement d' target "gunner_voting_shoot") Done)
          | None =>
              Sleep 500 (shooterAction playerInfo coupleElements allPlayerElements (n + 1))
          end))))))).
Proof.
  rewrite shooterAction_equation_1. destruct (Z_gt_dec n 4); reflexivity.
Qed.

Lemma shooterAction_run w playerInfo coupleElements allPlayerElements (m : nat) :
  forall n now, (retriesLeft n <= m)%nat ->
  exists t j,
    outcome (eval w now (shooterAction playerInfo coupleElements allPlayerElements n))
    = Fulfilled t
    /\ thresholdsOf (eval w now (shooterAction playerInfo coupleElements allPlayerElements n))
       = countUp n (S j)
    /\ Z.of_nat j <= Z.max 0 (5 - n).
Proof.
  induction m as [|m IH]; intros n now Hm; rewrite shooterAction_body;
    unfold retriesLeft in Hm.
  - destruct (Z_gt_dec n 4) as [Hgt|Hle]; [|lia].
    exists now, O. cbn. repeat split; lia.
  - destruct (Z_gt_dec n 4) as [Hgt|Hle].
    + exists now, O. cbn. repeat split; lia.
    + unfold waitForImageCountInDOM. cbn [eval].
      destruct (@awaitCondition_total _ w
                  (fun d => collectImages VOTE_MARKER_IMG n (documentQuery (selTag "img") d) [])
                  90000 200 (CancelText "Continue") now ltac:(lia)) as [t1 [r [Hwait Hle1]]].
      rewrite Hwait. cbn [eval].
      destruct (gameIsOver (w t1)).
      * exists t1, O. cbn. repeat split; lia.
      * cbn [eval]. rewrite eval_emitAll. cbn [eval events outcome].
        destruct (shooterTarget _ _ _ _) as [target|].
        -- cbn [eval]. rewrite eval_emitAll. cbn [eval events outcome].
           eexists _, O. split; [reflexivity|]. split; [|lia].
           unfold thresholdsOf. thresholds_simpl. reflexivity.
        -- cbn [eval].
           destruct (IH (n + 1) (t1 + Z.max 0 200 + Z.max 0 500)) as [t [j [Hout [Hthr Hj]]]].
           { unfold retriesLeft. lia. }
           exists t, (S j). split; [exact Hout|]. split; [|lia].
           unfold thresholdsOf in *. thresholds_simpl.
           rewrite Hthr. reflexivity.
Qed.

(** C9.  [shooterAction] returns at once, after its log line and without
    any wait or click, whenever the threshold exceeds 4.  Every invocation
    settles, and the thresholds it and its retries log are consecutive:
    each retry adds 1, and there are at most [5 - n] retries from the
    threshold [n].  From the initial threshold 2 there are at most three
    retries, with the thresholds 3, 4 and 5, of which the last returns at
    once. *)
Theorem shooterAction_terminates (w : World) (now : Z) (playerInfo : PlayerInfo)
        (coupleElements : list (option Element)) (allPlayerElements : list Element) :
  (forall n, n > 4 ->
     eval w now (shooterAction playerInfo coupleElements allPlayerElements n)
     = mkRun [(now, LogCount "shooterAction: looking for vote marker(s)" n)] (Fulfilled now))
  /\ (forall n, exists t j,
        outcome (eval w now (shooterAction playerInfo coupleElements allPlayerElements n))
        = Fulfilled t
        /\ thresholdsOf (eval w now (shooterAction playerInfo coupleElements allPlayerElements n))
           = countUp n (S j)
        /\ Z.of_nat j <= Z.max 0 (5 - n))
  /\ exists t retries,
       (retries <= 3)%nat
       /\ outcome (eval w now (shooterAction playerInfo coupleElements allPlayerElements 2))
          = Fulfilled t
       /\ thresholdsOf (eval w now (shooterAction playerInfo coupleElements allPlayerElements 2))
          = firstn (S retries) [2; 3; 4; 5].
Proof.
  split; [|split].
  - intros n Hn. rewrite shooterAction_body. destruct (Z_gt_dec n 4); [reflexivity | lia].
  - intros n. apply (@shooterAction_run w playerInfo coupleElements allPlayerElements
                                        (retriesLeft n) n now). lia.
  - destruct (@shooterAction_run w playerInfo coupleElements allPlayerElements
                                 (retriesLeft 2) 2 now ltac:(lia)) as [t [j [Hout [Hthr Hj]]]].
    exists t, j. split; [lia|]. split; [exact Hout|]. rewrite Hthr.
    destruct j as [|[|[|[|j]]]]; try reflexivity. lia.
Qed.

Lemma shooterAction_terminates_witness :
  eval (fun _ => quietDay) 0 (shooterAction (playerInfoOf quietDay "Alice") [] [] 5)
  = mkRun [(0, LogCount "shooterAction: looking for vote marker(s)" 5)] (Fulfilled 0).
Proof.
  apply (proj1 (@shooterAction_terminates (fun _ => quietDay) 0
                  (playerInfoOf quietDay "Alice") [] [])).
  lia.
Defined.

(** The run with three timeouts: nobody is ever voted for, every wait runs
    out after 90 seconds and the fourth invocation, with the threshold 5,
    returns at once. *)
Example shooterAction_quiet_day :
  let r := eval (fun _ => quietDay) 0
                (shooterAction (playerInfoOf quietDay "Alice") [] (allPlayerElements quietDay) 2) in
  thresholdsOf r = [2; 3; 4; 5] /\ outcome r = Fulfilled 272100.
Proof. vm_compute. split; reflexivity. Qed.

(** ** The lobby ceiling *)

Section LobbyCeiling.

Variables playAgain customLobby handleHomeScreen handleGameScreen : Prog.
Variable myName : string.









End LobbyCeiling.



(* ===================================================================== *)
(** * Further properties *)
(* ===================================================================== *)

(** ** The click helpers *)

Lemma click_cases element :
  (click element = [Log "Click skipped: Element has no dimensions or is not on screen."]
   /\ (rectWidth (layout (attrs element)) = 0 \/ rectHeight (layout (attrs element)) = 0))
  \/ (click element = [Log "Request click"; PerformClick (uid (attrs element)) "left"]
      /\ rectWidth (layout (attrs element)) <> 0
      /\ rectHeight (layout (attrs element)) <> 0).
Proof.
  unfold click.
  destruct (Z.eqb_spec (rectWidth (layout (attrs element))) 0) as [Hw|Hw]; cbn [orb].
  - left. auto.
  - destruct (Z.eqb_spec (rectHeight (layout (attrs element))) 0) as [Hh|Hh].
    + left. auto.
    + right. auto.
Qed.

Lemma click_among (candidates : Element -> Prop) e :
  candidates e -> disabled (attrs e) = false ->
  clicksAmong candidates (click e) /\ (length (filter isClick (click e)) <= 1)%nat.
Proof.
  intros Hc Hd. destruct (click_cases e) as [[-> _]|[-> [Hw Hh]]].
  - split; [|cbn; lia]. intros a [<-|[]]. exact I.
  - split; [|cbn; lia]. intros a [<-|[<-|[]]]; [exact I|].
    split; [reflexivity|]. exists e. auto.
Qed.

Lemma nil_among (candidates : Element -> Prop) :
  clicksAmong candidates [] /\ (length (filter isClick []) <= 1)%nat.
Proof. split; [intros a [] | cbn; lia]. Qed.

Lemma outermost_firstMin c rest seen best :
  FirstMin (depthBelow c) seen best ->
  FirstMin (depthBelow c) (seen ++ rest)
           (outermost c rest best (Some (depthBelow c best))).
Proof.
  revert seen best. induction rest as [|el rest IH]; intros seen best Hmin; cbn [outermost].
  - now rewrite app_nil_r.
  - replace (seen ++ el :: rest) with ((seen ++ [el]) ++ rest)
      by (rewrite <- app_assoc; reflexivity).
    destruct Hmin as [pre [post [Hseen [Hpre Hpost]]]].
    destruct (Nat.ltb_spec (depthBelow c el) (depthBelow c best)) as [Hlt|Hge].
    + apply IH. exists seen, []. split; [reflexivity|]. split; [|intros x []].
      intros x Hx. rewrite Hseen in Hx. apply in_app_or in Hx.
      destruct Hx as [Hx|[<-|Hx]]; [specialize (Hpre x Hx) | | specialize (Hpost x Hx)]; lia.
    + apply IH. exists pre, (post ++ [el]). split; [|split; [exact Hpre|]].
      * rewrite Hseen, <- app_assoc. reflexivity.
      * intros x Hx. apply in_app_or in Hx. destruct Hx as [Hx|[<-|[]]]; [auto | lia].
Qed.

Lemma deepest_firstMax rest seen best :
  FirstMax depth seen best ->
  FirstMax depth (seen ++ rest) (deepest rest best (depth best)).
Proof.
  revert seen best. induction rest as [|el rest IH]; intros seen best Hmax; cbn [deepest].
  - now rewrite app_nil_r.
  - replace (seen ++ el :: rest) with ((seen ++ [el]) ++ rest)
      by (rewrite <- app_assoc; reflexivity).
    destruct Hmax as [pre [post [Hseen [Hpre Hpost]]]].
    destruct (Nat.ltb_spec (depth best) (depth el)) as [Hlt|Hge].
    + apply IH. exists seen, []. split; [reflexivity|]. split; [|intros x []].
      intros x Hx. rewrite Hseen in Hx. apply in_app_or in Hx.
      destruct Hx as [Hx|[<-|Hx]]; [specialize (Hpre x Hx) | | specialize (Hpost x Hx)]; lia.
    + apply IH. exists pre, (post ++ [el]). split; [|split; [exact Hpre|]].
      * rewrite Hseen, <- app_assoc. reflexivity.
      * intros x Hx. apply in_app_or in Hx. destruct Hx as [Hx|[<-|[]]]; [auto | lia].
Qed.

Lemma FirstMin_In {A} (f : A -> nat) xs r : FirstMin f xs r -> In r xs.
Proof. intros [pre [post [-> _]]]. apply in_elt. Qed.

Lemma FirstMax_In {A} (f : A -> nat) xs r : FirstMax f xs r -> In r xs.
Proof. intros [pre [post [-> _]]]. apply in_elt. Qed.

Lemma clickOutermostElement_choice (d : Dom) (container : Element) :
  let c := deref d container in
  let candidates := filter (fun el => negb (disabled (attrs el))) (querySelectorAll selTab0 c) in
  (candidates = [] -> clickOutermostElement d container = [])
  /\ (candidates <> [] ->
      exists chosen,
        FirstMin (depthBelow c) candidates chosen
        /\ clickOutermostElement d container = click chosen).
Proof.
  cbv zeta. unfold clickOutermostElement.
  destruct (filter _ _) as [|first rest] eqn:E.
  - split; [reflexivity | congruence].
  - split; [discriminate|]. intros _. eexists. split; [|reflexivity].
    cbn [outermost]. apply (@outermost_firstMin (deref d container) rest [first] first).
    exists [], []. split; [reflexivity|]. split; intros x [].
Qed.

Lemma clickInnermostElementByImage_choice (d : Dom) (imageNamePart : string) :
  let candidates :=
    filter (fun el => hasImage (fun s => Js.includes s imageNamePart) el
                      && negb (disabled (attrs el)))
           (documentQuery selTab0 d) in
  (candidates = [] -> clickInnermostElementByImage d imageNamePart = [])
  /\ (candidates <> [] ->
      exists chosen,
        FirstMax depth candidates chosen
        /\ clickInnermostElementByImage d imageNamePart = click chosen).
Proof.
  cbv zeta. unfold clickInnermostElementByImage.
  destruct (filter _ _) as [|first rest] eqn:E.
  - split; [reflexivity | congruence].
  - split; [discriminate|]. intros _. eexists. split; [|reflexivity].
    cbn [deepest]. assert (H : Nat.ltb 0 (depth first) = true) by (apply Nat.ltb_lt; unfold depth; lia).
    rewrite H. apply (@deepest_firstMax rest [first] first).
    exists [], []. split; [reflexivity|]. split; intros x [].
Qed.

Lemma closestIn_sel sel chain e : closestIn sel chain = Some e -> sel (attrs e) = true.
Proof.
  induction chain as [|[a ks] up IH]; cbn [closestIn]; [discriminate|].
  destruct (sel a) eqn:E; [|exact IH]. intros H. injection H as <-. exact E.
Qed.

(** X1.  The four click helpers of the dispatcher issue at most one click
    each, always with the left button, and only on an element that carries
    [tabindex="0"], is not disabled and has a bounding box of non-zero
    width and height; apart from the click they only log.  The element is
    one of the page's controls, one of the container's, or the nearest
    control around an image of the container, as the helper has it. *)
Theorem dispatcher_clicks_enabled_controls (d : Dom) (container : Element) (key : string) :
  (clicksAmong (fun e => In e (documentQuery selTab0 d)) (clickElementByImage d key)
   /\ (length (filter isClick (clickElementByImage d key)) <= 1)%nat)
  /\ (clicksAmong (fun e => In e (documentQuery selTab0 d)) (clickInnermostElementByImage d key)
      /\ (length (filter isClick (clickInnermostElementByImage d key)) <= 1)%nat)
  /\ (clicksAmong (fun e => In e (querySelectorAll selTab0 (deref d container)))
                  (clickOutermostElement d container)
      /\ (length (filter isClick (clickOutermostElement d container)) <= 1)%nat)
  /\ (clicksAmong (fun e => selTab0 (attrs e) = true
                            /\ exists img, In img (imgsOf (deref d container))
                                           /\ closest selTab0 img = Some e)
                  (clickElementByImageInElement d container key)
      /\ (length (filter isClick (clickElementByImageInElement d container key)) <= 1)%nat).
Proof.
  split; [|split; [|split]].
  - unfold clickElementByImage. destruct (find _ _) as [e|] eqn:F; [|apply nil_among].
    apply find_some in F. destruct F as [Hin Hp]. apply andb_true_iff in Hp.
    destruct Hp as [_ Hd]. apply negb_true_iff in Hd. now apply click_among.
  - destruct (clickInnermostElementByImage_choice d key) as [Hnil Hsome].
    cbv zeta in *.
    destruct (filter _ (documentQuery selTab0 d)) as [|first rest] eqn:E.
    + rewrite (Hnil eq_refl). apply nil_among.
    + destruct (Hsome ltac:(discriminate)) as [chosen [Hmax ->]].
      apply FirstMax_In in Hmax. rewrite <- E in Hmax. apply filter_In in Hmax.
      destruct Hmax as [Hin Hp]. apply andb_true_iff in Hp. destruct Hp as [_ Hd].
      apply negb_true_iff in Hd. now apply click_among.
  - destruct (clickOutermostElement_choice d container) as [Hnil Hsome].
    cbv zeta in *.
    destruct (filter _ (querySelectorAll selTab0 (deref d container))) as [|first rest] eqn:E.
    + rewrite (Hnil eq_refl). apply nil_among.
    + destruct (Hsome ltac:(discriminate)) as [chosen [Hmin ->]].
      apply FirstMin_In in Hmin. rewrite <- E in Hmin. apply filter_In in Hmin.
      destruct Hmin as [Hin Hd]. apply negb_true_iff in Hd. now apply click_among.
  - unfold clickElementByImageInElement.
    destruct (find _ _) as [img|] eqn:F; [|apply nil_among].
    apply find_some in F. destruct F as [Hin _].
    destruct (closest selTab0 img) as [e|] eqn:C; [|apply nil_among].
    destruct (negb (disabled (attrs e))) eqn:Hd; [|apply nil_among].
    apply negb_true_iff in Hd. apply click_among; [|exact Hd].
    split; [apply (closestIn_sel _ _ C) | now exists img].
Qed.

(** X2.  [clickOutermostElement] issues nothing when the container holds
    no enabled [[tabindex="0"]] descendant.  Otherwise it settles on the
    first of those descendants, in document order, that has the least depth
    below the container, and on no other: when the width or the height of
    the bounding box of that descendant is 0 it only logs that the click is
    skipped, whatever the other descendants are like; when both are
    non-zero it logs the request and sends one left click on that
    descendant. *)
Theorem clickOutermostElement_first_shallowest (d : Dom) (container : Element) :
  let c := deref d container in
  let candidates := filter (fun el => negb (disabled (attrs el))) (querySelectorAll selTab0 c) in
  (candidates = [] -> clickOutermostElement d container = [])
  /\ (candidates <> [] ->
      exists chosen,
        FirstMin (depthBelow c) candidates chosen
        /\ clickOutermostElement d container
           = if (rectWidth (layout (attrs chosen)) =? 0)
                || (rectHeight (layout (attrs chosen)) =? 0)
             then [Log "Click skipped: Element has no dimensions or is not on screen."]
             else [Log "Request click"; PerformClick (uid (attrs chosen)) "left"]).
Proof. apply clickOutermostElement_choice. Qed.

Lemma clickOutermostElement_first_shallowest_witness :
  exists chosen,
    FirstMin (depthBelow (deref coupledPage bobRow))
             (filter (fun el => negb (disabled (attrs el)))
                     (querySelectorAll selTab0 (deref coupledPage bobRow)))
             chosen
    /\ clickOutermostElement coupledPage bobRow
       = if (rectWidth (layout (attrs chosen)) =? 0)
            || (rectHeight (layout (attrs chosen)) =? 0)
         then [Log "Click skipped: Element has no dimensions or is not on screen."]
         else [Log "Request click"; PerformClick (uid (attrs chosen)) "left"].
Proof.
  apply (proj2 (clickOutermostElement_first_shallowest coupledPage bobRow)).
  vm_compute. discriminate.
Defined.

(** X3.  [clickInnermostElementByImage] issues nothing when no enabled
    [[tabindex="0"]] element holds an image whose source contains the name.
    Otherwise it settles on the first of those elements, in document order,
    that lies deepest in the page, and on no other: when the width or the
    height of the bounding box of that element is 0 it only logs that the
    click is skipped, whatever the other elements are like; when both are
    non-zero it logs the request and sends one left click on that
    element. *)
Theorem clickInnermostElementByImage_first_deepest (d : Dom) (imageNamePart : string) :
  let candidates :=
    filter (fun el => hasImage (fun s => Js.includes s imageNamePart) el
                      && negb (disabled (attrs el)))
           (documentQuery selTab0 d) in
  (candidates = [] -> clickInnermostElementByImage d imageNamePart = [])
  /\ (candidates <> [] ->
      exists chosen,
        FirstMax depth candidates chosen
        /\ clickInnermostElementByImage d imageNamePart
           = if (rectWidth (layout (attrs chosen)) =? 0)
                || (rectHeight (layout (attrs chosen)) =? 0)
             then [Log "Click skipped: Element has no dimensions or is not on screen."]
             else [Log "Request click"; PerformClick (uid (attrs chosen)) "left"]).
Proof. apply clickInnermostElementByImage_choice. Qed.

Lemma clickInnermostElementByImage_first_deepest_witness :
  exists chosen,
    FirstMax depth
             (filter (fun el => hasImage (fun s => Js.includes s "cupid") el
                                && negb (disabled (attrs el)))
                     (documentQuery selTab0 roleSelectionPage))
             chosen
    /\ clickInnermostElementByImage roleSelectionPage "cupid"
       = if (rectWidth (layout (attrs chosen)) =? 0)
            || (rectHeight (layout (attrs chosen)) =? 0)
         then [Log "Click skipped: Element has no dimensions or is not on screen."]
         else [Log "Request click"; PerformClick (uid (attrs chosen)) "left"].
Proof.
  apply (proj2 (clickInnermostElementByImage_first_deepest roleSelectionPage "cupid")).
  vm_compute. discriminate.
Defined.

(** ** Runs, event by event *)

Lemma merge_In x child parent : In x (merge child parent) <-> In x child \/ In x parent.
Proof.
  revert parent. induction child as [|c child IH]; intros parent.
  - destruct parent; cbn [merge In]; tauto.
  - induction parent as [|p parent IHp].
    + cbn [merge In]. tauto.
    + cbn [merge]. destruct (fst c <=? fst p).
      * cbn [In]. rewrite IH. cbn [In]. tauto.
      * cbn [In] in *. cbn [merge] in IHp. rewrite IHp. tauto.
Qed.

Lemma merge_Forall (P : Z * Action -> Prop) child parent :
  Forall P (merge child parent) <-> Forall P child /\ Forall P parent.
Proof.
  rewrite !Forall_forall. split.
  - intros H. split; intros x Hx; apply H; apply merge_In; tauto.
  - intros [Hc Hp] x Hx. apply merge_In in Hx. destruct Hx; auto.
Qed.

Section AllEvents.

Variable w : World.
Variable Q : Z -> Action -> Prop.

Lemma allEvents_Emit now a k :
  Q now a -> allEvents Q (eval w now k) -> allEvents Q (eval w now (Emit a k)).
Proof. intros Ha Hk. constructor; assumption. Qed.

Lemma allEvents_Read now k :
  allEvents Q (eval w now (k (w now))) -> allEvents Q (eval w now (Read k)).
Proof. intros H. exact H. Qed.

Lemma allEvents_Now now k :
  allEvents Q (eval w now (k now)) -> allEvents Q (eval w now (Now k)).
Proof. intros H. exact H. Qed.

Lemma allEvents_Sleep now ms k :
  allEvents Q (eval w (now + Z.max 0 ms) k) -> allEvents Q (eval w now (Sleep ms k)).
Proof. intros H. exact H. Qed.

Lemma allEvents_emitAll now acts k :
  (forall a, In a acts -> Q now a) -> allEvents Q (eval w now k) ->
  allEvents Q (eval w now (emitAll acts k)).
Proof.
  intros Ha Hk. unfold allEvents. rewrite eval_emitAll. cbn [events].
  apply Forall_app. split; [|exact Hk].
  apply Forall_forall. intros e He. apply in_map_iff in He.
  destruct He as [a [<- Hin]]. now apply Ha.
Qed.

Lemma allEvents_WaitFor now R (c : Dom -> option R) t i x k :
  (forall t' r, allEvents Q (eval w t' (k r))) ->
  allEvents Q (eval w now (WaitFor c t i x k)).
Proof.
  intros Hk. cbn [eval].
  destruct (awaitCondition w c t i x now) as [[t' r]|]; [apply Hk | constructor].
Qed.

Lemma allEvents_Fork now c k :
  allEvents Q (eval w now c) -> allEvents Q (eval w now k) ->
  allEvents Q (eval w now (Fork c k)).
Proof. intros Hc Hk. apply merge_Forall. now split. Qed.

Lemma allEvents_andThen p q :
  (forall t, allEvents Q (eval w t q)) ->
  forall now, allEvents Q (eval w now p) -> allEvents Q (eval w now (andThen p q)).
Proof.
  intros Hq.
  induction p as [| m | a k IH | k IH | k IH | ms k IH | R c t i x k IH | c _ k IH];
    intros now Hp; cbn [andThen].
  - apply Hq.
  - constructor.
  - inversion Hp; subst. constructor; [assumption|]. now apply IH.
  - cbn [eval] in *. now apply IH.
  - cbn [eval] in *. now apply IH.
  - cbn [eval] in *. now apply IH.
  - cbn [eval] in *.
    destruct (awaitCondition w c t i x now) as [[t' r]|]; [now apply IH | constructor].
  - unfold allEvents in *. cbn [eval events] in *.
    apply merge_Forall in Hp. destruct Hp as [Hc Hk].
    apply merge_Forall. split; [exact Hc | now apply IH].
Qed.

Lemma allEvents_tryCatch p h :
  (forall t m, allEvents Q (eval w t (h m))) ->
  forall now, allEvents Q (eval w now p) -> allEvents Q (eval w now (tryCatch p h)).
Proof.
  intros Hh.
  induction p as [| m | a k IH | k IH | k IH | ms k IH | R c t i x k IH | c _ k IH];
    intros now Hp; cbn [tryCatch].
  - constructor.
  - apply Hh.
  - inversion Hp; subst. constructor; [assumption|]. now apply IH.
  - cbn [eval] in *. now apply IH.
  - cbn [eval] in *. now apply IH.
  - cbn [eval] in *. now apply IH.
  - cbn [eval] in *.
    destruct (awaitCondition w c t i x now) as [[t' r]|]; [now apply IH | constructor].
  - unfold allEvents in *. cbn [eval events] in *.
    apply merge_Forall in Hp. destruct Hp as [Hc Hk].
    apply merge_Forall. split; [exact Hc | now apply IH].
Qed.

Lemma allEvents_weaken (Q' : Z -> Action -> Prop) r :
  (forall t a, Q t a -> Q' t a) -> allEvents Q r -> allEvents Q' r.
Proof. intros H. unfold allEvents. apply Forall_impl. intros e. apply H. Qed.

End AllEvents.

(** The outcome of a sequence is that of its second part, started when the
    first part is fulfilled. *)
Lemma outcome_andThen w p q :
  forall now,
  outcome (eval w now (andThen p q)) =
  match outcome (eval w now p) with
  | Fulfilled t => outcome (eval w t q)
  | o => o
  end.
Proof.
  induction p as [| m | a k IH | k IH | k IH | ms k IH | R c t i x k IH | c _ k IH];
    intros now; cbn [andThen eval outcome]; try reflexivity; try apply IH.
  destruct (awaitCondition w c t i x now) as [[t' r]|]; [apply IH | reflexivity].
Qed.

Lemma outcome_tryCatch w p h :
  forall now,
  outcome (eval w now (tryCatch p h)) =
  match outcome (eval w now p) with
  | Rejected t m => outcome (eval w t (h m))
  | o => o
  end.
Proof.
  induction p as [| m | a k IH | k IH | k IH | ms k IH | R c t i x k IH | c _ k IH];
    intros now; cbn [tryCatch eval outcome]; try reflexivity; try apply IH.
  destruct (awaitCondition w c t i x now) as [[t' r]|]; [apply IH | reflexivity].
Qed.

(** What the handler of a [try] emits is part of the run. *)
Lemma events_tryCatch w p h e :
  forall now t m,
  outcome (eval w now p) = Rejected t m ->
  In e (events (eval w t (h m))) ->
  In e (events (eval w now (tryCatch p h))).
Proof.
  induction p as [| m0 | a k IH | k IH | k IH | ms k IH | R c t0 i x k IH | c _ k IH];
    intros now t m Hout Hin; cbn [tryCatch eval outcome events] in *.
  - discriminate.
  - injection Hout as <- <-. exact Hin.
  - right. eapply IH; eauto.
  - eapply IH; eauto.
  - eapply IH; eauto.
  - eapply IH; eauto.
  - destruct (awaitCondition w c t0 i x now) as [[t' r]|]; [eapply IH; eauto | discriminate].
  - apply merge_In. right. eapply IH; eauto.
Qed.

Lemma events_andThen_left w p q e :
  forall now, In e (events (eval w now p)) -> In e (events (eval w now (andThen p q))).
Proof.
  induction p as [| m0 | a k IH | k IH | k IH | ms k IH | R c t0 i x k IH | c _ k IH];
    intros now Hin; cbn [andThen eval outcome events] in *.
  - destruct Hin.
  - exact Hin.
  - destruct Hin as [<-|Hin]; [now left | right; now apply IH].
  - now apply IH.
  - now apply IH.
  - now apply IH.
  - destruct (awaitCondition w c t0 i x now) as [[t' r]|]; [now apply IH | destruct Hin].
  - apply merge_In in Hin. apply merge_In. destruct Hin as [Hin|Hin]; [now left | right; now apply IH].
Qed.

(** ** The main loop survives a failing cycle *)

Section LoopFacts.

Variables playAgain customLobby handleHomeScreen handleGameScreen : Prog.

Lemma loop_notRejected w n :
  forall myName ts now,
  notRejected (outcome (eval w now (loop playAgain customLobby handleHomeScreen handleGameScreen
                                         n myName ts))).
Proof.
  induction n as [|n IH]; intros myName ts now; cbn [loop eval]; [exact I|].
  rewrite outcome_andThen, outcome_tryCatch.
  destruct (outcome (eval w now (snd (main _ _ _ _ myName ts now (w now))))) as [t|t m|];
    cbn [eval outcome]; [apply IH | apply IH | exact I].
Qed.

End LoopFacts.

(** X4.  An exception in [main] never leaves the loop of [startBot]: no run
    of the loop is rejected, whatever the handlers do.  When the call of
    [main] in a cycle throws at time [t], the error is logged at [t] and the
    next cycle starts 1500 ms later with the timestamp that [main] left. *)
Theorem loop_survives_errors (playAgain customLobby handleHomeScreen handleGameScreen : Prog)
        (w : World) (myName : string) (ts : option Z) (now : Z) (n : nat) :
  notRejected (outcome (eval w now (loop playAgain customLobby handleHomeScreen
                                         handleGameScreen n myName ts)))
  /\ forall t m,
       outcome (eval w now (snd (main playAgain customLobby handleHomeScreen handleGameScreen
                                      myName ts now (w now)))) = Rejected t m ->
       In (t, Log "main() error:")
          (events (eval w now (loop playAgain customLobby handleHomeScreen handleGameScreen
                                    (S n) myName ts)))
       /\ outcome (eval w now (loop playAgain customLobby handleHomeScreen handleGameScreen
                                    (S n) myName ts))
          = outcome (eval w (t + 1500)
                          (loop playAgain customLobby handleHomeScreen handleGameScreen n myName
                                (fst (main playAgain customLobby handleHomeScreen
                                           handleGameScreen myName ts now (w now))))).
Proof.
  split; [apply loop_notRejected|].
  intros t m Hrej. cbn [loop eval]. split.
  - apply events_andThen_left.
    apply (@events_tryCatch w _ _ _ now t m Hrej). now left.
  - rewrite outcome_andThen, outcome_tryCatch, Hrej. reflexivity.
Qed.

Lemma loop_survives_errors_witness :
  In (0, Log "main() error:")
     (events (eval (fun _ => gameOverPage) 0 (loop failingHandler Done Done Done 2 "Alice" None)))
  /\ outcome (eval (fun _ => gameOverPage) 0 (loop failingHandler Done Done Done 2 "Alice" None))
     = outcome (eval (fun _ => gameOverPage) (0 + 1500)
                     (loop failingHandler Done Done Done 1 "Alice"
                        (fst (main failingHandler Done Done Done "Alice" None 0 gameOverPage)))).
Proof.
  apply (proj2 (@loop_survives_errors failingHandler Done Done Done (fun _ => gameOverPage)
                                      "Alice" None 0 1%nat) 0 "TypeError").
  reflexivity.
Defined.

(** ** What the phase handlers never do *)

Lemma guardJuniorWerewolf_priest d partnerElement players k :
  guardJuniorWerewolf d true partnerElement players k = k.
Proof.
  induction players as [|p players IH]; cbn [guardJuniorWerewolf]; [reflexivity|].
  cbn [negb]. rewrite andb_false_r. exact IH.
Qed.

Lemma click_actions e a :
  In a (click e) -> match a with Log _ | PerformClick _ _ => True | _ => False end.
Proof.
  destruct (click_cases e) as [[-> _]|[-> _]]; cbn [In]; intros H;
    repeat (destruct H as [<-|H]; [exact I|]); destruct H.
Qed.

Lemma clickElementByImage_actions d key a :
  In a (clickElementByImage d key) ->
  match a with Log _ | PerformClick _ _ => True | _ => False end.
Proof.
  unfold clickElementByImage. destruct (find _ _); [apply click_actions | intros []].
Qed.

Lemma clickElementByImageInElement_actions d c key a :
  In a (clickElementByImageInElement d c key) ->
  match a with Log _ | PerformClick _ _ => True | _ => False end.
Proof.
  unfold clickElementByImageInElement.
  destruct (find _ _); [|intros []].
  destruct (closest _ _); [|intros []].
  destruct (negb _); [apply click_actions | intros []].
Qed.

(** X5.  A wolf that is paired with a priest never clicks a partner's row
    at night: whatever the page does, every click of [inGameNight] is the
    press of the send button, every message it types ends in the priest
    warning, and it never reloads the page. *)
Theorem wolf_spares_priest_partner (w : World) (now : Z) (playerInfo : PlayerInfo)
        (coupleElements : list (option Element)) (allPlayerElements : list Element) :
  role playerInfo = Wolf ->
  priestCoupled playerInfo = true ->
  allEvents (priestNight w)
            (eval w now (inGameNight playerInfo coupleElements allPlayerElements)).
Proof.
  intros Hrole Hpriest. unfold inGameNight. cbn [eval].
  destruct (gameIsOver (w now)); [constructor|].
  apply allEvents_Emit; [exact I|]. rewrite Hrole.
  unfold waitForTextInDOM at 1. apply allEvents_WaitFor. intros t1 _. cbn [eval].
  destruct (gameIsOver (w t1) || findTextInDocument (w t1) "Voting"); [constructor|].
  destruct (bothPartnersWolvesOrSolo playerInfo); [constructor|].
  change (match coupleRole1 playerInfo with
          | Some Priest => true
          | _ => match coupleRole2 playerInfo with Some Priest => true | _ => false end
          end) with (priestCoupled playerInfo).
  apply allEvents_Fork.
  - unfold sendMessageAndAct. cbn [eval].
    destruct (gameIsOver (w t1)); [constructor|].
    apply allEvents_Emit; [exact I|].
    unfold typeAndSend. destruct (documentQuery (selTag "textarea") (w t1)) as [|chatInput rest];
      [constructor|].
    apply allEvents_Emit; [rewrite Hpriest; now eexists|].
    apply allEvents_Emit; [exact I|].
    apply allEvents_Emit; [exact I|].
    apply allEvents_emitAll.
    + intros a Ha. pose proof (clickElementByImage_actions _ _ _ Ha) as Hk.
      destruct a; cbn [priestNight]; try exact I; try exact Ha; destruct Hk.
    + cbn [eval].
      destruct (at_ coupleElements _) as [target|]; [|constructor].
      assert (Hnot : negb (match coupleRole1 playerInfo with Some Priest => true | _ => false end)
                     && negb (match coupleRole2 playerInfo with Some Priest => true | _ => false end)
                     = false).
      { unfold priestCoupled in Hpriest.
        destruct (coupleRole1 playerInfo) as [[]|]; try reflexivity;
          destruct (coupleRole2 playerInfo) as [[]|]; try reflexivity; discriminate. }
      rewrite Hnot, Hrole. constructor.
  - unfold waitForExactText. apply allEvents_WaitFor. intros t2 _. cbn [eval].
    destruct (gameIsOver (w t2) || findTextInDocument (w t2) "Voting"); [constructor|].
    rewrite Hpriest, guardJuniorWerewolf_priest.
    unfold waitForTextInDOM. apply allEvents_WaitFor. intros. constructor.
Qed.

Lemma wolf_spares_priest_partner_witness :
  allEvents (priestNight night)
            (eval night 0 (inGameNight (playerInfoOf (night 0) "Alice")
                                       (coupleElements (night 0) "Alice")
                                       (allPlayerElements (night 0)))).
Proof.
  apply (@wolf_spares_priest_partner night 0 (playerInfoOf (night 0) "Alice")
           (coupleElements (night 0) "Alice") (allPlayerElements (night 0))).
  - vm_compute. reflexivity.
  - vm_compute. reflexivity.
Defined.

Lemma shooterAction_moves w playerInfo coupleElements allPlayerElements (m : nat) :
  forall n now, (retriesLeft n <= m)%nat ->
  allEvents (shooterMove w playerInfo coupleElements allPlayerElements)
            (eval w now (shooterAction playerInfo coupleElements allPlayerElements n)).
Proof.
  induction m as [|m IH]; intros n now Hm; rewrite shooterAction_body;
    unfold retriesLeft in Hm; (apply allEvents_Emit; [exact I|]).
  - destruct (Z_gt_dec n 4) as [Hgt|Hle]; [constructor | lia].
  - destruct (Z_gt_dec n 4) as [Hgt|Hle]; [constructor|].
    unfold waitForImageCountInDOM. apply allEvents_WaitFor. intros t1 _. cbn [eval].
    destruct (gameIsOver (w t1)); [constructor|].
    apply allEvents_Emit; [exact I|].
    apply allEvents_emitAll.
    + intros a Ha. pose proof (clickElementByImage_actions _ _ _ Ha) as Hk.
      destruct a; try destruct Hk; cbn [shooterMove]; [now left | exact I].
    + cbn [eval].
      destruct (shooterTarget (w (t1 + Z.max 0 200)) playerInfo coupleElements allPlayerElements)
        as [target|] eqn:T.
      * apply allEvents_Emit; [exact I|]. apply allEvents_emitAll; [|constructor].
        intros a Ha. pose proof (clickElementByImageInElement_actions _ _ _ _ Ha) as Hk.
        destruct a; try destruct Hk; cbn [shooterMove]; [|exact I].
        right. exists target. split; [exact T | exact Ha].
      * cbn [eval]. apply IH. unfold retriesLeft. lia.
Qed.

(** X6.  The shooter never shoots a partner or itself: every click of
    [shooterAction] is either the press of the bullet icon or the press of
    the shoot button inside the roster entry that [shooterTarget] finds on
    the page of that moment, and that entry is one of the roster, shows the
    vote marker, is none of the partners' entries and does not contain the
    player's name.  Apart from clicks the function only logs. *)
Theorem shooter_spares_partners (w : World) (now : Z) (playerInfo : PlayerInfo)
        (coupleElements : list (option Element)) (allPlayerElements : list Element) (n : Z) :
  allEvents (shooterMove w playerInfo coupleElements allPlayerElements)
            (eval w now (shooterAction playerInfo coupleElements allPlayerElements n))
  /\ forall d target,
       shooterTarget d playerInfo coupleElements allPlayerElements = Some target ->
       In target allPlayerElements
       /\ findImageInElement d target VOTE_MARKER_IMG = true
       /\ includesElement coupleElements target = false
       /\ Js.includes (elemText (deref d target)) (name playerInfo) = false.
Proof.
  split.
  - apply (@shooterAction_moves w playerInfo coupleElements allPlayerElements (retriesLeft n)).
    lia.
  - intros d target H. unfold shooterTarget in H. apply find_some in H.
    destruct H as [Hin H]. apply andb_true_iff in H. destruct H as [H Hname].
    apply andb_true_iff in H. destruct H as [Hvote Hcouple].
    apply negb_true_iff in Hname, Hcouple. auto.
Qed.

Lemma shooter_spares_partners_witness :
  In (nth 2 (allPlayerElements rosterOfThree) (mkElement (Page.plain 0 "div") [] []))
     (allPlayerElements rosterOfThree)
  /\ findImageInElement rosterOfThree
       (nth 2 (allPlayerElements rosterOfThree) (mkElement (Page.plain 0 "div") [] []))
       VOTE_MARKER_IMG = true
  /\ includesElement [] (nth 2 (allPlayerElements rosterOfThree)
                             (mkElement (Page.plain 0 "div") [] [])) = false
  /\ Js.includes (elemText (deref rosterOfThree
                     (nth 2 (allPlayerElements rosterOfThree)
                          (mkElement (Page.plain 0 "div") [] []))))
                 (name (playerInfoOf rosterOfThree "Alice")) = false.
Proof.
  apply (proj2 (@shooter_spares_partners (fun _ => rosterOfThree) 0
                  (playerInfoOf rosterOfThree "Alice") [] (allPlayerElements rosterOfThree) 2)
               rosterOfThree).
  vm_compute. reflexivity.
Defined.

Lemma inGameNight_idle (w : World) (now : Z) (playerInfo : PlayerInfo)
      (coupleElements : list (option Element)) (allPlayerElements : list Element) :
  WOLF_ROLES (Some (role playerInfo)) = false \/ bothPartnersWolvesOrSolo playerInfo = true ->
  allEvents (fun _ a => isLog a)
            (eval w now (inGameNight playerInfo coupleElements allPlayerElements)).
Proof.
  intros H. unfold inGameNight. cbn [eval].
  destruct (gameIsOver (w now)); [constructor|].
  apply allEvents_Emit; [exact I|].
  destruct (role playerInfo) eqn:Hrole; try constructor;
    (destruct H as [H|H]; [discriminate H|]).
  - unfold waitForTextInDOM. apply allEvents_WaitFor. intros t1 _. cbn [eval].
    destruct (_ || _); [constructor|]. rewrite H. constructor.
  - unfold handleWolfTagging. cbn [eval]. rewrite H. constructor.
  - unfold handleWolfTagging. cbn [eval]. rewrite H. constructor.
Qed.

(** X7.  At night only the three wolf roles act, and a wolf whose partners
    are all wolves does not act either: for every other player record
    [inGameNight] issues nothing but log lines, whatever the page does. *)
Theorem night_idle_roles (w : World) (now : Z) (playerInfo : PlayerInfo)
        (coupleElements : list (option Element)) (allPlayerElements : list Element) :
  WOLF_ROLES (Some (role playerInfo)) = false \/ bothPartnersWolvesOrSolo playerInfo = true ->
  allEvents (fun _ a => isLog a)
            (eval w now (inGameNight playerInfo coupleElements allPlayerElements)).
Proof. apply inGameNight_idle. Qed.

Lemma night_idle_roles_witness :
  allEvents (fun _ a => isLog a)
            (eval (fun _ => nightPage "25s") 0
                  (inGameNight (playerInfoOf rosterOfThree "Alice")
                               (coupleElements rosterOfThree "Alice")
                               (allPlayerElements rosterOfThree))).
Proof.
  apply (@night_idle_roles (fun _ => nightPage "25s") 0 (playerInfoOf rosterOfThree "Alice")
           (coupleElements rosterOfThree "Alice") (allPlayerElements rosterOfThree)).
  left. vm_compute. reflexivity.
Defined.

(** The role of a player whose roster entry does not show the pairing
    sticker is read as [Unknown]. *)
Lemma unpaired_role d myName :
  filter (isMe myName) (loverElements d) = [] -> role (playerInfoOf d myName) = Unknown.
Proof.
  intros H. unfold playerInfoOf. cbn [role]. unfold myImageSets. rewrite H. reflexivity.
Qed.

(** X8.  The script reads the player's own role from the paired roster
    entries only.  When none of them contains the player's name the role
    is [Unknown]; such a player does nothing at night, and by day does
    nothing unless one of the partners is a wolf: the run of [inGame] holds
    only log lines. *)
Theorem unpaired_player_idle (w : World) (now : Z) (myName : string) :
  filter (isMe myName) (loverElements (w now)) = [] ->
  role (playerInfoOf (w now) myName) = Unknown
  /\ (isDay (w now) = false \/ isWolfCoupled (playerInfoOf (w now) myName) = false ->
      allEvents (fun _ a => isLog a) (eval w now (inGame myName))).
Proof.
  intros Hme. pose proof (unpaired_role _ _ Hme) as Hrole. split; [exact Hrole|].
  intros Hcase. unfold inGame. apply allEvents_Read.
  apply allEvents_Emit; [exact I|]. apply allEvents_Emit; [exact I|].
  destruct (isDay (w now)) eqn:Hday.
  - destruct Hcase as [Hcase|Hcase]; [discriminate|].
    unfold inGameDay. apply allEvents_Read. destruct (gameIsOver (w now)); [constructor|].
    apply allEvents_Emit; [exact I|]. rewrite Hcase, Hrole. constructor.
  - destruct (isNight (w now)); [|constructor].
    apply inGameNight_idle. left. now rewrite Hrole.
Qed.

Lemma unpaired_player_idle_witness :
  role (playerInfoOf quietDay "Alice") = Unknown
  /\ (isDay quietDay = false \/ isWolfCoupled (playerInfoOf quietDay "Alice") = false ->
      allEvents (fun _ a => isLog a) (eval (fun _ => quietDay) 0 (inGame "Alice"))).
Proof.
  apply (@unpaired_player_idle (fun _ => quietDay) 0 "Alice").
  vm_compute. reflexivity.
Defined.

(** X9.  The day ability of a priest or a shooter that has no wolf
    partner.  [inGameDay] presses the trigger icon of the role and then
    the action icon inside the first roster entry that shows the vote
    marker, whoever that is: unlike [shooterAction] this branch does not
    pass over the partners' entries or the player's own.  Nothing else is
    clicked and nothing is typed; a role without an ability does
    nothing. *)
Theorem villager_ability_moves (w : World) (now : Z) (playerInfo : PlayerInfo)
        (coupleElements : list (option Element)) (playerImages : list (list string))
        (allPlayerElements : list Element) :
  isWolfCoupled playerInfo = false ->
  WOLF_ROLES (Some (role playerInfo)) = false ->
  allEvents (abilityMove w playerInfo allPlayerElements)
            (eval w now (inGameDay playerInfo coupleElements playerImages allPlayerElements))
  /\ (abilities (role playerInfo) = None ->
      allEvents (fun _ a => isLog a)
                (eval w now (inGameDay playerInfo coupleElements playerImages
                                       allPlayerElements))).
Proof.
  intros Hcouple Hwolf. unfold inGameDay. split.
  - apply allEvents_Read. destruct (gameIsOver (w now)); [constructor|].
    apply allEvents_Emit; [exact I|]. rewrite Hcouple, Hwolf. cbn [negb].
    destruct (abilities (role playerInfo)) as [[triggerKey actionKey]|] eqn:Hab; [|constructor].
    unfold waitForImageInDOM. apply allEvents_WaitFor. intros t1 _.
    apply allEvents_Read. destruct (gameIsOver (w t1)); [constructor|].
    apply allEvents_Emit; [exact I|]. apply allEvents_emitAll.
    + intros a Ha. pose proof (clickElementByImage_actions _ _ _ Ha) as Hk.
      destruct a; try destruct Hk; cbn [abilityMove]; [|exact I].
      exists triggerKey, actionKey. split; [exact Hab | now left].
    + apply allEvents_Sleep. apply allEvents_Read.
      destruct (find _ allPlayerElements) as [votedPlayer|] eqn:F; [|constructor].
      apply allEvents_emitAll; [|constructor].
      intros a Ha. pose proof (clickElementByImageInElement_actions _ _ _ _ Ha) as Hk.
      destruct a; try destruct Hk; cbn [abilityMove]; [|exact I].
      exists triggerKey, actionKey. split; [exact Hab|]. right. now exists votedPlayer.
  - intros Hab. apply allEvents_Read. destruct (gameIsOver (w now)); [constructor|].
    apply allEvents_Emit; [exact I|]. rewrite Hcouple, Hwolf, Hab. constructor.
Qed.

Lemma villager_ability_moves_witness :
  allEvents (abilityMove (fun _ => votedDay)
                         (mkPlayerInfo "Alice" (Some "1") Shooter None None None None)
                         (allPlayerElements votedDay))
            (eval (fun _ => votedDay) 0
                  (inGameDay (mkPlayerInfo "Alice" (Some "1") Shooter None None None None)
                             [None; None] [] (allPlayerElements votedDay))).
Proof.
  apply (@villager_ability_moves (fun _ => votedDay) 0
           (mkPlayerInfo "Alice" (Some "1") Shooter None None None None)
           [None; None] [] (allPlayerElements votedDay)); reflexivity.
Defined.

(** X10.  In the lobby the script never clicks: a cycle of [main] on a page
    that is classified as LOBBY issues only log lines and, at most, the
    reload; the start button that [handleLobbyState] looks up is never
    pressed. *)
Theorem lobby_never_clicks (playAgain customLobby handleHomeScreen handleGameScreen : Prog)
        (myName : string) (ts : option Z) (now : Z) (d : Dom) (w : World) (t : Z) :
  determineGameState d = LOBBY ->
  allEvents (fun _ a => lobbyAction a)
            (eval w t (snd (main playAgain customLobby handleHomeScreen handleGameScreen
                                 myName ts now d))).
Proof.
  intros Hstate. unfold main. rewrite Hstate.
  assert (Hh : allEvents (fun _ a => lobbyAction a) (eval w t handleLobbyState)).
  { unfold handleLobbyState. apply allEvents_Read. destruct (find _ _); [|constructor].
    repeat (apply allEvents_Emit; [exact I|]). constructor. }
  destruct ts as [entered|]; cbn [snd dispatch].
  - destruct (now - entered >? LOBBY_TIMEOUT); cbn [snd dispatch].
    + repeat (apply allEvents_Emit; [exact I|]). constructor.
    + apply allEvents_Emit; [exact I | exact Hh].
  - repeat (apply allEvents_Emit; [exact I|]). exact Hh.
Qed.

Lemma lobby_never_clicks_witness :
  allEvents (fun _ a => lobbyAction a)
            (eval (fun _ => lobbyPage) 0 (snd (main Done Done Done Done "Alice" None 0 lobbyPage))).
Proof.
  apply (@lobby_never_clicks Done Done Done Done "Alice" None 0 lobbyPage (fun _ => lobbyPage) 0).
  reflexivity.
Defined.

(** ** The image count *)

Lemma collectImages_prefix key count images :
  forall found0,
  match collectImages key count images found0 with
  | Some found =>
      exists j, (j < length images)%nat
        /\ found = found0 ++ countedImages key (firstn (S j) images)
        /\ count <= Z.of_nat (length found)
        /\ forall i, (i < j)%nat ->
             Z.of_nat (length (found0 ++ countedImages key (firstn (S i) images))) < count
  | None =>
      forall j, (j < length images)%nat ->
        Z.of_nat (length (found0 ++ countedImages key (firstn (S j) images))) < count
  end.
Proof.
  induction images as [|img rest IH]; intros found0; cbn [collectImages].
  - intros j Hj. cbn [length] in Hj. lia.
  - set (found1 := if Js.includes (src (attrs img)) key && isVisible img
                   then found0 ++ [img] else found0).
    assert (Hstep : forall l, found0 ++ countedImages key (img :: l)
                              = found1 ++ countedImages key l).
    { intros l. unfold countedImages, found1. cbn [filter].
      destruct (Js.includes (src (attrs img)) key && isVisible img); [|reflexivity].
      now rewrite <- app_assoc. }
    destruct (Z.geb_spec (Z.of_nat (length found1)) count) as [Hge|Hlt].
    + exists O. split; [cbn [length]; lia|]. split; [|split; [exact Hge | intros i Hi; lia]].
      cbn [firstn]. rewrite Hstep. unfold countedImages. cbn [filter]. now rewrite app_nil_r.
    + specialize (IH found1). destruct (collectImages key count rest found1) as [found|].
      * destruct IH as [j [Hj [Hfound [Hcount Hmin]]]].
        exists (S j). split; [cbn [length]; lia|]. split; [|split; [exact Hcount|]].
        -- cbn [firstn] in *. now rewrite Hstep.
        -- intros i Hi. destruct i as [|i].
           ++ cbn [firstn]. rewrite Hstep. unfold countedImages. cbn [filter].
              now rewrite app_nil_r.
           ++ change (firstn (S (S i)) (img :: rest)) with (img :: firstn (S i) rest).
              rewrite Hstep. apply Hmin. lia.
      * intros j Hj. destruct j as [|j].
        -- cbn [firstn]. rewrite Hstep. unfold countedImages. cbn [filter].
           now rewrite app_nil_r.
        -- change (firstn (S (S j)) (img :: rest)) with (img :: firstn (S j) rest).
           rewrite Hstep. apply IH. cbn [length] in Hj. lia.
Qed.

Lemma countedImages_snoc key l img :
  (length (countedImages key (l ++ [img])) <= S (length (countedImages key l)))%nat.
Proof.
  unfold countedImages. rewrite filter_app, length_app. cbn [filter].
  destruct (_ && _); cbn [length]; lia.
Qed.

Lemma firstn_S_snoc {A} (l : list A) j :
  (j < length l)%nat -> exists x, firstn (S j) l = firstn j l ++ [x].
Proof.
  revert j. induction l as [|a l IH]; intros j Hj; cbn [length] in Hj; [lia|].
  destruct j as [|j].
  - exists a. reflexivity.
  - destruct (IH j ltac:(lia)) as [x Hx]. exists x.
    change (firstn (S (S j)) (a :: l)) with (a :: firstn (S j) l). rewrite Hx. reflexivity.
Qed.

(** X11.  The predicate of [waitForImageCountInDOM] reads the images in
    document order and stops at the first one with which the number of
    visible matching images reaches [count]: its result is the matching
    images of the shortest non-empty prefix that holds [count] of them,
    exactly [count] images when [count] is positive; it is [null] when no
    prefix holds as many, and so on every page without images, also for a
    [count] of zero. *)
Theorem collectImages_shortest_prefix (imageNamePart : string) (count : Z)
        (images : list Element) :
  match collectImages imageNamePart count images [] with
  | Some found =>
      exists j, (j < length images)%nat
        /\ found = countedImages imageNamePart (firstn (S j) images)
        /\ count <= Z.of_nat (length found)
        /\ (forall i, (i < j)%nat ->
              Z.of_nat (length (countedImages imageNamePart (firstn (S i) images))) < count)
        /\ (1 <= count -> Z.of_nat (length found) = count)
  | None =>
      forall j, (j < length images)%nat ->
        Z.of_nat (length (countedImages imageNamePart (firstn (S j) images))) < count
  end
  /\ collectImages imageNamePart count [] [] = None.
Proof.
  split; [|reflexivity].
  pose proof (collectImages_prefix imageNamePart count images []) as H.
  destruct (collectImages imageNamePart count images []) as [found|]; [|exact H].
  destruct H as [j [Hj [Hfound [Hcount Hmin]]]]. cbn [app] in *.
  exists j. split; [exact Hj|]. split; [exact Hfound|]. split; [exact Hcount|].
  split; [exact Hmin|]. intros Hpos.
  destruct (firstn_S_snoc images Hj) as [x Hx].
  pose proof (countedImages_snoc imageNamePart (firstn j images) x) as Hsnoc.
  rewrite <- Hx, <- Hfound in Hsnoc.
  destruct j as [|j].
  - cbn [firstn] in Hsnoc. unfold countedImages in Hsnoc. cbn [filter length] in Hsnoc. lia.
  - specialize (Hmin j ltac:(lia)). lia.
Qed.

Lemma collectImages_shortest_prefix_witness :
  collectImages "vote_day_selected" 0 [] [] = None.
Proof. apply (proj2 (collectImages_shortest_prefix "vote_day_selected" 0 [])). Defined.

(** ** The chat transcript *)

Lemma filter_none {A} (p : A -> bool) l :
  (forall x, In x l -> p x = false) -> filter p l = [].
Proof.
  induction l as [|a l IH]; intros H; [reflexivity|]. cbn [filter].
  rewrite (H a (or_introl eq_refl)). apply IH. intros x Hx. apply H. now right.
Qed.

Lemma smallestContainers_spec spans :
  forall seen minWidth acc,
  match minWidth with
  | None => seen = [] /\ acc = []
  | Some a => acc = filter (fun m => containerArea m =? a) seen
              /\ (forall m, In m seen -> a <= containerArea m)
              /\ exists m, In m seen /\ containerArea m = a
  end ->
  let all := seen ++ messageCandidates spans in
  let found := smallestContainers spans minWidth acc in
  (all = [] /\ found = [])
  \/ exists a, found = filter (fun m => containerArea m =? a) all
               /\ (forall m, In m all -> a <= containerArea m)
               /\ exists m, In m all /\ containerArea m = a.
Proof.
  induction spans as [|span rest IH]; intros seen minWidth acc Hinv; cbv zeta.
  - cbn [messageCandidates flat_map smallestContainers]. rewrite app_nil_r.
    destruct minWidth as [a|].
    + right. exists a. exact Hinv.
    + left. exact Hinv.
  - cbn [smallestContainers].
    change (messageCandidates (span :: rest))
      with ((if Js.includes (elemText span) ":" then
               match closest (selTag "div") span with
               | Some containerDiv => [(containerDiv, elemText span)]
               | None => []
               end
             else []) ++ messageCandidates rest).
    destruct (Js.includes (elemText span) ":"); [|apply (IH seen minWidth acc Hinv)].
    destruct (closest (selTag "div") span) as [c|]; [|apply (IH seen minWidth acc Hinv)].
    set (m0 := (c, elemText span)).
    change (rectWidth (layout (attrs c)) * rectHeight (layout (attrs c)))
      with (containerArea m0).
    replace (seen ++ [m0] ++ messageCandidates rest)
      with ((seen ++ [m0]) ++ messageCandidates rest) by (now rewrite <- app_assoc).
    destruct minWidth as [a|].
    + destruct Hinv as [Hacc [Hmin [mw [Hmw Hmwa]]]].
      destruct (Z.ltb_spec (containerArea m0) a) as [Hlt|Hge].
      * apply IH. split; [|split].
        -- rewrite filter_app. cbn [filter]. rewrite Z.eqb_refl.
           rewrite filter_none; [reflexivity|].
           intros m Hm. specialize (Hmin m Hm). apply Z.eqb_neq. lia.
        -- intros m Hm. apply in_app_or in Hm. destruct Hm as [Hm|[<-|[]]]; [|lia].
           specialize (Hmin m Hm). lia.
        -- exists m0. split; [apply in_or_app; right; now left | reflexivity].
      * destruct (Z.eqb_spec (containerArea m0) a) as [Heq|Hne].
        -- apply IH. split; [|split].
           ++ rewrite filter_app. cbn [filter]. rewrite (proj2 (Z.eqb_eq _ _) Heq).
              now rewrite Hacc.
           ++ intros m Hm. apply in_app_or in Hm. destruct Hm as [Hm|[<-|[]]]; [auto | lia].
           ++ exists mw. split; [apply in_or_app; now left | exact Hmwa].
        -- apply IH. split; [|split].
           ++ rewrite filter_app. cbn [filter]. rewrite (proj2 (Z.eqb_neq _ _) Hne).
              now rewrite app_nil_r.
           ++ intros m Hm. apply in_app_or in Hm. destruct Hm as [Hm|[<-|[]]]; [auto | lia].
           ++ exists mw. split; [apply in_or_app; now left | exact Hmwa].
    + destruct Hinv as [-> ->]. apply IH. cbn [app filter]. rewrite Z.eqb_refl.
      split; [reflexivity|]. split.
      * intros m [<-|[]]. lia.
      * exists m0. split; [now left | reflexivity].
Qed.

(** ** Waits in virtual time *)

Lemma awaitCondition_bound R (w : World) (conditionFn : Dom -> option R)
      (timeout interval : Z) (cancel : CancelConditions) (now t : Z) (r : option R) :
  awaitCondition w conditionFn timeout interval cancel now = Some (t, r) ->
  now <= t
  /\ (t = now \/ t - Z.max 0 interval - now < timeout)
  /\ (timeout <= 0 -> t = now).
Proof.
  unfold awaitCondition. intros H.
  destruct (waitForCondition _ _ _ _ _ _) as [[k r']|] eqn:E; [|discriminate].
  injection H as <- <-. unfold waitForCondition in E.
  pose proof (polls_sound _ _ _ _ _ _ _ E) as [_ [_ Hre]].
  unfold virtualTicks. cbn [fst]. split; [nia|].
  destruct k as [|k].
  - split; [left; lia | intros _; lia].
  - specialize (Hre k ltac:(lia)). unfold checkAt, check, virtualTicks in Hre. cbn [fst snd] in Hre.
    destruct (conditionFn _); [discriminate|].
    destruct (cancelled _ _); [discriminate|].
    destruct (Z.geb_spec (now + Z.of_nat k * Z.max 0 interval - now) timeout) as [|Hlt];
      [discriminate|].
    split; [right; lia | intros Hto; nia].
Qed.

(** A wait with a positive interval resolves, with the value of the
    predicate on the page it resolves on, within the timeout and one
    interval. *)
Lemma awaitCondition_resolves R (w : World) (conditionFn : Dom -> option R)
      (timeout interval : Z) (cancel : CancelConditions) (now : Z) :
  0 < interval -> 0 <= timeout ->
  exists t r,
    awaitCondition w conditionFn timeout interval cancel now = Some (t, r)
    /\ now <= t < now + timeout + interval
    /\ (forall x, r = Some x -> conditionFn (w t) = Some x).
Proof.
  intros Hi Ht.
  destruct (@awaitCondition_total R w conditionFn timeout interval cancel now Hi)
    as [t [r [E Hle]]].
  exists t, r. split; [exact E|].
  pose proof (awaitCondition_bound _ _ _ _ _ _ E) as [_ [Hb _]].
  split; [lia|].
  intros x Hx. unfold awaitCondition in E.
  destruct (waitForCondition _ _ _ _ _ _) as [[k r']|] eqn:Ew; [|discriminate].
  injection E as Et Er. subst t r r'. unfold waitForCondition in Ew.
  pose proof (polls_sound _ _ _ _ _ _ _ Ew) as [_ [Hres _]].
  unfold checkAt, check, virtualTicks in Hres. cbn [fst snd] in Hres.
  unfold virtualTicks. cbn [fst].
  destruct (conditionFn _) as [y|]; [now injection Hres as -> |].
  destruct (cancelled _ _); [discriminate Hres|].
  destruct (_ >=? _); discriminate Hres.
Qed.

(** X12.  [getMessages] returns [null] exactly when no [span] with a colon
    lies in a [div].  Otherwise it returns, in document order, the messages
    of the candidates whose container has the least area of all, and only
    those: a chat line in a larger container is not part of the
    transcript. *)
Theorem getMessages_smallest_containers (d : Dom) :
  (getMessages d = None <-> messageCandidates (documentQuery (selTag "span") d) = [])
  /\ forall messages,
       getMessages d = Some messages ->
       exists a,
         messages = map (fun m => Js.trim (removeFirst (elemText (fst m)) (snd m)))
                        (filter (fun m => containerArea m =? a)
                                (messageCandidates (documentQuery (selTag "span") d)))
         /\ (forall m, In m (messageCandidates (documentQuery (selTag "span") d)) ->
               a <= containerArea m)
         /\ messages <> [].
Proof.
  unfold getMessages.
  pose proof (@smallestContainers_spec (documentQuery (selTag "span") d) [] None []
                (conj eq_refl eq_refl)) as H.
  cbv zeta in H. cbn [app] in H.
  destruct H as [[Hall Hfound]|[a [Hfound [Hmin [m [Hm Hma]]]]]].
  - rewrite Hfound, Hall. split; [tauto|]. discriminate.
  - assert (Hne : smallestContainers (documentQuery (selTag "span") d) None [] <> []).
    { rewrite Hfound. intros E.
      assert (Hin : In m (filter (fun m => containerArea m =? a)
                                 (messageCandidates (documentQuery (selTag "span") d)))).
      { apply filter_In. split; [exact Hm | now apply Z.eqb_eq]. }
      rewrite E in Hin. destruct Hin. }
    destruct (smallestContainers (documentQuery (selTag "span") d) None []) as [|m1 found] eqn:E;
      [congruence|].
    split.
    + split; [discriminate|]. intros Hc. rewrite Hc in Hm. destruct Hm.
    + intros messages Hmsg. injection Hmsg as <-. exists a. rewrite <- Hfound.
      split; [reflexivity|]. split; [exact Hmin | discriminate].
Qed.

Lemma getMessages_smallest_containers_witness :
  exists a,
    ["vote 7 now"] = map (fun m => Js.trim (removeFirst (elemText (fst m)) (snd m)))
                         (filter (fun m => containerArea m =? a)
                                 (messageCandidates (documentQuery (selTag "span") chatPage)))
    /\ (forall m, In m (messageCandidates (documentQuery (selTag "span") chatPage)) ->
          a <= containerArea m)
    /\ ["vote 7 now"] <> [].
Proof.
  apply (proj2 (getMessages_smallest_containers chatPage) ["vote 7 now"]).
  vm_compute. reflexivity.
Defined.

(** ** More on waiting *)

Lemma cancelTexts_given (c : CancelConditions) : cancelTexts c = givenCancelTexts c.
Proof. destruct c as [|[|a text]|texts]; reflexivity. Qed.

Lemma cancelTextShown_find (texts : list string) (pageText : string) :
  cancelTextShown texts pageText
  <-> exists found, find (fun text => Js.includes pageText text) texts = Some found
                    /\ found <> EmptyString.
Proof.
  induction texts as [|a texts IH].
  - split.
    + intros [before [text [after [E _]]]]. destruct before; discriminate E.
    + intros [found [E _]]. discriminate E.
  - cbn [find]. destruct (Js.includes pageText a) eqn:Ea.
    + split.
      * intros [before [text [after [E [Hb [Ht Hne]]]]]].
        destruct before as [|b0 before]; injection E as E0 E1; subst.
        -- exists text. split; [reflexivity | exact Hne].
        -- specialize (Hb b0 (or_introl eq_refl)). congruence.
      * intros [found [E Hne]]. injection E as <-. exists [], a, texts.
        split; [reflexivity|]. split; [intros t []|]. split; [exact Ea | exact Hne].
    + split.
      * intros [before [text [after [E [Hb [Ht Hne]]]]]].
        destruct before as [|b0 before]; injection E as E0 E1; subst.
        -- congruence.
        -- apply IH. exists before, text, after. split; [reflexivity|].
           split; [intros t Ht'; apply Hb; now right|]. split; [exact Ht | exact Hne].
      * intros H. apply IH in H. destruct H as [before [text [after [-> [Hb [Ht Hne]]]]]].
        exists (a :: before), text, after. split; [reflexivity|].
        split; [intros t [<-|Ht']; [exact Ea | now apply Hb]|]. split; [exact Ht | exact Hne].
Qed.

Lemma cancelled_shown (c : CancelConditions) (d : Dom) :
  cancelled c d = true <-> cancelTextShown (givenCancelTexts c) (innerText d).
Proof.
  rewrite cancelTextShown_find, <- cancelTexts_given. unfold cancelled.
  destruct (cancelTexts c) as [|a texts] eqn:E.
  - split; [discriminate | intros [found [H _]]; discriminate H].
  - destruct (find _ (a :: texts)) as [[|x found]|].
    + split; [discriminate | intros [found [H Hne]]; injection H as <-; congruence].
    + split; [intros _; eexists; split; [reflexivity | discriminate] | reflexivity].
    + split; [discriminate | intros [found [H _]]; discriminate H].
Qed.

Lemma shown_of_nonempty (texts : list string) (pageText t : string) :
  Forall (fun text => text <> EmptyString) texts ->
  In t texts -> Js.includes pageText t = true -> cancelTextShown texts pageText.
Proof.
  intros Hne Hin Ht. apply cancelTextShown_find.
  destruct (find (fun text => Js.includes pageText text) texts) as [found|] eqn:E.
  - exists found. split; [reflexivity|]. apply find_some in E.
    rewrite Forall_forall in Hne. apply Hne, E.
  - pose proof (find_none _ _ E t Hin) as H. cbv beta in H. congruence.
Qed.

(** X13.  What a resolved wait tells its caller.  The cancel texts are
    those of the array given, or the one text given when it is not empty;
    a cancel text shows on a page when the first of them that occurs in
    the rendered text of the page is not empty.  When [waitForCondition]
    resolves at run [k] of [check], every earlier run found the predicate
    falsy, no cancel text showing and the timeout not yet elapsed; when
    none of the cancel texts is empty, none of them occurred in the text of
    the page of an earlier run.  A truthy result is the value the
    predicate returned on the page of run [k]; the result [null] means that
    the predicate was falsy on that page and that a cancel text showed
    there or the timeout had elapsed.  More fuel does not change the
    result. *)
Theorem waitForCondition_resolves_soundly (R : Type) (conditionFn : Dom -> option R)
        (timeout : Z) (cancelConditions : CancelConditions)
        (ticks : nat -> Z * Dom) (startTime : Z) (fuel k : nat) (result : option R) :
  waitForCondition conditionFn timeout cancelConditions ticks startTime fuel = Some (k, result) ->
  (forall j, (j < k)%nat ->
     conditionFn (snd (ticks j)) = None
     /\ ~ cancelTextShown (givenCancelTexts cancelConditions) (innerText (snd (ticks j)))
     /\ (Forall (fun text => text <> EmptyString) (givenCancelTexts cancelConditions) ->
         forall text, In text (givenCancelTexts cancelConditions) ->
                      Js.includes (innerText (snd (ticks j))) text = false)
     /\ fst (ticks j) - startTime < timeout)
  /\ match result with
     | Some r => conditionFn (snd (ticks k)) = Some r
     | None => conditionFn (snd (ticks k)) = None
               /\ (cancelTextShown (givenCancelTexts cancelConditions)
                                   (innerText (snd (ticks k)))
                   \/ timeout <= fst (ticks k) - startTime)
     end
  /\ forall fuel', (fuel <= fuel')%nat ->
       waitForCondition conditionFn timeout cancelConditions ticks startTime fuel'
       = Some (k, result).
Proof.
  intros Hrun. unfold waitForCondition in *.
  pose proof (polls_sound _ _ _ _ _ _ _ Hrun) as [_ [Hres Hre]].
  unfold checkAt, check in Hres, Hre. split; [|split].
  - intros j Hj. specialize (Hre j ltac:(lia)).
    destruct (conditionFn (snd (ticks j))); [discriminate|].
    destruct (cancelled cancelConditions (snd (ticks j))) eqn:Ec; [discriminate|].
    destruct (Z.geb_spec (fst (ticks j) - startTime) timeout); [discriminate|].
    assert (Hno : ~ cancelTextShown (givenCancelTexts cancelConditions)
                                    (innerText (snd (ticks j)))).
    { intros Hs. apply cancelled_shown in Hs. congruence. }
    split; [reflexivity|]. split; [exact Hno|]. split; [|lia].
    intros Hne text Hin.
    destruct (Js.includes (innerText (snd (ticks j))) text) eqn:Et; [|reflexivity].
    destruct Hno. eapply shown_of_nonempty; eassumption.
  - destruct (conditionFn (snd (ticks k))) as [r|].
    + injection Hres as <-. reflexivity.
    + destruct (cancelled cancelConditions (snd (ticks k))) eqn:Ec.
      * injection Hres as <-. split; [reflexivity|]. left. now apply cancelled_shown.
      * destruct (Z.geb_spec (fst (ticks k) - startTime) timeout); [|discriminate].
        injection Hres as <-. split; [reflexivity | now right].
  - intros fuel' Hle. eapply polls_more; eauto.
Qed.

Lemma waitForCondition_resolves_soundly_witness :
  (forall j, (j < 5)%nat ->
     (fun _ : Dom => @None unit) (snd (every200 quietDay j)) = None
     /\ ~ cancelTextShown (givenCancelTexts (CancelText "Continue"))
                          (innerText (snd (every200 quietDay j)))
     /\ (Forall (fun text => text <> EmptyString) (givenCancelTexts (CancelText "Continue")) ->
         forall text, In text (givenCancelTexts (CancelText "Continue")) ->
                      Js.includes (innerText (snd (every200 quietDay j))) text = false)
     /\ fst (every200 quietDay j) - 0 < 1000)
  /\ ((fun _ : Dom => @None unit) (snd (every200 quietDay 5)) = None
      /\ (cancelTextShown (givenCancelTexts (CancelText "Continue"))
                          (innerText (snd (every200 quietDay 5)))
          \/ 1000 <= fst (every200 quietDay 5) - 0))
  /\ forall fuel', (10 <= fuel')%nat ->
       waitForCondition (fun _ : Dom => @None unit) 1000 (CancelText "Continue")
                        (every200 quietDay) 0 fuel' = Some (5%nat, None).
Proof.
  apply (@waitForCondition_resolves_soundly unit (fun _ => None) 1000 (CancelText "Continue")
           (every200 quietDay) 0 10 5 None).
  vm_compute. reflexivity.
Defined.

(** The wait that an empty text ahead of ['Continue'] keeps from being
    cancelled: on [gameOverPage] it re-arms until the timeout. *)
Example empty_cancel_text_disarms :
  waitForCondition (fun _ : Dom => @None unit) 1000 (CancelTexts [EmptyString; "Continue"])
                   (every200 gameOverPage) 0 10 = Some (5%nat, None)
  /\ waitForCondition (fun _ : Dom => @None unit) 1000 (CancelTexts ["Continue"])
                      (every200 gameOverPage) 0 10 = Some (0%nat, None).
Proof. vm_compute. split; reflexivity. Qed.

(** X14.  How long a wait lasts when timers fire exactly when due.  A wait
    that resolves does so at or after its start, and at its first run of
    [check] or at a run whose predecessor, one interval earlier, was still
    within the timeout; with a timeout that is not positive the first run
    resolves.  With a positive interval and a timeout that is not negative
    every wait does resolve, less than the timeout and one interval after
    its start, and a truthy result is what the predicate returned on the
    page of that moment. *)
Theorem awaitCondition_duration (R : Type) (w : World) (conditionFn : Dom -> option R)
        (timeout interval : Z) (cancel : CancelConditions) (now : Z) :
  (forall t r,
     awaitCondition w conditionFn timeout interval cancel now = Some (t, r) ->
     now <= t
     /\ (t = now \/ t - Z.max 0 interval - now < timeout)
     /\ (timeout <= 0 -> t = now))
  /\ (0 < interval -> 0 <= timeout ->
      exists t r,
        awaitCondition w conditionFn timeout interval cancel now = Some (t, r)
        /\ now <= t < now + timeout + interval
        /\ forall x, r = Some x -> conditionFn (w t) = Some x).
Proof.
  split.
  - intros t r. apply awaitCondition_bound.
  - apply awaitCondition_resolves.
Qed.

Lemma awaitCondition_duration_witness :
  exists t r,
    awaitCondition (fun _ => quietDay) (fun _ : Dom => @None unit) 1000 200
                   (CancelText "Continue") 0 = Some (t, r)
    /\ 0 <= t < 0 + 1000 + 200
    /\ forall x, r = Some x -> (fun _ : Dom => @None unit) quietDay = Some x.
Proof.
  apply (proj2 (@awaitCondition_duration unit (fun _ => quietDay) (fun _ => None) 1000 200
                  (CancelText "Continue") 0)); lia.
Defined.

(** X15.  The later revision of [waitForCondition] agrees with the earlier
    one on the arguments the earlier one takes: with one cancel text or
    [null], a run of [check] of either revision gives the same verdict at
    every time and on every page. *)
Theorem check_revisions_agree (R : Type) (conditionFn : Dom -> option R) (timeout : Z)
        (cancelText : option string) (startTime now : Z) (d : Dom) :
  check_v1 conditionFn timeout cancelText startTime now d
  = check conditionFn timeout (cancelOfText cancelText) startTime now d.
Proof.
  unfold check_v1, check. destruct (conditionFn d); [reflexivity|].
  replace (cancelled (cancelOfText cancelText) d)
    with (match cancelText with
          | Some text => Js.truthy text && Js.includes (innerText d) text
          | None => false
          end); [reflexivity|].
  destruct cancelText as [text|]; [|reflexivity].
  unfold cancelled, cancelOfText, cancelTexts. destruct text as [|c text]; [reflexivity|].
  cbn [Js.truthy andb find].
  destruct (Js.includes (innerText d) (String c text)); reflexivity.
Qed.

(** ** Seat numbers in the chat *)

Lemma rev_append_truthy s acc : Js.truthy acc = true -> Js.truthy (Js.rev_append s acc) = true.
Proof.
  revert acc. induction s as [|c s IH]; intros acc H; cbn [Js.rev_append]; [exact H|].
  apply IH. reflexivity.
Qed.

Lemma wordRuns_truthy s : forall cur r, In r (Js.wordRuns cur s) -> Js.truthy r = true.
Proof.
  induction s as [|c s IH]; intros cur r; cbn [Js.wordRuns].
  - destruct cur as [|c0 cur]; [intros []|]. intros [<-|[]].
    unfold Js.rev. cbn [Js.rev_append]. now apply rev_append_truthy.
  - destruct (Js.isWord c); [apply IH|].
    destruct cur as [|c0 cur]; [apply IH|].
    intros [<-|H]; [|eapply IH; eauto].
    unfold Js.rev. cbn [Js.rev_append]. now apply rev_append_truthy.
Qed.

Lemma allDigits_all s : Js.allDigits s = true -> Js.all Js.isDigit s = true.
Proof.
  unfold Js.allDigits. induction s as [|c s IH]; [reflexivity|].
  cbn [Js.dropWhile Js.all]. destruct (Js.isDigit c); [exact IH | discriminate].
Qed.

Lemma digit_value c : Js.isDigit c = true -> (N.to_nat (Js.code c) - 48 <= 9)%nat.
Proof.
  unfold Js.isDigit. rewrite andb_true_iff, !N.leb_le. lia.
Qed.

(** X16.  Every token that the chat scan [/\b\d{1,2}\b/g] yields consists
    of one or two decimal digits, so the seat that [parseInt] reads from it
    is at most 99; the wolf's teammate lookup never indexes the roster
    beyond its 99th entry. *)
Theorem digitTokens_two_digits (s token : string) :
  In token (Js.digitTokens s) ->
  (1 <= String.length token <= 2)%nat
  /\ Js.all Js.isDigit token = true
  /\ (parseDigits token 0 <= 99)%nat.
Proof.
  unfold Js.digitTokens. intros H. apply filter_In in H. destruct H as [Hrun H].
  apply andb_true_iff in H. destruct H as [Hdig Hlen].
  apply Nat.leb_le in Hlen. apply wordRuns_truthy in Hrun. apply allDigits_all in Hdig.
  split; [|split; [exact Hdig|]].
  - destruct token; [discriminate Hrun | cbn [String.length] in *; lia].
  - destruct token as [|c1 [|c2 [|c3 token]]];
      [discriminate Hrun | | | cbn [String.length] in Hlen; lia];
      cbn [parseDigits Js.all] in *.
    + apply andb_true_iff in Hdig. destruct Hdig as [H1 _]. apply digit_value in H1. lia.
    + apply andb_true_iff in Hdig. destruct Hdig as [H1 H2].
      apply andb_true_iff in H2. destruct H2 as [H2 _].
      apply digit_value in H1, H2. lia.
Qed.

Lemma digitTokens_two_digits_witness :
  (1 <= String.length "12" <= 2)%nat
  /\ Js.all Js.isDigit "12" = true
  /\ (parseDigits "12" 0 <= 99)%nat.
Proof.
  apply (@digitTokens_two_digits "vote 12 or 345, not a7" "12").
  vm_compute. now left.
Defined.

(** ** The partners *)

Lemma padToTwo_length l :
  (2 <= length (padToTwo l))%nat /\ ((length l <= 2)%nat -> length (padToTwo l) = 2%nat).
Proof.
  destruct l as [|a [|b [|c l]]]; cbn [padToTwo length map]; split; lia.
Qed.

Lemma padToTwo_In l e : In (Some e) (padToTwo l) -> In e l.
Proof.
  destruct l as [|a [|b l]]; cbn [padToTwo].
  - intros [H|[H|[]]]; discriminate.
  - intros [H|[H|[]]]; [injection H as <-; now left | discriminate].
  - intros H. apply in_map_iff in H. destruct H as [x [Hx Hin]]. now injection Hx as <-.
Qed.

(** X17.  [coupleElements] always has a first and a second slot, and exactly
    two when the roster shows at most two partners.  Each slot that is not
    [null] holds a numbered roster entry that shows the pairing sticker
    and whose text does not contain the player's name.  The name is
    matched as a substring: with the empty name every paired entry counts
    as the player's own and both slots are [null]. *)
Theorem coupleElements_slots (d : Dom) (myName : string) :
  (2 <= length (coupleElements d myName))%nat
  /\ ((length (filter (notMe myName) (loverElements d)) <= 2)%nat ->
      length (coupleElements d myName) = 2%nat)
  /\ (forall e, In (Some e) (coupleElements d myName) ->
        In e (allPlayerElements d)
        /\ existsb (fun img => Js.includes (src (attrs img)) "cupid_select_lovers_sticker_small")
                   (imgsOf e) = true
        /\ Js.includes (elemText e) myName = false)
  /\ coupleElements d "" = [None; None].
Proof.
  unfold coupleElements. split; [apply padToTwo_length|]. split; [apply padToTwo_length|]. split.
  - intros e H. apply padToTwo_In in H. apply filter_In in H. destruct H as [Hl Hme].
    unfold loverElements in Hl. apply filter_In in Hl. destruct Hl as [Hin Hst].
    unfold notMe in Hme. apply negb_true_iff in Hme. auto.
  - rewrite filter_none; [reflexivity|].
    intros x _. unfold notMe. now rewrite JsFacts.includes_empty.
Qed.

Lemma coupleElements_slots_witness :
  length (coupleElements rosterOfThree "Alice") = 2%nat.
Proof.
  apply (proj1 (proj2 (coupleElements_slots rosterOfThree "Alice"))).
  vm_compute. lia.
Defined.

(** ** The wolf team *)

Lemma includes_trans s key sub :
  Js.includes s key = true -> Js.includes key sub = true -> Js.includes s sub = true.
Proof.
  rewrite !JsFacts.includes_spec. intros [pre [post ->]] [pre' [post' ->]].
  exists (pre ++ pre')%string, (post' ++ post)%string.
  now rewrite !JsFacts.append_assoc.
Qed.

(** X18.  A role icon puts its owner into the wolf team exactly when its
    filename contains [wolf]: every key of the role map that stands for a
    wolf role contains that word, and no other key does.  Among the wolf
    roles the junior keys win over the split keys, and both over plain
    [wolf]. *)
Theorem wolf_team_iff_wolf_in_name (filename : string) :
  (WOLF_ROLES (Some (getPlayerRole (Some filename))) = true
   <-> Js.includes filename "wolf" = true)
  /\ (Js.includes filename "juniorwerewolf" || Js.includes filename "junior_werewolf" = true ->
      getPlayerRole (Some filename) = JuniorWerewolf)
  /\ (getPlayerRole (Some filename) = Wolf ->
      Js.includes filename "juniorwerewolf" = false
      /\ Js.includes filename "junior_werewolf" = false
      /\ Js.includes filename "split_wolf" = false
      /\ Js.includes filename "splitwolf" = false).
Proof.
  assert (Hk : forall key, Js.includes key "wolf" = true ->
                           Js.includes filename key = true ->
                           Js.includes filename "wolf" = true).
  { intros key Hkey Hf. eapply includes_trans; eauto. }
  pose proof (Hk "juniorwerewolf" eq_refl) as H1.
  pose proof (Hk "junior_werewolf" eq_refl) as H2.
  pose proof (Hk "split_wolf" eq_refl) as H3.
  pose proof (Hk "splitwolf" eq_refl) as H4.
  assert (Hrole : getPlayerRole (Some filename)
                  = if negb (Js.truthy filename) then Unknown
                    else scanRoleMap roleMap filename Other) by reflexivity.
  assert (Hempty : Js.truthy filename = false -> Js.includes filename "wolf" = false).
  { destruct filename; [reflexivity | discriminate]. }
  rewrite Hrole. clear Hrole. unfold roleMap. cbn [scanRoleMap].
  destruct (Js.truthy filename); cbn [negb].
  - clear Hempty.
    destruct (Js.includes filename "juniorwerewolf") eqn:E1;
      [rewrite (H1 eq_refl); cbn; intuition discriminate|].
    destruct (Js.includes filename "junior_werewolf") eqn:E2;
      [rewrite (H2 eq_refl); cbn; intuition discriminate|].
    destruct (Js.includes filename "split_wolf") eqn:E3;
      [rewrite (H3 eq_refl); cbn; intuition discriminate|].
    destruct (Js.includes filename "splitwolf") eqn:E4;
      [rewrite (H4 eq_refl); cbn; intuition discriminate|].
    destruct (Js.includes filename "wolf") eqn:E5; [cbn; intuition discriminate|].
    destruct (Js.includes filename "priest"); [cbn; intuition discriminate|].
    destruct (Js.includes filename "vigilante"); [cbn; intuition discriminate|].
    destruct (Js.includes filename "gunner"); cbn; intuition discriminate.
  - rewrite (Hempty eq_refl).
    assert (F : forall key, Js.includes filename key = true -> Js.includes key "wolf" = true ->
                            False).
    { intros key Hf Hkey. pose proof (includes_trans _ _ _ Hf Hkey) as Hw.
      rewrite (Hempty eq_refl) in Hw. discriminate. }
    split; [cbn; intuition discriminate|]. split; [|discriminate].
    intros H. apply orb_true_iff in H. exfalso.
    destruct H as [H|H]; eapply F; eauto.
Qed.

Lemma wolf_team_iff_wolf_in_name_witness :
  getPlayerRole (Some "junior_werewolf_icon.png") = JuniorWerewolf.
Proof.
  apply (proj1 (proj2 (wolf_team_iff_wolf_in_name "junior_werewolf_icon.png"))).
  vm_compute. reflexivity.
Defined.

(** ** The post-game handler *)

Lemma clicksIn_app a b : clicksIn (a ++ b) = (clicksIn a + clicksIn b)%nat.
Proof. unfold clicksIn. now rewrite filter_app, length_app. Qed.

Lemma click_buttonMove buttonText w t el :
  findButtonFn buttonText (w t) = Some el ->
  Forall (buttonMove buttonText w) (map (pair t) (click el))
  /\ (clicksIn (map (pair t) (click el)) <= 1)%nat.
Proof.
  intros Hf. destruct (click_cases el) as [[-> _]|[-> _]]; cbn [map]; split.
  - repeat constructor.
  - cbn. lia.
  - constructor; [exact I|]. constructor; [|constructor].
    split; [reflexivity|]. now exists el.
  - cbn. lia.
Qed.

Lemma clickUntilGone_run w buttonText attempts k :
  forall now,
  exists pre b t,
    eval w now (clickUntilGone buttonText attempts k)
    = mkRun (pre ++ events (eval w t (k b))) (outcome (eval w t (k b)))
    /\ now <= t <= now + Z.of_nat attempts * 2600
    /\ Forall (buttonMove buttonText w) pre
    /\ (clicksIn pre <= attempts)%nat.
Proof.
  induction attempts as [|n IH]; intros now; cbn [clickUntilGone eval].
  - exists [(now, Log "Failed to verify click after 3 attempts.")], false, now.
    split; [reflexivity|]. split; [lia|]. split; [repeat constructor | cbn; lia].
  - destruct (findButtonFn buttonText (w now)) as [freshButton|] eqn:F.
    + rewrite eval_emitAll. cbn [eval events outcome].
      destruct (click_buttonMove buttonText w now F) as [Hmove Hcount].
      destruct (@awaitCondition_resolves unit w
                  (fun d' => match findButtonFn buttonText d' with
                             | None => Some tt
                             | Some _ => None
                             end) 2000 100 CancelNone now ltac:(lia) ltac:(lia))
        as [t1 [r [E [Ht1 _]]]].
      rewrite E. destruct r as [[]|]; cbn [eval events outcome].
      * exists (map (pair now) (click freshButton)
                ++ [(t1, Log "Successfully clicked and it disappeared.")]), true, t1.
        split; [now rewrite <- app_assoc|]. split; [lia|]. split.
        -- apply Forall_app. split; [exact Hmove | repeat constructor].
        -- rewrite clicksIn_app. cbn. cbn in Hcount. lia.
      * destruct (IH (t1 + Z.max 0 500)) as [pre [b [t [Hrun [Ht [Hpre Hc]]]]]].
        rewrite Hrun. cbn [events outcome].
        exists (map (pair now) (click freshButton)
                ++ (t1, Log "Clicked but it didn't disappear. Retrying...") :: pre), b, t.
        split; [now rewrite <- app_assoc|]. split; [lia|]. split.
        -- apply Forall_app. split; [exact Hmove|]. constructor; [exact I | exact Hpre].
        -- rewrite clicksIn_app. change (clicksIn ((t1, Log _) :: pre)) with (clicksIn pre).
           lia.
    + exists [(now, Log "Button disappeared before click attempt. Success.")], true, now.
      split; [reflexivity|]. split; [lia|]. split; [repeat constructor | cbn; lia].
Qed.

Lemma robustClickAndVerify_run w buttonText cancelText timeout k :
  0 <= timeout ->
  forall now,
  exists pre b t,
    eval w now (robustClickAndVerify buttonText cancelText timeout 200 k)
    = mkRun (pre ++ events (eval w t (k b))) (outcome (eval w t (k b)))
    /\ now <= t < now + timeout + 13400
    /\ Forall (buttonMove buttonText w) pre
    /\ (clicksIn pre <= 5)%nat.
Proof.
  intros Hto now. unfold robustClickAndVerify. cbn [eval].
  destruct (@awaitCondition_resolves Element w (findButtonFn buttonText) timeout 200 cancelText
              now ltac:(lia) Hto) as [t1 [r [E [Ht1 _]]]].
  rewrite E. destruct r as [button|].
  - change (200 >? 0) with true. cbn [eval].
    destruct (clickUntilGone_run w buttonText 5 k (t1 + Z.max 0 200))
      as [pre [b [t [Hrun [Ht [Hpre Hc]]]]]].
    rewrite Hrun. cbn [events outcome].
    exists ((now, Log "Attempting robust click for:")
            :: (t1, Log "Found button, waiting before clicking.") :: pre), b, t.
    split; [reflexivity|]. split; [lia|]. split.
    + constructor; [exact I|]. constructor; [exact I | exact Hpre].
    + exact Hc.
  - cbn [eval events outcome].
    exists [(now, Log "Attempting robust click for:");
            (t1, Log "Button not found or wait was cancelled.")], false, t1.
    split; [reflexivity|]. split; [lia|]. split; [repeat constructor | cbn; lia].
Qed.

Lemma buttonMove_postGame rectTop w buttonText e :
  buttonText = "Continue" \/ buttonText = "Play again" ->
  buttonMove buttonText w e -> postGameMove rectTop w (fst e) (snd e).
Proof.
  intros Ht. unfold buttonMove, postGameMove. destruct (snd e); try tauto.
  intros [Hb [el [Hu Hf]]]. split; [exact Hb|]. exists el. split; [exact Hu|].
  destruct Ht as [->| ->]; tauto.
Qed.

Lemma buttonMove_noReload buttonText w e : buttonMove buttonText w e -> isReload (snd e) = false.
Proof. unfold buttonMove. destruct (snd e); try tauto; reflexivity. Qed.

(** The run of [playAgain] off the waiting screen: two button rounds, then
    either the reload or the look for the [OK] button. *)
Lemma playAgain_run rectTop w now :
  findTextInDocument (w now) "Waiting for players" = false ->
  exists pre last t,
    eval w now (playAgain rectTop) = mkRun (pre ++ last) (Fulfilled t)
    /\ now <= t < now + 160000
    /\ Forall (fun e => postGameMove rectTop w (fst e) (snd e)) (pre ++ last)
    /\ Forall (fun e => isReload (snd e) = false) pre
    /\ (clicksIn pre <= 10)%nat
    /\ (last = [(t, Log "'Play again' button flow failed after 120s timeout. Refreshing page.");
                (t, Reload)]
        \/ last = []
        \/ exists ok, findOkButton rectTop (w t) = Some ok
                      /\ last = (t, Log "Found 'OK' button in leave confirmation, clicking it.")
                                :: map (pair t) (click ok)).
Proof.
  intros Hwait. unfold playAgain. cbn [eval]. rewrite Hwait.
  destruct (@robustClickAndVerify_run w "Continue" (CancelTexts ["START GAME"; "Play again"])
              10000
              (fun _ =>
                 robustClickAndVerify "Play again" (CancelText "INVENTORY") 120000 200
                   (fun playAgainSuccess =>
                      if negb playAgainSuccess then
                        Emit (Log "'Play again' button flow failed after 120s timeout. Refreshing page.")
                             (Emit Reload Done)
                      else
                        WaitFor (findOkButton rectTop) 3000 200 CancelNone
                          (fun okButton =>
                             match okButton with
                             | Some ok =>
                                 Emit (Log "Found 'OK' button in leave confirmation, clicking it.")
                                      (emitAll (click ok) Done)
                             | None => Done
                             end)))
              ltac:(lia) now) as [pre1 [b1 [t1 [Hrun1 [Ht1 [Hpre1 Hc1]]]]]].
  rewrite Hrun1. clear Hrun1.
  destruct (@robustClickAndVerify_run w "Play again" (CancelText "INVENTORY") 120000
              (fun playAgainSuccess =>
                 if negb playAgainSuccess then
                   Emit (Log "'Play again' button flow failed after 120s timeout. Refreshing page.")
                        (Emit Reload Done)
                 else
                   WaitFor (findOkButton rectTop) 3000 200 CancelNone
                     (fun okButton =>
                        match okButton with
                        | Some ok =>
                            Emit (Log "Found 'OK' button in leave confirmation, clicking it.")
                                 (emitAll (click ok) Done)
                        | None => Done
                        end))
              ltac:(lia) t1) as [pre2 [b2 [t2 [Hrun2 [Ht2 [Hpre2 Hc2]]]]]].
  rewrite Hrun2. clear Hrun2. cbn [events outcome].
  assert (Hpre : Forall (fun e => postGameMove rectTop w (fst e) (snd e)) (pre1 ++ pre2)).
  { apply Forall_app. split.
    - eapply Forall_impl; [|exact Hpre1]. intros e. apply buttonMove_postGame. now left.
    - eapply Forall_impl; [|exact Hpre2]. intros e. apply buttonMove_postGame. now right. }
  assert (Hnr : Forall (fun e => isReload (snd e) = false) (pre1 ++ pre2)).
  { apply Forall_app. split.
    - eapply Forall_impl; [|exact Hpre1]. intros e. apply buttonMove_noReload.
    - eapply Forall_impl; [|exact Hpre2]. intros e. apply buttonMove_noReload. }
  assert (Hc : (clicksIn (pre1 ++ pre2) <= 10)%nat) by (rewrite clicksIn_app; lia).
  destruct b2; cbn [negb eval events outcome].
  - destruct (@awaitCondition_resolves Element w (findOkButton rectTop) 3000 200 CancelNone t2
                ltac:(lia) ltac:(lia)) as [t3 [r [E [Ht3 Hr]]]].
    rewrite E. destruct r as [ok|].
    + cbn [eval]. rewrite eval_emitAll. cbn [eval events outcome]. rewrite app_nil_r.
      exists (pre1 ++ pre2),
             ((t3, Log "Found 'OK' button in leave confirmation, clicking it.")
              :: map (pair t3) (click ok)), t3.
      split; [now rewrite <- app_assoc|]. split; [lia|]. split; [|split; [exact Hnr|split]].
      * apply Forall_app. split; [exact Hpre|]. constructor; [exact I|].
        specialize (Hr ok eq_refl).
        destruct (click_cases ok) as [[-> _]|[-> _]]; cbn [map].
        -- repeat constructor.
        -- constructor; [exact I|]. constructor; [|constructor].
           cbn [fst snd postGameMove]. split; [reflexivity|]. exists ok. tauto.
      * exact Hc.
      * right. right. exists ok. split; [apply Hr; reflexivity | reflexivity].
    + cbn [eval events outcome]. exists (pre1 ++ pre2), [], t3.
      split; [now rewrite !app_nil_r|]. split; [lia|].
      split; [now rewrite app_nil_r|]. split; [exact Hnr|]. split; [exact Hc|]. tauto.
  - exists (pre1 ++ pre2),
           [(t2, Log "'Play again' button flow failed after 120s timeout. Refreshing page.");
            (t2, Reload)], t2.
    split; [now rewrite <- app_assoc|]. split; [lia|]. split; [|split; [exact Hnr|split]].
    + apply Forall_app. split; [exact Hpre | repeat constructor].
    + exact Hc.
    + now left.
Qed.

Lemma reloadsIn_none evs :
  Forall (fun e : Z * Action => isReload (snd e) = false) evs ->
  filter (fun e => isReload (snd e)) evs = [].
Proof. intros H. apply filter_none. now apply Forall_forall. Qed.

Lemma click_noReload (t : Z) el :
  Forall (fun e : Z * Action => isReload (snd e) = false) (map (pair t) (click el)).
Proof. destruct (click_cases el) as [[-> _]|[-> _]]; repeat constructor. Qed.

Lemma click_clicksIn (t : Z) el : (clicksIn (map (pair t) (click el)) <= 1)%nat.
Proof. destruct (click_cases el) as [[-> _]|[-> _]]; cbn; lia. Qed.

(** X19.  [playAgain] always returns, and within 160 seconds: none of its
    waits can hang and none of its steps throws.  On the screen that shows
    ['Waiting for players'] it returns at once without any action. *)
Theorem playAgain_settles (rectTop : Element -> Z) (w : World) (now : Z) :
  (findTextInDocument (w now) "Waiting for players" = true ->
   eval w now (playAgain rectTop) = mkRun [] (Fulfilled now))
  /\ exists t, outcome (eval w now (playAgain rectTop)) = Fulfilled t
               /\ now <= t < now + 160000.
Proof.
  split.
  - intros H. unfold playAgain. cbn [eval]. now rewrite H.
  - destruct (findTextInDocument (w now) "Waiting for players") eqn:H.
    + exists now. unfold playAgain. cbn [eval]. rewrite H. cbn. split; [reflexivity | lia].
    + destruct (playAgain_run rectTop w now H) as [pre [last [t [Hrun [Ht _]]]]].
      exists t. rewrite Hrun. split; [reflexivity | exact Ht].
Qed.

Lemma playAgain_settles_witness :
  eval (fun _ => waitingPage) 0 (playAgain (fun _ => 200)) = mkRun [] (Fulfilled 0).
Proof.
  apply (proj1 (playAgain_settles (fun _ => 200) (fun _ => waitingPage) 0)).
  vm_compute. reflexivity.
Defined.

(** X20.  What [playAgain] does to the page.  Every click goes to the
    control that the lookup for ['Continue'], for ['Play again'] or for the
    [OK] button of the leave confirmation returns on the page of that
    moment; there are at most five clicks for each of the two buttons and
    one for [OK].  The page is reloaded at most once, and a reload is the
    last thing the handler does: the [OK] button is not looked for
    afterwards. *)
Theorem playAgain_moves (rectTop : Element -> Z) (w : World) (now : Z) :
  allEvents (postGameMove rectTop w) (eval w now (playAgain rectTop))
  /\ (clickCount (eval w now (playAgain rectTop)) <= 11)%nat
  /\ (reloadCount (eval w now (playAgain rectTop)) <= 1)%nat
  /\ (reloadCount (eval w now (playAgain rectTop)) = 1%nat ->
      exists pre t,
        events (eval w now (playAgain rectTop)) = pre ++ [(t, Reload)]
        /\ outcome (eval w now (playAgain rectTop)) = Fulfilled t).
Proof.
  destruct (findTextInDocument (w now) "Waiting for players") eqn:H.
  - unfold playAgain, allEvents, clickCount, clicksIn, reloadCount. cbn [eval]. rewrite H. cbn.
    split; [constructor|]. split; [lia|]. split; [lia | discriminate].
  - destruct (playAgain_run rectTop w now H)
      as [pre [last [t [Hrun [Ht [Hmove [Hnr [Hc Hlast]]]]]]]].
    unfold allEvents, clickCount, reloadCount. rewrite Hrun. cbn [events outcome].
    split; [exact Hmove|].
    rewrite clicksIn_app, !filter_app, !length_app, (reloadsIn_none Hnr).
    cbn [length Nat.add].
    destruct Hlast as [->|[->|[ok [_ ->]]]].
    + split; [cbn; lia|]. split; [cbn; lia|]. intros _.
      exists (pre ++ [(t, Log "'Play again' button flow failed after 120s timeout. Refreshing page.")]), t.
      split; [now rewrite <- app_assoc | reflexivity].
    + split; [cbn; lia|]. split; [cbn; lia | discriminate].
    + change (clicksIn ((t, Log "Found 'OK' button in leave confirmation, clicking it.")
                        :: map (pair t) (click ok)))
        with (clicksIn (map (pair t) (click ok))).
      pose proof (click_clicksIn t ok) as Hok.
      cbn [filter snd isReload]. rewrite (reloadsIn_none (click_noReload t ok)).
      split; [lia|]. split; [cbn; lia | discriminate].
Qed.

Lemma playAgain_moves_witness :
  exists pre t,
    events (eval (fun _ => stuckPostGame) 0 (playAgain (fun _ => 200))) = pre ++ [(t, Reload)]
    /\ outcome (eval (fun _ => stuckPostGame) 0 (playAgain (fun _ => 200))) = Fulfilled t.
Proof.
  apply (proj2 (proj2 (proj2 (playAgain_moves (fun _ => 200) (fun _ => stuckPostGame) 0)))).
  vm_compute. reflexivity.
Defined.

Lemma clickAndVerifyDisappear_run w verifyDisappearText findElementFn retries :
  forall now,
  exists evs t,
    eval w now (clickAndVerifyDisappear verifyDisappearText findElementFn retries)
    = mkRun evs (Fulfilled t)
    /\ now <= t <= now + Z.of_nat retries * 1550
    /\ (clicksIn evs <= retries)%nat
    /\ Forall (fun e => match snd e with
                        | Log _ => True
                        | PerformClick target _ =>
                            findTextInDocument (w (fst e)) verifyDisappearText = true
                            /\ exists el, findElementFn (w (fst e)) = Some el
                                          /\ uid (attrs el) = target
                        | _ => False
                        end) evs.
Proof.
  induction retries as [|n IH]; intros now; cbn [clickAndVerifyDisappear eval].
  - exists [], now. split; [reflexivity|]. split; [lia|]. split; [cbn; lia | constructor].
  - destruct (findTextInDocument (w now) verifyDisappearText) eqn:Htext; cbn [negb].
    2:{ exists [], now. split; [reflexivity|]. split; [lia|]. split; [cbn; lia | constructor]. }
    destruct (findElementFn (w now)) as [elementToClick|] eqn:F.
    + rewrite eval_emitAll. cbn [eval events outcome].
      destruct (@awaitCondition_resolves unit w
                  (fun d' => if negb (findTextInDocument d' verifyDisappearText)
                             then Some tt else None) 1500 50 CancelNone now
                  ltac:(lia) ltac:(lia)) as [t1 [r [E [Ht1 _]]]].
      rewrite E.
      assert (Hclick : Forall (fun e => match snd e with
                                        | Log _ => True
                                        | PerformClick target _ =>
                                            findTextInDocument (w (fst e)) verifyDisappearText = true
                                            /\ exists el, findElementFn (w (fst e)) = Some el
                                                          /\ uid (attrs el) = target
                                        | _ => False
                                        end) (map (pair now) (click elementToClick))).
      { destruct (click_cases elementToClick) as [[-> _]|[-> _]]; cbn [map].
        - repeat constructor.
        - constructor; [exact I|]. constructor; [|constructor]. cbn [fst snd].
          split; [exact Htext|]. now exists elementToClick. }
      pose proof (click_clicksIn now elementToClick) as Hone.
      destruct r as [[]|].
      * cbn [eval events outcome]. rewrite app_nil_r.
        exists (map (pair now) (click elementToClick)), t1.
        split; [reflexivity|]. split; [lia|]. split; [lia | exact Hclick].
      * destruct (IH t1) as [evs [t [Hrun [Ht [Hc Hall]]]]]. rewrite Hrun. cbn [events outcome].
        exists (map (pair now) (click elementToClick) ++ evs), t.
        split; [reflexivity|]. split; [lia|]. split.
        -- rewrite clicksIn_app. lia.
        -- apply Forall_app. now split.
    + cbn [eval]. destruct (IH (now + Z.max 0 200)) as [evs [t [Hrun [Ht [Hc Hall]]]]].
      rewrite Hrun. exists evs, t. split; [reflexivity|]. split; [lia|]. split; [lia | exact Hall].
Qed.

(** X21.  [clickAndVerifyDisappear] never clicks more often than it has
    retries, clicks only what [findElementFn] returns while the text is
    still on the page, does nothing at all when the text is already gone,
    and always returns, after at most 1550 ms for each retry. *)
Theorem clickAndVerifyDisappear_bounded (w : World) (now : Z) (verifyDisappearText : string)
        (findElementFn : Dom -> option Element) (retries : nat) :
  (findTextInDocument (w now) verifyDisappearText = false ->
   eval w now (clickAndVerifyDisappear verifyDisappearText findElementFn retries)
   = mkRun [] (Fulfilled now))
  /\ (clickCount (eval w now (clickAndVerifyDisappear verifyDisappearText findElementFn retries))
      <= retries)%nat
  /\ (exists t,
        outcome (eval w now (clickAndVerifyDisappear verifyDisappearText findElementFn retries))
        = Fulfilled t
        /\ now <= t <= now + Z.of_nat retries * 1550)
  /\ allEvents (fun t a => match a with
                           | Log _ => True
                           | PerformClick target _ =>
                               findTextInDocument (w t) verifyDisappearText = true
                               /\ exists el, findElementFn (w t) = Some el
                                             /\ uid (attrs el) = target
                           | _ => False
                           end)
               (eval w now (clickAndVerifyDisappear verifyDisappearText findElementFn retries)).
Proof.
  split.
  - intros H. destruct retries as [|n]; [reflexivity|].
    cbn [clickAndVerifyDisappear eval]. now rewrite H.
  - destruct (clickAndVerifyDisappear_run w verifyDisappearText findElementFn retries now)
      as [evs [t [Hrun [Ht [Hc Hall]]]]].
    unfold clickCount, allEvents. rewrite Hrun. cbn [events outcome].
    split; [exact Hc|]. split; [now exists t | exact Hall].
Qed.

Lemma clickAndVerifyDisappear_bounded_witness :
  eval (fun _ => quietDay) 0 (clickAndVerifyDisappear "Continue" (findButtonFn "Continue") 3)
  = mkRun [] (Fulfilled 0).
Proof.
  apply (proj1 (@clickAndVerifyDisappear_bounded (fun _ => quietDay) 0 "Continue"
                  (findButtonFn "Continue") 3)).
  vm_compute. reflexivity.
Defined.

(** ** The element waits *)





(** ** A cycle on a post-game screen *)

(** X23.  A page whose rendered text contains ['Continue'] is handled by
    [playAgain], whatever else it shows: the cycle of [main] resets the
    lobby timestamp, logs the state, logs the exit from the lobby when a
    non-zero timestamp was set, and then runs [playAgain] and nothing
    else.  Such a cycle always ends, within 160 seconds, and on the screen
    that keeps waiting for the other players it takes no action besides
    the log lines. *)
Theorem post_game_cycle (rectTop : Element -> Z)
        (customLobby handleHomeScreen handleGameScreen : Prog)
        (myName : string) (ts : option Z) (w : World) (now : Z) :
  Js.includes (innerText (w now)) "Continue" = true ->
  fst (main (playAgain rectTop) customLobby handleHomeScreen handleGameScreen
            myName ts now (w now)) = None
  /\ snd (main (playAgain rectTop) customLobby handleHomeScreen handleGameScreen
               myName ts now (w now))
     = Emit (Log "State check:")
            (match ts with
             | Some entered =>
                 if entered =? 0 then playAgain rectTop
                 else Emit (Log "Exited LOBBY state. Resetting timeout.") (playAgain rectTop)
             | None => playAgain rectTop
             end)
  /\ (exists t,
        outcome (eval w now (snd (main (playAgain rectTop) customLobby handleHomeScreen
                                       handleGameScreen myName ts now (w now))))
        = Fulfilled t
        /\ now <= t < now + 160000)
  /\ (findTextInDocument (w now) "Waiting for players" = true ->
      allEvents (fun _ a => isLog a)
                (eval w now (snd (main (playAgain rectTop) customLobby handleHomeScreen
                                       handleGameScreen myName ts now (w now))))).
Proof.
  intros Hc.
  assert (Hstate : determineGameState (w now) = POST_GAME).
  { unfold determineGameState. now rewrite Hc. }
  unfold main. rewrite Hstate. cbn [fst snd dispatch].
  split; [reflexivity|]. split; [reflexivity|].
  assert (Hrun : forall p,
             p = playAgain rectTop
             \/ p = Emit (Log "Exited LOBBY state. Resetting timeout.") (playAgain rectTop) ->
             (exists t, outcome (eval w now (Emit (Log "State check:") p)) = Fulfilled t
                        /\ now <= t < now + 160000)
             /\ (findTextInDocument (w now) "Waiting for players" = true ->
                 allEvents (fun _ a => isLog a) (eval w now (Emit (Log "State check:") p)))).
  { intros p Hp. split.
    - destruct (findTextInDocument (w now) "Waiting for players") eqn:Hw.
      + exists now. split; [|lia].
        destruct Hp as [-> | ->]; cbn [eval outcome]; unfold playAgain; cbn [eval];
          rewrite Hw; reflexivity.
      + destruct (playAgain_run rectTop w now Hw) as [pre [last [t [Hr [Ht _]]]]].
        exists t. split; [|exact Ht].
        destruct Hp as [-> | ->]; cbn [eval outcome]; now rewrite Hr.
    - intros Hw. apply allEvents_Emit; [exact I|].
      destruct Hp as [-> | ->].
      + unfold playAgain. apply allEvents_Read. rewrite Hw. constructor.
      + apply allEvents_Emit; [exact I|].
        unfold playAgain. apply allEvents_Read. rewrite Hw. constructor. }
  destruct ts as [entered|]; [destruct (entered =? 0)|]; apply Hrun; auto.
Qed.

Lemma post_game_cycle_witness :
  fst (main (playAgain (fun _ => 200)) Done Done Done "Alice" (Some 5) 0 waitingPage) = None
  /\ snd (main (playAgain (fun _ => 200)) Done Done Done "Alice" (Some 5) 0 waitingPage)
     = Emit (Log "State check:")
            (if 5 =? 0 then playAgain (fun _ => 200)
             else Emit (Log "Exited LOBBY state. Resetting timeout.")
                       (playAgain (fun _ => 200)))
  /\ (exists t,
        outcome (eval (fun _ => waitingPage) 0
                      (snd (main (playAgain (fun _ => 200)) Done Done Done "Alice" (Some 5) 0
                                 waitingPage)))
        = Fulfilled t
        /\ 0 <= t < 0 + 160000)
  /\ (findTextInDocument waitingPage "Waiting for players" = true ->
      allEvents (fun _ a => isLog a)
                (eval (fun _ => waitingPage) 0
                      (snd (main (playAgain (fun _ => 200)) Done Done Done "Alice" (Some 5) 0
                                 waitingPage)))).
Proof.
  apply (@post_game_cycle (fun _ => 200) Done Done Done "Alice" (Some 5)
           (fun _ => waitingPage) 0).
  vm_compute. reflexivity.
Defined.

(** ** Starting and stopping the bot *)

Section ControllerFacts.

Import Controller.

Lemma atRest_step b e :
  atRest b -> stopsAtRest b [e] -> atRest (step b e).
Proof.
  unfold atRest. destruct b as [running active handle ts way next].
  cbn [BOT_RUNNING underWay timers loopHandle].
  intros Hinv [Hstop _]. destruct e as [action enabled name|i|id]; cbn [step].
  - unfold onMessage. destruct (String.eqb action "toggleBot") eqn:Ea; cbn [negb].
    2:{ exact Hinv. }
    destruct enabled.
    + unfold startBot. cbn [BOT_RUNNING]. destruct running; [exact Hinv|].
      destruct Hinv as [-> ->]. cbn. left. now exists name.
    + unfold stopBot. cbn [BOT_RUNNING]. destruct running; cbn [negb]; [|exact Hinv].
      cbn [BOT_RUNNING underWay timers loopHandle].
      specialize (Hstop eq_refl eq_refl). cbn [underWay] in Hstop. subst way.
      destruct Hinv as [[n [Hw _]]|[id [n [_ [-> ->]]]]]; [discriminate Hw|].
      split; [reflexivity|]. cbn [clearTimeout filter fst]. now rewrite Nat.eqb_refl.
  - unfold settle. cbn [underWay BOT_RUNNING].
    destruct running.
    + destruct Hinv as [[n [-> ->]]|[id [n [-> [-> ->]]]]].
      * destruct i as [|i]; cbn [nth_error].
        -- cbn. right. exists next, n. repeat split.
        -- destruct i; cbn; left; now exists n.
      * destruct i; cbn; right; exists id, n; repeat split.
    + destruct Hinv as [-> ->]. destruct i; cbn; split; reflexivity.
  - unfold fire. cbn [timers].
    destruct running.
    + destruct Hinv as [[n [-> ->]]|[id0 [n [-> [-> ->]]]]].
      * cbn. left. now exists n.
      * cbn [find fst]. destruct (Nat.eqb id0 id) eqn:E.
        -- cbn. rewrite E. cbn. left. now exists n.
        -- cbn. right. exists id0, n. repeat split.
    + destruct Hinv as [-> ->]. cbn. split; reflexivity.
Qed.

Lemma atRest_run events :
  forall b, atRest b -> stopsAtRest b events -> atRest (fold_left step events b).
Proof.
  induction events as [|e rest IH]; intros b Hinv Hstops; cbn [fold_left]; [exact Hinv|].
  destruct Hstops as [He Hrest]. apply IH; [|exact Hrest].
  apply atRest_step; [exact Hinv|]. split; [exact He | exact I].
Qed.

End ControllerFacts.

(** X24.  One loop at a time, as long as the bot is stopped between cycles.
    From the state in which the script is loaded, and whatever messages
    arrive, calls of [main] settle and timers fire: when no call of [main] is
    under way at the moments the bot is stopped, there is exactly one
    loop alive while [BOT_RUNNING] holds and none while it does not; a
    second start while the bot runs changes nothing. *)
Theorem one_loop_when_stopped_at_rest (events : list Controller.Event) :
  Controller.stopsAtRest Controller.loaded events ->
  let b := fold_left Controller.step events Controller.loaded in
  Controller.alive b = (if Controller.BOT_RUNNING b then 1%nat else 0%nat)
  /\ forall name, Controller.BOT_RUNNING b = true -> Controller.startBot name b = b.
Proof.
  intros Hstops. cbv zeta.
  assert (Hinv : atRest (fold_left Controller.step events Controller.loaded)).
  { apply atRest_run; [|exact Hstops]. split; reflexivity. }
  unfold atRest, Controller.alive in *.
  split.
  - destruct (Controller.BOT_RUNNING _).
    + destruct Hinv as [[n [-> ->]]|[id [n [-> [-> _]]]]]; reflexivity.
    + destruct Hinv as [-> ->]. reflexivity.
  - intros name Hrun. unfold Controller.startBot. now rewrite Hrun.
Qed.

Lemma one_loop_when_stopped_at_rest_witness :
  Controller.alive (fold_left Controller.step quietSession Controller.loaded)
  = (if Controller.BOT_RUNNING (fold_left Controller.step quietSession Controller.loaded)
     then 1%nat else 0%nat).
Proof.
  apply (one_loop_when_stopped_at_rest quietSession).
  cbn. repeat split; intros; try reflexivity; discriminate.
Defined.

(** X25.  A stop in the middle of a cycle does not end the loop when the
    bot is started again before the cycle is over.  [stopBot] has no
    timer to clear, [startBot] begins a second loop, and when the call of
    [main] of the first loop settles its [finally] block finds
    [BOT_RUNNING] set and schedules the next cycle: two loops are alive
    from then on, the first still under the name it was started with. *)
Theorem restart_during_cycle_doubles_loop (b : Controller.Bot) (name name' : string) :
  Controller.BOT_RUNNING b = true ->
  Controller.underWay b = [name] ->
  Controller.timers b = [] ->
  let b' := fold_left Controller.step (restartDuringCycle name') b in
  Controller.BOT_RUNNING b' = true
  /\ Controller.ACTIVE_NAME b' = name'
  /\ Controller.underWay b' = []
  /\ map snd (Controller.timers b') = [name; name']
  /\ Controller.alive b' = 2%nat.
Proof.
  destruct b as [running active handle ts way next]. cbn [Controller.BOT_RUNNING
    Controller.underWay Controller.timers]. intros -> -> ->.
  cbv zeta. unfold restartDuringCycle. cbn [fold_left Controller.step].
  unfold Controller.onMessage. cbn [String.eqb Ascii.eqb Bool.eqb negb].
  destruct handle as [id|]; cbn; repeat split; reflexivity.
Qed.

Lemma restart_during_cycle_doubles_loop_witness :
  Controller.alive (fold_left Controller.step (restartDuringCycle "Bob") midCycle) = 2%nat.
Proof.
  apply (@restart_during_cycle_doubles_loop midCycle "Alice" "Bob"); reflexivity.
Defined.

(** ** The background script *)

Section BackgroundFacts.

Import Background.

Variable Coord : Type.
Variable chrome : Browser Coord.

Lemma ensureDebuggerAttached_run tabId s :
  exists r target',
    ensureDebuggerAttached chrome tabId s
    = (r, mkState target' (calls s ++ attachCalls Coord (attachedTarget s) tabId))
    /\ match r with
       | Returned _ => target' = Some tabId
       | Thrown e =>
           target' = None
           /\ attachedTarget s <> Some tabId
           /\ exists before, rejects chrome before (Attach Coord tabId "1.2") = Some e
       end.
Proof.
  destruct s as [target cs]. unfold ensureDebuggerAttached, attachCalls, bind, getAttachedTarget.
  cbn [attachedTarget calls].
  destruct target as [t|].
  - destruct (Nat.eqb_spec t tabId) as [->|Hne].
    + exists (Returned tt), (Some tabId). rewrite app_nil_r. split; reflexivity.
    + unfold catch, bind, await, setAttachedTarget, throw, ret. cbn [attachedTarget calls].
      destruct (rejects chrome cs (Detach Coord t)); cbn [attachedTarget calls].
      all: destruct (rejects chrome (cs ++ [Detach Coord t]) (Attach Coord tabId "1.2"))
             as [e|] eqn:E; cbn [attachedTarget calls].
      all: rewrite <- app_assoc; cbn [app].
      all: try (exists (Thrown e), None; split; [reflexivity|];
                split; [reflexivity|]; split; [congruence | eauto]).
      all: exists (Returned tt), (Some tabId); split; reflexivity.
  - unfold catch, bind, await, setAttachedTarget, throw, ret. cbn [attachedTarget calls].
    destruct (rejects chrome cs (Attach Coord tabId "1.2")) as [e|] eqn:E;
      cbn [attachedTarget calls].
    + exists (Thrown e), None. split; [reflexivity|]. split; [reflexivity|].
      split; [discriminate | eauto].
    + exists (Returned tt), (Some tabId). split; reflexivity.
Qed.

Lemma sendAll_run events s :
  exists r n,
    sendAll chrome events s
    = (r, mkState (attachedTarget s)
                  (calls s ++ map (SendCommand (attachedTarget s) "Input.dispatchMouseEvent")
                                  (firstn n events)))
    /\ (n <= length events)%nat
    /\ match r with
       | Returned _ => n = length events
       | Thrown _ => (0 < n)%nat
       end.
Proof.
  revert s. induction events as [|ev rest IH]; intros s; cbn [sendAll].
  - exists (Returned tt), O. unfold ret. cbn [firstn map]. rewrite app_nil_r.
    destruct s. split; [reflexivity|]. split; [cbn; lia | reflexivity].
  - unfold bind at 1, sendCommand, bind, getAttachedTarget, await.
    destruct (rejects chrome (calls s) (SendCommand (attachedTarget s) _ ev)) as [e|].
    + exists (Thrown e), 1%nat. cbn [firstn map length].
      split; [reflexivity|]. split; lia.
    + destruct (IH (mkState (attachedTarget s)
                            (calls s ++ [SendCommand (attachedTarget s)
                                           "Input.dispatchMouseEvent" ev])))
        as [r [n [Hrun [Hn Hr]]]].
      rewrite Hrun. cbn [attachedTarget calls].
      exists r, (S n). cbn [firstn map length]. rewrite <- app_assoc. cbn [app].
      split; [reflexivity|]. split; [lia|]. destruct r; lia.
Qed.

(** What one call of [performClick] does, case by case. *)
Lemma performClick_run x y button s :
  (exists e,
     rejects chrome (calls s) (TabsQuery Coord) = Some e
     /\ performClick chrome x y button s
        = (Thrown e, mkState (attachedTarget s) (calls s ++ [TabsQuery Coord])))
  \/ (rejects chrome (calls s) (TabsQuery Coord) = None
      /\ tabs chrome (calls s ++ [TabsQuery Coord]) = []
      /\ performClick chrome x y button s
         = (Thrown "No Wolvesville tab found",
            mkState (attachedTarget s) (calls s ++ [TabsQuery Coord])))
  \/ (exists tab others,
        rejects chrome (calls s) (TabsQuery Coord) = None
        /\ tabs chrome (calls s ++ [TabsQuery Coord]) = tab :: others
        /\ ((exists e,
               attachedTarget s <> Some tab
               /\ performClick chrome x y button s
                  = (Thrown e,
                     mkState None (calls s ++ TabsQuery Coord
                                            :: attachCalls Coord (attachedTarget s) tab)))
            \/ exists r n,
                 performClick chrome x y button s
                 = (r, mkState (Some tab)
                               (calls s ++ TabsQuery Coord
                                  :: attachCalls Coord (attachedTarget s) tab
                                  ++ firstn n (clickCommands tab x y button)))
                 /\ (n <= 3)%nat
                 /\ match r with
                    | Returned _ => n = 3%nat
                    | Thrown _ => (0 < n)%nat
                    end)).
Proof.
  set (s1 := mkState (attachedTarget s) (calls s ++ [TabsQuery Coord])).
  assert (Hpc : performClick chrome x y button s
                = match rejects chrome (calls s) (TabsQuery Coord) with
                  | Some e => (Thrown e, s1)
                  | None =>
                      match tabs chrome (calls s ++ [TabsQuery Coord]) with
                      | [] => (Thrown "No Wolvesville tab found", s1)
                      | tab :: _ =>
                          match ensureDebuggerAttached chrome tab s1 with
                          | (Returned _, s2) => sendAll chrome (mouseEvents x y button) s2
                          | (Thrown e, s2) => (Thrown e, s2)
                          end
                      end
                  end).
  { unfold performClick, bind, await, throw.
    destruct (rejects chrome (calls s) (TabsQuery Coord)); reflexivity. }
  rewrite Hpc. clear Hpc.
  destruct (rejects chrome (calls s) (TabsQuery Coord)) as [e|] eqn:Eq.
  - left. exists e. split; reflexivity.
  - right.
    destruct (tabs chrome (calls s ++ [TabsQuery Coord])) as [|tab others] eqn:Et.
    + left. split; [reflexivity|]. split; reflexivity.
    + right. exists tab, others. split; [reflexivity|]. split; [reflexivity|].
      destruct (ensureDebuggerAttached_run tab s1) as [r [target' [Hrun Hr]]].
      rewrite Hrun. subst s1. cbn [attachedTarget calls] in *. rewrite <- app_assoc. cbn [app].
      destruct r as [[]|e].
      * subst target'. right.
        destruct (sendAll_run (mouseEvents x y button)
                    (mkState (Some tab)
                             (calls s ++ TabsQuery Coord
                                :: attachCalls Coord (attachedTarget s) tab)))
          as [r [n [Hsend [Hn Hr]]]].
        rewrite Hsend. cbn [attachedTarget calls]. exists r, n.
        change (clickCommands tab x y button)
          with (map (SendCommand (Some tab) "Input.dispatchMouseEvent")
                    (mouseEvents x y button)).
        rewrite <- firstn_map, <- app_assoc. cbn [app].
        split; [reflexivity|]. split; [exact Hn | exact Hr].
      * left. destruct Hr as [-> [Hne _]]. exists e. split; [exact Hne | reflexivity].
Qed.

End BackgroundFacts.

(** X26.  [ensureDebuggerAttached] keeps [attachedTarget] in step with the
    debugger.  When the debugger is attached to the tab it makes no call,
    changes nothing and returns.  Otherwise it detaches the previous
    target, if there is one, and then, whether or not the detach was
    rejected, attaches to the tab with protocol version 1.2.  When the
    browser fulfils the attach it returns with [attachedTarget] on the
    tab; when the browser rejects the attach it throws the error of the
    browser with [attachedTarget] at [null], so that a failed switch to
    another tab leaves the script attached to none. *)
Theorem ensureDebuggerAttached_tracks_target (Coord : Type) (chrome : Background.Browser Coord)
        (tabId : nat) (s : Background.State Coord) :
  (Background.attachedTarget s = Some tabId ->
   Background.ensureDebuggerAttached chrome tabId s = (Background.Returned tt, s))
  /\ (Background.attachedTarget s <> Some tabId ->
      let before :=
        Background.calls s
        ++ match Background.attachedTarget s with
           | Some previous => [Background.Detach Coord previous]
           | None => []
           end in
      Background.ensureDebuggerAttached chrome tabId s
      = match Background.rejects chrome before (Background.Attach Coord tabId "1.2") with
        | None =>
            (Background.Returned tt,
             Background.mkState (Some tabId) (before ++ [Background.Attach Coord tabId "1.2"]))
        | Some e =>
            (Background.Thrown e,
             Background.mkState None (before ++ [Background.Attach Coord tabId "1.2"]))
        end).
Proof.
  destruct s as [target cs].
  unfold Background.ensureDebuggerAttached, Background.bind, Background.getAttachedTarget.
  cbn [Background.attachedTarget Background.calls]. split.
  - intros ->. rewrite Nat.eqb_refl. reflexivity.
  - intros Hne. cbv zeta. destruct target as [t|].
    + destruct (Nat.eqb_spec t tabId) as [->|_]; [congruence|].
      unfold Background.catch, Background.bind, Background.await,
        Background.setAttachedTarget, Background.throw, Background.ret.
      cbn [Background.attachedTarget Background.calls].
      destruct (Background.rejects chrome cs (Background.Detach Coord t));
        cbn [Background.attachedTarget Background.calls];
        destruct (Background.rejects chrome (cs ++ [Background.Detach Coord t])
                    (Background.Attach Coord tabId "1.2"));
        reflexivity.
    + unfold Background.catch, Background.bind, Background.await,
        Background.setAttachedTarget, Background.throw, Background.ret.
      cbn [Background.attachedTarget Background.calls]. rewrite app_nil_r.
      destruct (Background.rejects chrome cs (Background.Attach Coord tabId "1.2"));
        reflexivity.
Qed.

(** The switch from the tab 3 to the tab 7 in the browser that refuses to
    attach. *)
Lemma ensureDebuggerAttached_tracks_target_witness :
  Background.ensureDebuggerAttached refusingBrowser 7 attachedElsewhere
  = (Background.Thrown "Cannot attach to this target.",
     Background.mkState None [Background.Detach Z 3; Background.Attach Z 7 "1.2"]).
Proof.
  apply (proj2 (ensureDebuggerAttached_tracks_target refusingBrowser 7 attachedElsewhere)).
  vm_compute. discriminate.
Defined.

(** X27.  The background script answers [{ ok: true }] to a click message
    only after a complete click: it has found a game tab, the debugger is
    attached to it, and the last three calls are the mouse move, press and
    release on that tab, in this order, with the coordinates and the button
    of the message and the click counts 0, 1 and 1; the button is the left
    one when the message names none.  A message with another action is
    not answered and changes nothing. *)
Theorem click_reply_ok_means_three_events (Coord : Type) (chrome : Background.Browser Coord)
        (message : Background.Message Coord) (s s' : Background.State Coord) :
  (Background.onMessage chrome message s = (Some Background.Ok, s') ->
   Background.action message = "performClick"
   /\ exists tab others,
        Background.tabs chrome (Background.calls s ++ [Background.TabsQuery Coord])
        = tab :: others
        /\ Background.attachedTarget s' = Some tab
        /\ Background.calls s'
           = Background.calls s
             ++ Background.TabsQuery Coord
                :: attachCalls Coord (Background.attachedTarget s) tab
                ++ clickCommands tab (Background.msgX message) (Background.msgY message)
                                 (match Background.msgButton message with
                                  | Some b => b
                                  | None => "left"
                                  end))
  /\ (Background.action message <> "performClick" ->
      Background.onMessage chrome message s = (None, s)).
Proof.
  unfold Background.onMessage. split.
  - destruct (String.eqb_spec (Background.action message) "performClick") as [Ha|Ha];
      cbn [negb]; [|discriminate].
    intros H. split; [exact Ha|].
    destruct (performClick_run chrome (Background.msgX message) (Background.msgY message)
                (match Background.msgButton message with Some b => b | None => "left" end) s)
      as [[e [_ Hrun]]|[[_ [_ Hrun]]|[tab [others [_ [Htabs [[e [_ Hrun]]|[r [n [Hrun [_ Hr]]]]]]]]]]];
      rewrite Hrun in H; try discriminate H.
    destruct r as [[]|e]; [|discriminate H]. subst n.
    injection H as <-. exists tab, others. split; [exact Htabs|]. split; [reflexivity|].
    reflexivity.
  - intros Ha. apply String.eqb_neq in Ha. now rewrite Ha.
Qed.

Lemma click_reply_ok_means_three_events_witness :
  exists tab others,
    Background.tabs obligingBrowser ([] ++ [Background.TabsQuery Z]) = tab :: others
    /\ Background.attachedTarget
         (snd (Background.onMessage obligingBrowser
                 (Background.mkMessage "performClick" 10 20 None)
                 (Background.mkState None []))) = Some tab
    /\ Background.calls
         (snd (Background.onMessage obligingBrowser
                 (Background.mkMessage "performClick" 10 20 None)
                 (Background.mkState None [])))
       = [] ++ Background.TabsQuery Z
               :: attachCalls Z None tab ++ clickCommands tab 10 20 "left".
Proof.
  apply (proj1 (@click_reply_ok_means_three_events Z obligingBrowser
                  (Background.mkMessage "performClick" 10 20 None)
                  (Background.mkState None [])
                  (snd (Background.onMessage obligingBrowser
                          (Background.mkMessage "performClick" 10 20 None)
                          (Background.mkState None []))))).
  vm_compute. reflexivity.
Defined.

(** X28.  How a click fails.  When [performClick] throws, either no game
    tab was found or the query failed, and nothing but the query was
    called; or the attach failed, and [attachedTarget] is [null]; or one of
    the three mouse events was rejected.  In the last case the events
    sent are the first one, two or three of the click, no later event
    follows the rejected one, and [attachedTarget] still names the tab:
    the next click on that tab attaches nothing and sends its events
    straight away. *)
Theorem failed_click_modes (Coord : Type) (chrome : Background.Browser Coord)
        (x y : Coord) (button : string) (s s' : Background.State Coord) (e : string) :
  Background.performClick chrome x y button s = (Background.Thrown e, s') ->
  (Background.attachedTarget s' = Background.attachedTarget s
   /\ Background.calls s' = Background.calls s ++ [Background.TabsQuery Coord])
  \/ (exists tab,
        Background.attachedTarget s' = None
        /\ Background.attachedTarget s <> Some tab
        /\ Background.calls s'
           = Background.calls s
             ++ Background.TabsQuery Coord :: attachCalls Coord (Background.attachedTarget s) tab)
  \/ (exists tab n,
        (1 <= n <= 3)%nat
        /\ Background.attachedTarget s' = Some tab
        /\ Background.calls s'
           = Background.calls s
             ++ Background.TabsQuery Coord
                :: attachCalls Coord (Background.attachedTarget s) tab
                ++ firstn n (clickCommands tab x y button)
        /\ attachCalls Coord (Background.attachedTarget s') tab = []).
Proof.
  intros H.
  destruct (performClick_run chrome x y button s)
    as [[e0 [_ Hrun]]|[[_ [_ Hrun]]|[tab [others [_ [Htabs [[e0 [Hne Hrun]]|[r [n [Hrun [Hn Hr]]]]]]]]]]];
    rewrite Hrun in H.
  - injection H as _ <-. left. split; reflexivity.
  - injection H as _ <-. left. split; reflexivity.
  - injection H as _ <-. right. left. exists tab. split; [reflexivity|]. split; [exact Hne|].
    reflexivity.
  - destruct r as [[]|e1]; [discriminate H|]. injection H as _ <-.
    right. right. exists tab, n. split; [lia|]. split; [reflexivity|]. split; [reflexivity|].
    cbn [Background.attachedTarget]. unfold attachCalls. now rewrite Nat.eqb_refl.
Qed.

Lemma failed_click_modes_witness :
  (Background.attachedTarget (snd refusedClick) = Background.attachedTarget attachedElsewhere
   /\ Background.calls (snd refusedClick)
      = Background.calls attachedElsewhere ++ [Background.TabsQuery Z])
  \/ (exists tab,
        Background.attachedTarget (snd refusedClick) = None
        /\ Background.attachedTarget attachedElsewhere <> Some tab
        /\ Background.calls (snd refusedClick)
           = Background.calls attachedElsewhere
             ++ Background.TabsQuery Z
                :: attachCalls Z (Background.attachedTarget attachedElsewhere) tab)
  \/ (exists tab n,
        (1 <= n <= 3)%nat
        /\ Background.attachedTarget (snd refusedClick) = Some tab
        /\ Background.calls (snd refusedClick)
           = Background.calls attachedElsewhere
             ++ Background.TabsQuery Z
                :: attachCalls Z (Background.attachedTarget attachedElsewhere) tab
                ++ firstn n (clickCommands tab 10 20 "left")
        /\ attachCalls Z (Background.attachedTarget (snd refusedClick)) tab = []).
Proof.
  apply (@failed_click_modes Z refusingBrowser 10 20 "left" attachedElsewhere
           (snd refusedClick) "Cannot attach to this target.").
  vm_compute. reflexivity.
Defined.

(** ** The session timer *)

Lemma padZero_twoDigits n :
  0 <= n < 100 -> Popup.padZero n = twoDigits n.
Proof.
  intros Hn.
  assert (H : forallb (fun k => String.eqb (Popup.padZero (Z.of_nat k)) (twoDigits (Z.of_nat k)))
                      (seq 0 100) = true) by (vm_compute; reflexivity).
  rewrite forallb_forall in H.
  specialize (H (Z.to_nat n)). rewrite Z2Nat.id in H by lia.
  apply String.eqb_eq. apply H. apply in_seq. lia.
Qed.

(** The minutes within the hour, read off the whole seconds or off the
    whole minutes. *)
Lemma minutes_of_seconds t :
  0 <= t -> (t mod 3600) / 60 = (t / 60) mod 60.
Proof.
  intros Ht. replace 3600 with (60 * 60) by reflexivity.
  rewrite Z.rem_mul_r by lia.
  rewrite Z.add_comm, Z.mul_comm, Z.div_add_l by lia.
  rewrite (Z.div_small (t mod 60) 60) by (apply Z.mod_pos_bound; lia).
  apply Z.add_0_r.
Qed.

(** X29.  The timer of the popup.  For a duration of whole milliseconds,
    from 0 to less than a hundred hours, [formatDuration] gives
    [HH:MM:SS]: the two decimal digits of the whole hours, of the whole
    minutes within the hour and of the whole seconds within the minute,
    with colons between them; hours are not wrapped into days.  The three
    fields add up to the whole seconds of the duration, and a duration of
    less than a second shows [00:00:00]. *)
Theorem formatDuration_clock (ms : Z) (duration : Popup.isDuration ms = true) :
  0 <= ms < 360000000 ->
  Popup.formatDuration ms duration
  = (twoDigits (ms / 3600000) ++ ":" ++ twoDigits ((ms / 60000) mod 60) ++ ":"
     ++ twoDigits ((ms / 1000) mod 60))%string
  /\ 0 <= ms / 3600000 < 100
  /\ ms / 3600000 * 3600 + (ms / 60000) mod 60 * 60 + (ms / 1000) mod 60 = ms / 1000
  /\ (ms < 1000 -> Popup.formatDuration ms duration = "00:00:00").
Proof.
  intros Hms. unfold Popup.formatDuration. cbv zeta.
  assert (Ht : 0 <= ms / 1000) by (apply Z.div_pos; lia).
  assert (Hh : ms / 1000 / 3600 = ms / 3600000) by (rewrite Z.div_div by lia; reflexivity).
  assert (Hm : ms / 1000 / 60 = ms / 60000) by (rewrite Z.div_div by lia; reflexivity).
  rewrite !Z.rem_mod_nonneg by lia.
  rewrite (minutes_of_seconds Ht), Hh, Hm.
  assert (Hh100 : 0 <= ms / 3600000 < 100).
  { split; [apply Z.div_pos; lia | apply Z.div_lt_upper_bound; lia]. }
  pose proof (Z.mod_pos_bound (ms / 60000) 60 ltac:(lia)) as Hmin.
  pose proof (Z.mod_pos_bound (ms / 1000) 60 ltac:(lia)) as Hsec.
  rewrite !padZero_twoDigits by lia.
  split; [reflexivity|]. split; [exact Hh100|]. split.
  - rewrite <- Hh, <- Hm, <- (minutes_of_seconds Ht).
    set (t := ms / 1000) in *.
    pose proof (Z.div_mod t 3600 ltac:(lia)) as Hd.
    pose proof (Z.div_mod (t mod 3600) 60 ltac:(lia)) as Hd2.
    assert (Hss : (t mod 3600) mod 60 = t mod 60).
    { replace 3600 with (60 * 60) by reflexivity.
      rewrite Z.rem_mul_r by lia. rewrite Z.add_mod by lia.
      rewrite Z.mul_comm, Z.mod_mul by lia. rewrite Z.add_0_r, !Z.mod_mod by lia.
      reflexivity. }
    lia.
  - intros Hlt.
    rewrite (Z.div_small ms 3600000), (Z.div_small ms 60000), (Z.div_small ms 1000) by lia.
    reflexivity.
Qed.

Lemma formatDuration_clock_witness :
  Popup.formatDuration 3725000 eq_refl = "01:02:05".
Proof.
  refine (eq_trans (proj1 (@formatDuration_clock 3725000 eq_refl _)) _).
  - lia.
  - vm_compute. reflexivity.
Defined.
